(** * Seshet: roster, activity cache, file logger and module dispatch

    A shallow embedding of [seshet/bot.py]: the classes [SeshetUser],
    [SeshetChannel] and [SeshetBot] and the names-reply handler
    [_add_channel_names].  Python objects that are shared by reference
    (channels, which sit both in the bot's channel dict and in every member's
    channel list) live in an explicit store; dicts keep their insertion order;
    exceptions leave the mutations made before them in place. *)

From Stdlib Require Import String Ascii List Arith Bool Lia.
From stdpp Require Import base decidable option list strings gmap sets.
Import ListNotations.

Local Open Scope string_scope.
Local Open Scope list_scope.
Local Open Scope nat_scope.

(** ** Python strings *)

Module PyStr.

(** Characters are code points below 256. *)
Definition code (c : ascii) : nat := nat_of_ascii c.

(** [str.lower] on one code point: A-Z, and the Latin-1 capitals
    (U+00C0..U+00DE without the multiplication sign). *)
Definition lower_char (c : ascii) : ascii :=
  let n := code c in
  if ((65 <=? n) && (n <=? 90))
     || ((192 <=? n) && (n <=? 222) && negb (n =? 215))
  then ascii_of_nat (n + 32) else c.

Fixpoint lower (s : string) : string :=
  match s with
  | EmptyString => EmptyString
  | String c r => String (lower_char c) (lower r)
  end.

(** [s.startswith(p)] *)
Fixpoint startswith (s p : string) : bool :=
  match p, s with
  | EmptyString, _ => true
  | String _ _, EmptyString => false
  | String b q, String a r => if Ascii.eqb a b then startswith r q else false
  end.

(** [s[n:]] *)
Fixpoint slice_from (n : nat) (s : string) : string :=
  match n, s with
  | O, _ => s
  | S _, EmptyString => EmptyString
  | S m, String _ r => slice_from m r
  end.

Fixpoint mem_char (c : ascii) (cs : string) : bool :=
  match cs with
  | EmptyString => false
  | String d r => Ascii.eqb c d || mem_char c r
  end.

(** [s.lstrip(chars)] *)
Fixpoint lstrip (chars s : string) : string :=
  match s with
  | EmptyString => EmptyString
  | String c r => if mem_char c chars then lstrip chars r else s
  end.

(** [str.isspace] on one code point below 256. *)
Definition is_space (c : ascii) : bool :=
  let n := code c in
  ((9 <=? n) && (n <=? 13)) || ((28 <=? n) && (n <=? 32))
  || (n =? 133) || (n =? 160).

(** [s.split()]: maximal runs of non-space characters.  [cur] is the token
    being read, kept reversed. *)
Definition rev_string (s : string) : string :=
  string_of_list_ascii (rev (list_ascii_of_string s)).

Fixpoint split_aux (cur : string) (s : string) : list string :=
  match s with
  | EmptyString =>
      match cur with EmptyString => [] | _ => [rev_string cur] end
  | String c r =>
      if is_space c
      then match cur with
           | EmptyString => split_aux EmptyString r
           | _ => rev_string cur :: split_aux EmptyString r
           end
      else split_aux (String c cur) r
  end.

Definition split (s : string) : list string := split_aux EmptyString s.

(** [sep.join(l)] *)
Definition join (sep : string) (l : list string) : string :=
  String.concat sep l.

Definition eqb (a b : string) : bool := bool_decide (a = b).

Definition mem (x : string) (l : list string) : bool :=
  bool_decide (x ∈ l).

End PyStr.

(** ** Identities *)

(** Modelled from the spec: [IRCstr] is imported from [seshet/utils.py], which
    is not among the sources.  The spec's identity key is "a case-normalized
    string" whose equality and hashing "use the IRC case-mapping transform
    (uppercase/lowercase equivalence extended to {}|^ and []\~)", and "two raw
    strings differing only by IRC-equivalent case must resolve to the same
    entry".  An identity is represented by its canonical lower-case form, so
    that equality of identities is equality of strings; a raw [str] that is
    compared with an identity by [==] is normalised first. *)
Abbreviation Identity := string (only parsing).

Definition irc_lower_char (c : ascii) : ascii :=
  let n := PyStr.code c in
  if (65 <=? n) && (n <=? 90) then ascii_of_nat (n + 32)
  else if n =? 91 then "{"%char
  else if n =? 93 then "}"%char
  else if n =? 92 then "|"%char
  else if n =? 126 then "^"%char
  else c.

Fixpoint IRCstr (s : string) : Identity :=
  match s with
  | EmptyString => EmptyString
  | String c r => String (irc_lower_char c) (IRCstr r)
  end.

(** ** Python dicts

    A dict is an association list in insertion order without repeated keys:
    assigning to a present key keeps its position, a new key goes last.  The
    order is what [values()] iterates over. *)

Section Dict.
Context {V : Type}.

Definition dict := list (string * V).

Fixpoint dget (k : string) (d : dict) : option V :=
  match d with
  | [] => None
  | (k', v) :: r => if String.eqb k' k then Some v else dget k r
  end.

Definition dmem (k : string) (d : dict) : bool :=
  match dget k d with Some _ => true | None => false end.

Fixpoint dset (k : string) (v : V) (d : dict) : dict :=
  match d with
  | [] => [(k, v)]
  | (k', v') :: r =>
      if String.eqb k' k then (k', v) :: r else (k', v') :: dset k v r
  end.

Fixpoint ddel (k : string) (d : dict) : dict :=
  match d with
  | [] => []
  | (k', v') :: r => if String.eqb k' k then r else (k', v') :: ddel k r
  end.

Definition dkeys (d : dict) : list string := map fst d.
Definition dvalues (d : dict) : list V := map snd d.
End Dict.

Arguments dict : clear implicits.

(** ** Raw strings among identities

    Modelled from the spec: [IRCstr] is not among the sources.  Where the
    code hands a raw [str] to a dict or a set of identities without wrapping
    it ([e.target in self.channels], [self.channels[e.target]],
    [set(mod.enicks) & chan_nicks]), Python finds an element by its hash
    first and by [==] after that.  A [str] hashes as its own characters,
    whatever it is compared with; the spellings of one identity "hash
    identically", as the canonical form does.  A raw [str] therefore finds
    the identity it spells only when it is spelled canonically; any other
    spelling misses, though it compares equal.  Distinct strings are taken to
    have distinct hashes. *)
Definition canonical (s : string) : bool := String.eqb (IRCstr s) s.

(** [d[s]] and [s in d] for a raw [str] [s] and a dict keyed by identities. *)
Definition dget_raw {V} (s : string) (d : dict V) : option V :=
  if canonical s then dget s d else None.

Definition dmem_raw {V} (s : string) (d : dict V) : bool :=
  match dget_raw s d with Some _ => true | None => false end.

(** ** Exceptions and the state monad

    A computation takes the state and returns the state it leaves behind with
    either a value or the exception that ended it. *)

Inductive Exn : Type :=
| KeyError
| ValueError
| IndexError
| AttributeError
| RuntimeError
| ImportError
| FileNotFoundError
| DanglingRef.
(** [DanglingRef] is not a Python exception: the model raises it when an
    address has no object in the store, which no Python reference can do. *)

Inductive Res (A : Type) : Type :=
| Ok (a : A)
| Raise (x : Exn).
Arguments Ok {A} a.
Arguments Raise {A} x.

Definition M (S A : Type) : Type := S -> Res A * S.

Definition ret {S A} (a : A) : M S A := fun s => (Ok a, s).

Definition raise {S A} (x : Exn) : M S A := fun s => (Raise x, s).

Definition bind {S A B} (c : M S A) (k : A -> M S B) : M S B :=
  fun s => match c s with
           | (Ok a, s') => k a s'
           | (Raise x, s') => (Raise x, s')
           end.

Definition gets {S A} (f : S -> A) : M S A := fun s => (Ok (f s), s).

Definition modify {S} (f : S -> S) : M S unit := fun s => (Ok tt, f s).

(** [d[k]] for a dict or [o] for an optional object: raise when absent. *)
Definition unwrap {S A} (x : Exn) (o : option A) : M S A :=
  match o with Some a => ret a | None => raise x end.

Declare Scope py_scope.
Delimit Scope py_scope with py.
Notation "x <- c ;; k" := (bind c (fun x => k))
  (at level 100, c at next level, right associativity) : py_scope.
Notation "c ;; k" := (bind c (fun _ => k))
  (at level 100, right associativity) : py_scope.
Local Open Scope py_scope.

(** [for x in l: body x] *)
Fixpoint for_each {S A} (l : list A) (body : A -> M S unit) : M S unit :=
  match l with
  | [] => ret tt
  | x :: r => body x ;; for_each r body
  end.

(** State after a computation, and its outcome. *)
Definition exec {S A} (c : M S A) (s : S) : S := snd (c s).
Definition outcome {S A} (c : M S A) (s : S) : Res A := fst (c s).

(** ** Objects *)

Abbreviation Time := nat (only parsing).
Abbreviation addr := nat (only parsing).

Module SeshetUser.

Record t : Type := mk {
  nick : Identity;
  user : string;
  host : string;
  channels : list addr
}.

(** [SeshetUser(nick, user, host)] *)
Definition init (nick user host : string) : t :=
  mk (IRCstr nick) user host [].

Definition set_nick (n : Identity) (u : t) : t :=
  mk n (user u) (host u) (channels u).

Definition set_channels (l : list addr) (u : t) : t :=
  mk (nick u) (user u) (host u) l.

End SeshetUser.

(** What [log_message] may get as its [user]: a [SeshetUser], an [IRCstr],
    or anything else (a [str] in this program). *)
Inductive Author : Type :=
| AUser (u : SeshetUser.t)
| AIdentity (i : Identity)
| AStr (s : string).

Module SeshetChannel.

Definition Entry : Type := Time * Identity * string.

Record t : Type := mk {
  name : Identity;
  users : gset Identity;
  message_log : list Entry;
  _log_size : nat
}.

(** [SeshetChannel(name, users, log_size=100)].  [users] is the set object
    built by the caller; the cap is a length, hence a natural number. *)
Definition init (name : string) (users : gset Identity) (log_size : nat) : t :=
  mk (IRCstr name) users [] log_size.

Definition set_users (f : gset Identity -> gset Identity) (c : t) : t :=
  mk (name c) (f (users c)) (message_log c) (_log_size c).

Definition set_message_log (l : list Entry) (c : t) : t :=
  mk (name c) (users c) l (_log_size c).

(** [while len(log) > size: del log[0]] *)
Fixpoint evict (size : nat) (log : list Entry) : list Entry :=
  match log with
  | [] => []
  | _ :: r => if size <? length log then evict size r else log
  end.

(** [log_message(user, message)]; [time] is what [datetime.utcnow()]
    returns at the call. *)
Definition log_message (time : Time) (user : Author) (message : string)
    (c : t) : t :=
  let user := match user with
              | AUser u => SeshetUser.nick u
              | AIdentity i => i
              | AStr s => IRCstr s
              end in
  set_message_log
    (evict (_log_size c) (message_log c ++ [(time, user, message)])) c.

End SeshetChannel.

(** The store of channel objects: an address is an index. *)
Abbreviation Store := (list SeshetChannel.t).

(** Running a computation on a part of the state. *)
Definition zoom {S T A} (proj : S -> T) (inj : T -> S -> S) (c : M T A)
  : M S A :=
  fun s => let (r, t) := c (proj s) in (r, inj t s).

(** *** The store *)

Definition deref (a : addr) : M Store SeshetChannel.t :=
  fun st => match st !! a with
            | Some c => (Ok c, st)
            | None => (Raise DanglingRef, st)
            end.

Definition alloc (c : SeshetChannel.t) : M Store addr :=
  fun st => (Ok (length st), st ++ [c]).

(** A method call that changes the object at [a]. *)
Definition mutate (a : addr) (f : SeshetChannel.t -> SeshetChannel.t)
  : M Store unit :=
  c <- deref a ;;
  modify (fun st => <[a := f c]> st).

(** [channel.users.add(n)] *)
Definition users_add (a : addr) (n : Identity) : M Store unit :=
  mutate a (SeshetChannel.set_users (fun s => s ∪ {[n]})).

(** [channel.users.remove(n)]: a set raises [KeyError] for a missing
    element. *)
Definition users_remove (a : addr) (n : Identity) : M Store unit :=
  c <- deref a ;;
  if bool_decide (n ∈ SeshetChannel.users c)
  then mutate a (SeshetChannel.set_users (fun s => s ∖ {[n]}))
  else raise KeyError.

(** [x in l] and [l.remove(x)] on a list of channels: channels have no
    [__eq__], so both compare addresses; [remove] takes the first occurrence
    out and raises [ValueError] when there is none. *)
Definition list_mem (x : addr) (l : list addr) : bool := existsb (Nat.eqb x) l.

Fixpoint list_remove (x : addr) (l : list addr) : list addr :=
  match l with
  | [] => []
  | y :: r => if Nat.eqb y x then r else y :: list_remove x r
  end.

(** *** [SeshetUser] methods

    A method runs on the user object and the store. *)

Definition UserCtx : Type := SeshetUser.t * Store.

Definition self : M UserCtx SeshetUser.t := gets fst.
Definition set_self (f : SeshetUser.t -> SeshetUser.t) : M UserCtx unit :=
  modify (fun '(u, st) => (f u, st)).
Definition in_store {A} (c : M Store A) : M UserCtx A :=
  zoom snd (fun st '(u, _) => (u, st)) c.

Definition channels_remove (channel : addr) : M UserCtx unit :=
  u <- self ;;
  if list_mem channel (SeshetUser.channels u)
  then set_self (SeshetUser.set_channels
                   (list_remove channel (SeshetUser.channels u)))
  else raise ValueError.

Definition join (channel : addr) : M UserCtx unit :=
  u <- self ;;
  if negb (list_mem channel (SeshetUser.channels u)) then
    in_store (users_add channel (SeshetUser.nick u)) ;;
    set_self (SeshetUser.set_channels (SeshetUser.channels u ++ [channel]))
  else ret tt.

Definition part (channel : addr) : M UserCtx unit :=
  u <- self ;;
  if list_mem channel (SeshetUser.channels u) then
    in_store (users_remove channel (SeshetUser.nick u)) ;;
    channels_remove channel
  else ret tt.

Definition quit : M UserCtx unit :=
  u <- self ;;
  for_each (SeshetUser.channels u)
           (fun c => in_store (users_remove c (SeshetUser.nick u))) ;;
  set_self (SeshetUser.set_channels []).

Definition change_nick (nick : string) : M UserCtx unit :=
  u <- self ;;
  let old_nick := SeshetUser.nick u in
  set_self (SeshetUser.set_nick (IRCstr nick)) ;;
  for_each (SeshetUser.channels u)
           (fun c => in_store (users_remove c old_nick) ;;
                     in_store (users_add c (IRCstr nick))).

(** ** Events, module rules and the database *)

(** A decoded event as [ircutils3] hands it over; a handler reads the fields
    it needs ([channel] and [name_list] belong to the names reply). *)
Record Event : Type := mkEvent {
  command : string;
  source : string;
  target : string;
  message : string;
  e_user : string;
  e_host : string;
  params : list string;
  channel : string;
  name_list : list string
}.

Definition set_message (m : string) (e : Event) : Event :=
  mkEvent (command e) (source e) (target e) m (e_user e) (e_host e)
          (params e) (channel e) (name_list e).

(** A command handler [fun(self, e)] is foreign code: it is named here, and a
    call is recorded with the event as it is at the call.  Handlers are taken
    to return normally and to leave bot and event as they are. *)
Definition Handler := string.

(** A row of [db.modules], with the [commands] dict of the Python module that
    [__import__(mod.name)] loads ([None] when there is no such module). *)
Record ModuleRule : Type := mkModule {
  mod_name : string;
  cmd_prefix : string;
  event_types : list string;
  enabled : bool;
  whitelist : list string;
  blacklist : list string;
  enicks : list string;
  dnicks : list string;
  echannels : list string;
  dchannels : list string;
  commands : option (dict Handler)
}.

(** A row of [db.event_log]. *)
Record LogRow : Type := mkRow {
  event_type : string;
  event_time : Time;
  row_source : string;
  row_target : string;
  row_message : string;
  row_host : string;
  row_params : string
}.

Record DB : Type := mkDB {
  event_log : list LogRow;
  modules : list ModuleRule
}.

(** ** Format templates

    [str.format] over the local variables.  A template is literal text and
    replacement fields [{name}] with a plain name; a name that is not among
    the locals raises [KeyError].  Fields with an attribute or an index, a
    conversion or a format specification have no representation here:
    templates that use them are outside the model. *)
Inductive Piece : Type :=
| Lit (s : string)
| Field (name : string).

Definition Template := list Piece.

Fixpoint format (t : Template) (locals : dict string) : option string :=
  match t with
  | [] => Some ""
  | Lit s :: r => option_map (String.append s) (format r locals)
  | Field n :: r =>
      match dget n locals with
      | Some v => option_map (String.append v) (format r locals)
      | None => None
      end
  end.

(** ** The bot *)

Module SeshetBot.

Record t : Type := mk {
  (* identity, kept by the [ircutils3] client *)
  nickname : string;
  user : string;
  real_name : string;
  (* [str(self)]: neither class of [bot.py] defines [__str__] for the bot,
     so the text is the client library's and the interpreter's; it is taken
     as given *)
  self_str : string;
  (* configuration *)
  log_file : Template;
  log_formats : dict Template;
  locale : dict string;
  (* roster *)
  channels : dict addr;
  users : dict SeshetUser.t;
  (* [None]: no database, log to file and run only core *)
  db : option DB;
  (* the world: channel objects, clock, file system, handler calls *)
  store : Store;
  now : Time;
  dirs : list string;
  files : list (string * string);
  calls : list (Handler * Event)
}.

Definition set_channels (f : dict addr -> dict addr) (b : t) : t :=
  mk (nickname b) (user b) (real_name b) (self_str b) (log_file b) (log_formats b)
     (locale b) (f (channels b)) (users b) (db b) (store b) (now b)
     (dirs b) (files b) (calls b).

Definition set_users
    (f : dict SeshetUser.t -> dict SeshetUser.t) (b : t) : t :=
  mk (nickname b) (user b) (real_name b) (self_str b) (log_file b) (log_formats b)
     (locale b) (channels b) (f (users b)) (db b) (store b) (now b)
     (dirs b) (files b) (calls b).

Definition set_db (d : option DB) (b : t) : t :=
  mk (nickname b) (user b) (real_name b) (self_str b) (log_file b) (log_formats b)
     (locale b) (channels b) (users b) d (store b) (now b)
     (dirs b) (files b) (calls b).

Definition set_store (s : Store) (b : t) : t :=
  mk (nickname b) (user b) (real_name b) (self_str b) (log_file b) (log_formats b)
     (locale b) (channels b) (users b) (db b) s (now b)
     (dirs b) (files b) (calls b).

Definition set_now (n : Time) (b : t) : t :=
  mk (nickname b) (user b) (real_name b) (self_str b) (log_file b) (log_formats b)
     (locale b) (channels b) (users b) (db b) (store b) n
     (dirs b) (files b) (calls b).

Definition set_dirs (d : list string) (b : t) : t :=
  mk (nickname b) (user b) (real_name b) (self_str b) (log_file b) (log_formats b)
     (locale b) (channels b) (users b) (db b) (store b) (now b)
     d (files b) (calls b).

Definition set_files (f : list (string * string)) (b : t) : t :=
  mk (nickname b) (user b) (real_name b) (self_str b) (log_file b) (log_formats b)
     (locale b) (channels b) (users b) (db b) (store b) (now b)
     (dirs b) f (calls b).

Definition set_calls (c : list (Handler * Event)) (b : t) : t :=
  mk (nickname b) (user b) (real_name b) (self_str b) (log_file b) (log_formats b)
     (locale b) (channels b) (users b) (db b) (store b) (now b)
     (dirs b) (files b) c.

(** [SeshetBot(nick, db)] as [__init__] leaves it: default log file, no
    formats, no locale, empty roster.  [username] and [realname] are the
    client's, [repr] is what [str(self)] gives for the new object. *)
Definition init (nick username realname repr : string) (db : option DB)
    (clock : Time) (dirs : list string) : t :=
  mk nick username realname repr [Lit "seshet.log"] [] [] [] [] db [] clock
     dirs [] [].

End SeshetBot.

Abbreviation Bot := SeshetBot.t.

Definition newline : string := String (ascii_of_nat 10) EmptyString.

(** [for x in l: acc = body(acc, x)] *)
Fixpoint fold_m {S A B} (body : B -> A -> M S B) (l : list A) (acc : B)
  : M S B :=
  match l with
  | [] => ret acc
  | x :: r => acc' <- body acc x ;; fold_m body r acc'
  end.

Section Bot.

(** The platform: [datetime.strftime], [os.path.expanduser] and
    [os.path.dirname]. *)
Variable strftime : string -> Time -> string.
Variable expanduser : string -> string.
Variable dirname : string -> string.

Definition this : M Bot Bot := gets (fun b => b).

Definition in_bot_store {A} (c : M Store A) : M Bot A :=
  zoom SeshetBot.store SeshetBot.set_store c.

(** [datetime.utcnow()]: the clock is read and moves on. *)
Definition utcnow : M Bot Time :=
  fun b => (Ok (SeshetBot.now b), SeshetBot.set_now (S (SeshetBot.now b)) b).

(** A method call on the user object that the dict holds under [key]. *)
Definition call_user {A} (key : Identity) (m : M UserCtx A) : M Bot A :=
  fun b =>
    match dget key (SeshetBot.users b) with
    | None => (Raise KeyError, b)
    | Some u =>
        let '(r, (u', st')) := m (u, SeshetBot.store b) in
        (r, SeshetBot.set_store st' (SeshetBot.set_users (dset key u') b))
    end.

(** *** Logging *)

(** [log]: insert a row into [db.event_log] and commit.  Without a database
    the attribute [self.db] does not exist. *)
Definition log (etype source msg target hostmask params : string)
  : M Bot unit :=
  b <- this ;;
  d <- unwrap AttributeError (SeshetBot.db b) ;;
  time <- utcnow ;;
  modify (SeshetBot.set_db
            (Some (mkDB (event_log d
                         ++ [mkRow etype time source target msg hostmask
                                   params])
                        (modules d)))).

(** [str(today)], the text of the field [{today}]: [datetime.__str__] is
    [isoformat(sep=' ')], which leaves the microseconds out when they are
    zero. *)
Definition str_datetime (t : Time) : string :=
  if String.eqb (strftime "%f" t) "000000"
  then strftime "%Y-%m-%d %H:%M:%S" t
  else strftime "%Y-%m-%d %H:%M:%S.%f" t.

(** [os.path.isdir(d)] and [os.makedirs(d)] over the directories that
    exist.  The empty path is no directory and cannot be made:
    [os.makedirs('')] raises [FileNotFoundError].  Other failures of the
    operating system (permissions, a file in the way, a full disk) are not
    modelled. *)
Definition isdir (d : string) (dirs : list string) : bool :=
  negb (String.eqb d "") && PyStr.mem d dirs.

Definition makedirs (d : string) : M Bot unit :=
  if String.eqb d "" then raise FileNotFoundError
  else modify (fun b => SeshetBot.set_dirs (SeshetBot.dirs b ++ [d]) b).

Definition _log_to_file (etype source msg target hostmask params : string)
  : M Bot unit :=
  today <- utcnow ;;
  b <- this ;;
  date_fmt <- unwrap KeyError (dget "date_fmt" (SeshetBot.locale b)) ;;
  let date := strftime date_fmt today in
  time_fmt <- unwrap KeyError (dget "time_fmt" (SeshetBot.locale b)) ;;
  let time := strftime time_fmt today in
  short_fmt <-
    unwrap KeyError (dget "short_datetime_fmt" (SeshetBot.locale b)) ;;
  let datetime_s := strftime short_fmt today in
  long_fmt <-
    unwrap KeyError (dget "long_datetime_fmt" (SeshetBot.locale b)) ;;
  let datetime_l := strftime long_fmt today in
  let target :=
    if PyStr.eqb target (SeshetBot.nickname b)
       && PyStr.mem etype ["privmsg"; "action"]
    then source else target in
  match dget etype (SeshetBot.log_formats b) with
  | Some fmt =>
      let locals :=
        [("self", SeshetBot.self_str b); ("etype", etype);
         ("source", source); ("msg", msg); ("target", target);
         ("hostmask", hostmask); ("params", params);
         ("today", str_datetime today); ("date", date); ("time", time);
         ("datetime_s", datetime_s); ("datetime_l", datetime_l)] in
      path <- unwrap KeyError (format (SeshetBot.log_file b) locals) ;;
      let file_path := expanduser path in
      let file_dir := dirname file_path in
      (if negb (isdir file_dir (SeshetBot.dirs b))
       then makedirs file_dir
       else ret tt) ;;
      line <- unwrap KeyError
                (format fmt (locals ++ [("file_path", file_path);
                                        ("file_dir", file_dir)])) ;;
      modify (fun b => SeshetBot.set_files
                         (SeshetBot.files b
                          ++ [(file_path, String.append line newline)]) b)
  | None => ret tt  (* else do nothing *)
  end.

(** [self.log] as [__init__] binds it. *)
Definition self_log (etype source msg target hostmask params : string)
  : M Bot unit :=
  b <- this ;;
  match SeshetBot.db b with
  | None => _log_to_file etype source msg target hostmask params
  | Some _ => log etype source msg target hostmask params
  end.

(** *** Module dispatch *)

(** The loop variables of the selection loop: the event (its message is
    rewritten in place), [for_us] and [fin_mods]. *)
Record Sel : Type := mkSel {
  sel_event : Event;
  for_us : bool;
  fin_mods : list ModuleRule
}.

Definition append_mod (mod_ : ModuleRule) (s : Sel) : Sel :=
  mkSel (sel_event s) (for_us s) (fin_mods s ++ [mod_]).

(** [e.message = e.message[len(n):].lstrip(',: ')], append, [for_us = True] *)
Definition strip_name (n : string) (msg : string) : string :=
  PyStr.lstrip ",: " (PyStr.slice_from (String.length n) msg).

Definition addressed (n : string) (mod_ : ModuleRule) (s : Sel) : Sel :=
  mkSel (set_message (strip_name n (message (sel_event s))) (sel_event s))
        true (fin_mods s ++ [mod_]).

(** [set(l) & nicks] is not empty: [l] holds raw strings, [nicks]
    identities, and a raw string is in both when it is the canonical
    spelling of a member. *)
Definition nicks_meet (l : list string) (nicks : gset Identity) : bool :=
  existsb (fun n => canonical n && bool_decide (n ∈ nicks)) l.

(** One turn of [for mod in init_mods].  [chan_nicks] is [Some] the
    channel's user set when [chan_msg] holds. *)
Definition select_one (nickname m_low bot_n bot_u bot_r : string)
    (chan_nicks : option (gset Identity)) (s : Sel) (mod_ : ModuleRule)
  : Sel :=
  let e := sel_event s in
  let s :=
    if PyStr.mem (source e) (whitelist mod_) then append_mod mod_ s
    else s in
  let s :=
    if PyStr.mem nickname (enicks mod_) then
      if PyStr.eqb (target e) nickname || for_us s then append_mod mod_ s
      else if PyStr.startswith m_low bot_n then addressed bot_n mod_ s
      else if PyStr.startswith m_low bot_u then addressed bot_u mod_ s
      else if PyStr.startswith m_low bot_r then addressed bot_r mod_ s
      else s
    else s in
  match chan_nicks with
  | Some nicks =>
      if PyStr.mem (target e) (dchannels mod_) then s
      else if nicks_meet (dnicks mod_) nicks then s
      else if PyStr.mem (target e) (echannels mod_) then append_mod mod_ s
      else if nicks_meet (enicks mod_) nicks then append_mod mod_ s
      else s
  | None => s
  end.

Definition select (b : Bot) (e : Event)
    (chan_nicks : option (gset Identity)) (init_mods : list ModuleRule)
  : Sel :=
  let m_low := PyStr.lower (message e) in
  let bot_n := PyStr.lower (SeshetBot.nickname b) in
  let bot_u := PyStr.lower (SeshetBot.user b) in
  let bot_r := PyStr.lower (SeshetBot.real_name b) in
  fold_left (select_one (SeshetBot.nickname b) m_low bot_n bot_u bot_r
                        chan_nicks)
            init_mods (mkSel e false []).

(** [for cmd, fun in m.commands.items()] with its [break]. *)
Fixpoint scan_commands (prefix : string) (argv : list string)
    (cmds : dict Handler) (e : Event) : M Bot unit :=
  match cmds with
  | [] => ret tt
  | (cmd, fun_) :: r =>
      argv0 <- unwrap IndexError (head argv) ;;
      if PyStr.eqb (String.append prefix cmd) argv0
      then modify (fun b => SeshetBot.set_calls
                              (SeshetBot.calls b ++ [(fun_, e)]) b)
      else scan_commands prefix argv r e
  end.

Definition run_module (argv : list string) (e : Event) (mod_ : ModuleRule)
  : M Bot unit :=
  cmds <- unwrap ImportError (commands mod_) ;;
  scan_commands (cmd_prefix mod_) argv cmds e.

(** [db(event_types.contains(e.command) & mod_enabled).select()] *)
Definition query_modules (d : DB) (e : Event) : list ModuleRule :=
  filter (fun m => PyStr.mem (command e) (event_types m) && enabled m)
         (modules d).

(** [run_modules(e)].  Python returns nothing and leaves the event
    rewritten; the model returns the event as the call leaves it.  The
    channel is looked up with the raw [e.target]. *)
Definition run_modules (e : Event) : M Bot Event :=
  b <- this ;;
  d <- unwrap AttributeError (SeshetBot.db b) ;;
  let init_mods := query_modules d e in
  if PyStr.mem (command e) ["PRIVMSG"; "CTCP_ACTION"; "NOTICE"] then
    let m_low := PyStr.lower (message e) in
    chan_nicks <-
      (if PyStr.startswith (target e) "#" then
         a <- unwrap KeyError
                (dget_raw (target e) (SeshetBot.channels b)) ;;
         c <- in_bot_store (deref a) ;;
         ret (Some (SeshetChannel.users c))
       else ret None) ;;
    let s := select b e chan_nicks init_mods in
    let argv := PyStr.split m_low in
    for_each (fin_mods s) (run_module argv (sel_event s)) ;;
    ret (sel_event s)
  else ret e.

Definition _run_only_core (e : Event) : M Bot Event := ret e.

(** [self.run_modules] as [__init__] binds it. *)
Definition self_run_modules (e : Event) : M Bot Event :=
  b <- this ;;
  match SeshetBot.db b with
  | None => _run_only_core e
  | Some _ => run_modules e
  end.

(** *** Roster queries and event handlers *)

Definition get_unique_users (chan : string) : M Bot (gset Identity) :=
  let chan := IRCstr chan in
  b <- this ;;
  a <- unwrap KeyError (dget chan (SeshetBot.channels b)) ;;
  these <- in_bot_store (deref a) ;;
  let these_users := SeshetChannel.users these in
  other_users <-
    fold_m (fun (other_users : gset Identity) (a : addr) =>
              c <- in_bot_store (deref a) ;;
              if negb (String.eqb (SeshetChannel.name c) chan)
              then ret (other_users ∪ SeshetChannel.users c)
              else ret other_users)
           (dvalues (SeshetBot.channels b)) ∅ ;;
  ret (these_users ∖ other_users).

Definition hostmask_of (e : Event) : string :=
  String.append (e_user e) (String.append "@" (e_host e)).

(** [on_message] tests and looks up the raw [e.target], where the other
    handlers wrap the target in [IRCstr] first. *)
Definition on_message (e : Event) : M Bot unit :=
  self_log "privmsg" (source e) (message e) (target e) "" "" ;;
  b <- this ;;
  (if dmem_raw (target e) (SeshetBot.channels b) then
     a <- unwrap KeyError
            (dget_raw (target e) (SeshetBot.channels b)) ;;
     time <- utcnow ;;
     in_bot_store
       (mutate a (SeshetChannel.log_message
                    time (AStr (source e)) (message e)))
   else ret tt) ;;
  self_run_modules e ;;
  ret tt.

Definition on_join (e : Event) : M Bot unit :=
  self_log "join" (source e) "" (target e) (hostmask_of e) "" ;;
  let chan := IRCstr (target e) in
  let nick := IRCstr (source e) in
  b <- this ;;
  (if negb (PyStr.eqb (source e) (SeshetBot.nickname b)) then
     (if negb (dmem nick (SeshetBot.users b)) then
        modify (SeshetBot.set_users
                  (dset nick (SeshetUser.init nick (e_user e) (e_host e))))
      else ret tt) ;;
     b <- this ;;
     unwrap KeyError (dget nick (SeshetBot.users b)) ;;
     channel <- unwrap KeyError (dget chan (SeshetBot.channels b)) ;;
     call_user nick (join channel)
   else ret tt) ;;
  self_run_modules e ;;
  ret tt.

(** [for u in self.users.values()] of [on_part] and [on_kick], over the
    keys the dict has when the loop starts.  A [del] changes the dict's
    size, and the iterator's next step, which comes even after the last
    value, raises [RuntimeError]. *)
Fixpoint prune (keys : list Identity) (channel : addr) : M Bot unit :=
  match keys with
  | [] => ret tt
  | k :: rest =>
      call_user k
        (u <- self ;;
         if list_mem channel (SeshetUser.channels u)
         then channels_remove channel else ret tt) ;;
      b <- this ;;
      u <- unwrap KeyError (dget k (SeshetBot.users b)) ;;
      if length (SeshetUser.channels u) =? 0 then
        (if dmem (SeshetUser.nick u) (SeshetBot.users b)
         then modify (SeshetBot.set_users (ddel (SeshetUser.nick u)))
         else raise KeyError) ;;
        raise RuntimeError
      else prune rest channel
  end.

(** The part that [on_part] and [on_kick] share, after the log call. *)
Definition leave (e : Event) : M Bot unit :=
  let chan := IRCstr (target e) in
  let nick := IRCstr (source e) in
  b <- this ;;
  channel <- unwrap KeyError (dget chan (SeshetBot.channels b)) ;;
  unwrap KeyError (dget nick (SeshetBot.users b)) ;;
  call_user nick (part channel) ;;
  if String.eqb nick (IRCstr (SeshetBot.nickname b)) then
    b <- this ;;
    prune (dkeys (SeshetBot.users b)) channel
  else ret tt.

Definition on_part (e : Event) : M Bot unit :=
  self_log "part" (source e) (PyStr.join " " (tail (params e))) (target e)
           (hostmask_of e) "" ;;
  leave e.

Definition on_quit (e : Event) : M Bot unit :=
  let nick := IRCstr (source e) in
  b <- this ;;
  for_each (dvalues (SeshetBot.channels b))
           (fun a =>
              chan <- in_bot_store (deref a) ;;
              if bool_decide (nick ∈ SeshetChannel.users chan)
              then self_log "quit" (source e) (PyStr.join " " (params e))
                            (SeshetChannel.name chan) (hostmask_of e) ""
              else ret tt) ;;
  call_user nick quit ;;
  modify (SeshetBot.set_users (ddel nick)).

Definition on_disconnect (e : Event) : M Bot unit := ret tt.

Definition on_kick (e : Event) : M Bot unit :=
  params0 <- unwrap IndexError (head (params e)) ;;
  self_log "kick" (source e) (PyStr.join " " (tail (params e))) (target e)
           (hostmask_of e) params0 ;;
  leave e.

(** [SeshetChannel] has no attribute [user_list]: the test of the first
    turn of the loop over the channels raises [AttributeError]. *)
Definition on_nick_change (e : Event) : M Bot unit :=
  let new_nick := IRCstr (target e) in
  let old_nick := IRCstr (source e) in
  b <- this ;;
  for_each (dvalues (SeshetBot.channels b))
           (fun _ => raise AttributeError) ;;
  call_user old_nick (change_nick new_nick) ;;
  b <- this ;;
  u <- unwrap KeyError (dget old_nick (SeshetBot.users b)) ;;
  modify (SeshetBot.set_users (dset new_nick u)) ;;
  b <- this ;;
  if dmem old_nick (SeshetBot.users b)
  then modify (SeshetBot.set_users (ddel old_nick))
  else raise KeyError.

Definition on_ctcp_action (e : Event) : M Bot unit :=
  self_log "action" (source e) (PyStr.join " " (params e)) (target e) "" "".

Definition on_welcome (e : Event) : M Bot unit := ret tt.

Definition on_mode (e : Event) : M Bot unit :=
  self_log "mode" (source e) (PyStr.join " " (params e)) (target e) "" "".

(** The handler of [name_reply] events. *)
Definition _add_channel_names (e : Event) : M Bot unit :=
  let chan := IRCstr (channel e) in
  let names : gset Identity := list_to_set (map IRCstr (name_list e)) in
  a <- in_bot_store (alloc (SeshetChannel.init chan names 100)) ;;
  modify (SeshetBot.set_channels (dset chan a)).

End Bot.

(** ** Activity cache *)

Definition entry_of (x : Time * Author * string) : SeshetChannel.Entry :=
  let '(t, u, m) := x in
  (t, match u with
      | AUser u => SeshetUser.nick u
      | AIdentity i => i
      | AStr s => IRCstr s
      end, m).

Definition log_many (xs : list (Time * Author * string)) (c : SeshetChannel.t)
  : SeshetChannel.t :=
  fold_left (fun c '(t, u, m) => SeshetChannel.log_message t u m c) xs c.

(** ** Event sequences and the membership invariant *)

Inductive RosterEvent : Type :=
| JOIN (e : Event)
| PART (e : Event)
| KICK (e : Event)
| QUIT (e : Event)
| NICK (e : Event).

(** A sample platform for running the model. *)
Definition strftime0 (fmt : string) (t : Time) : string := fmt.
Definition expanduser0 (path : string) : string := path.

(** [posixpath.dirname]: what stands before the last slash, without the
    slashes at its end unless it is made of slashes only. *)
Fixpoint drop_while {A} (f : A -> bool) (l : list A) : list A :=
  match l with
  | [] => []
  | x :: r => if f x then drop_while f r else l
  end.

Definition is_slash (c : ascii) : bool := Ascii.eqb c "/"%char.

Definition dirname0 (path : string) : string :=
  let head_rev := drop_while (fun c => negb (is_slash c))
                             (rev (list_ascii_of_string path)) in
  let stripped := drop_while is_slash head_rev in
  string_of_list_ascii
    (rev (match stripped with [] => head_rev | _ => stripped end)).

Section Runs.
Variable strftime : string -> Time -> string.
Variable expanduser : string -> string.
Variable dirname : string -> string.

Definition handle (ev : RosterEvent) : M Bot unit :=
  match ev with
  | JOIN e => on_join strftime expanduser dirname e
  | PART e => on_part strftime expanduser dirname e
  | KICK e => on_kick strftime expanduser dirname e
  | QUIT e => on_quit strftime expanduser dirname e
  | NICK e => on_nick_change e
  end.

(** The states after each event of a sequence; a handler that raises
    leaves the state it had reached. *)
Fixpoint trace (evs : list RosterEvent) (b : Bot) : list Bot :=
  match evs with
  | [] => []
  | ev :: r => let b' := exec (handle ev) b in b' :: trace r b'
  end.
End Runs.

(** [c] is in [u.channels] if and only if [c.users] contains [u.nick], for
    every user and every channel of the roster. *)
Definition membership_invariant (b : Bot) : Prop :=
  forall k u ck a c,
    dget k (SeshetBot.users b) = Some u ->
    dget ck (SeshetBot.channels b) = Some a ->
    SeshetBot.store b !! a = Some c ->
    list_mem a (SeshetUser.channels u) = true
    <-> SeshetUser.nick u ∈ SeshetChannel.users c.

Definition fresh_roster (b : Bot) : Prop :=
  SeshetBot.channels b = [] /\ SeshetBot.users b = [].

(** ** Frame reasoning

    [keeps R c]: the state [c] leaves behind, whether it returns or raises,
    is related to the state it started in. *)
Definition keeps {S A} (R : S -> S -> Prop) (c : M S A) : Prop :=
  forall s, R s (exec c s).

(** Two states agree on a component. *)
Definition same {S X} (f : S -> X) : S -> S -> Prop := fun s s' => f s' = f s.

(** The roster as far as the dicts and the channel objects go. *)
Definition roster (b : Bot) : dict addr * dict SeshetUser.t * Store :=
  (SeshetBot.channels b, SeshetBot.users b, SeshetBot.store b).

(** ** Sample bots and events *)

(** A bot that logs to files: one template for [privmsg], a log file per
    target, a locale with the four formats. *)
Definition file_bot : Bot :=
  SeshetBot.mk "Bot" "bot" "Bot" "<SeshetBot>"
    [Lit "logs/"; Field "target"; Lit ".log"]
    [("privmsg",
      [Lit "<"; Field "source"; Lit "> to "; Field "target"; Lit ": ";
       Field "msg"])]
    [("date_fmt", "%d"); ("time_fmt", "%H"); ("short_datetime_fmt", "%s");
     ("long_datetime_fmt", "%l")]
    [] [] None [] 7 [] [] [].

(** The same with the log file that [__init__] sets. *)
Definition seshet_log_bot : Bot :=
  SeshetBot.mk "Bot" "bot" "Bot" "<SeshetBot>"
    [Lit "seshet.log"]
    (SeshetBot.log_formats file_bot) (SeshetBot.locale file_bot)
    [] [] None [] 7 [] [] [].

(** ** Address prefixes *)

(** Every character of [s] is one of [chars]. *)
Fixpoint all_in (chars s : string) : bool :=
  match s with
  | EmptyString => true
  | String c r => PyStr.mem_char c chars && all_in chars r
  end.

(** [s] does not begin with one of [chars]. *)
Definition starts_clean (chars s : string) : bool :=
  match s with
  | EmptyString => true
  | String c _ => negb (PyStr.mem_char c chars)
  end.

(** Two modules that listen to the bot's nickname, and the channel message
    of the address-gate scenario. *)
Definition hello_mod (name : string) : ModuleRule :=
  mkModule name "" ["PRIVMSG"] true [] [] ["Seshet"] [] [] []
           (Some [("hello", String.append name ".hello")]).

Definition hello_event : Event :=
  mkEvent "PRIVMSG" "Al" "#chan" "Seshet: hello" "al" "host" [] "" [].

Definition seshet_bot : Bot :=
  SeshetBot.init "Seshet" "seshet" "Seshet Bot" "<SeshetBot>"
                 (Some (mkDB [] [hello_mod "m1"; hello_mod "m2"])) 0 [].

(** Events as the client decodes them. *)
Definition names_reply (chan : string) (nicks : list string) : Event :=
  mkEvent "353" "" "" "" "" "" [] chan nicks.

Definition join_event (nick chan : string) : Event :=
  mkEvent "JOIN" nick chan "" nick "host" [chan] "" [].

Definition part_event (nick chan : string) : Event :=
  mkEvent "PART" nick chan "" nick "host" [chan] "" [].

Definition kick_event (kicker chan kicked : string) : Event :=
  mkEvent "KICK" kicker chan "" kicker "host" [kicked; "bye"] "" [].

Definition nick_event (old new : string) : Event :=
  mkEvent "NICK" old new "" old "host" [] "" [].

Definition privmsg (nick tgt text : string) : Event :=
  mkEvent "PRIVMSG" nick tgt text nick "host" [] "" [].

(** The end-to-end scenario: the bot [Bot] in [#test] with [A] and [B], a
    module scoped to the nickname with command [ping] and empty prefix. *)
Definition ping_mod : ModuleRule :=
  mkModule "pinger" "" ["PRIVMSG"] true [] [] ["Bot"] [] [] []
           (Some [("ping", "pinger.ping")]).

Definition ping_bot : Bot :=
  exec (_add_channel_names (names_reply "#test" ["A"; "B"; "Bot"]))
       (SeshetBot.init "Bot" "bot" "Bot" "<SeshetBot>" (Some (mkDB [] [ping_mod])) 0 []).

(** Rosters for the part, kick and nick scenarios, built by the handlers. *)
Definition db_bot : Bot :=
  SeshetBot.init "Bot" "bot" "Bot" "<SeshetBot>" (Some (mkDB [] [])) 0 [].

Definition on_join0 := on_join strftime0 expanduser0 dirname0.
Definition on_part0 := on_part strftime0 expanduser0 dirname0.
Definition on_kick0 := on_kick strftime0 expanduser0 dirname0.
Definition on_quit0 := on_quit strftime0 expanduser0 dirname0.
Definition on_message0 := on_message strftime0 expanduser0 dirname0.

(** The bot and [A] in [#c]. *)
Definition roster_a : Bot :=
  exec (_add_channel_names (names_reply "#c" ["Bot"]) ;;
        on_join0 (join_event "A" "#c")) db_bot.

(** The same with an operator [Op]. *)
Definition roster_op : Bot :=
  exec (on_join0 (join_event "Op" "#c")) roster_a.

(** A roster in which the bot has a user object of its own: the join was
    reported as [bot], which is not the string [Bot]. *)
Definition roster_self : Bot :=
  exec (_add_channel_names (names_reply "#c" []) ;;
        on_join0 (join_event "bot" "#c") ;;
        on_join0 (join_event "A" "#c") ;;
        on_join0 (join_event "B" "#c")) db_bot.

(** What a roster shows: the keys of the user dict with each user's channel
    list, and the members of the channel object under a name. *)
Definition memberships (b : Bot) : list (string * list addr) :=
  map (fun '(k, u) => (k, SeshetUser.channels u)) (SeshetBot.users b).

Definition members (chan : string) (b : Bot) : option (list Identity) :=
  match dget (IRCstr chan) (SeshetBot.channels b) with
  | Some a => option_map (fun c => elements (SeshetChannel.users c))
                         (SeshetBot.store b !! a)
  | None => None
  end.

(** ** Channels by name *)

(** The channel object that the roster holds under a name. *)
Definition channel_at (chan : string) (b : Bot) : option SeshetChannel.t :=
  match dget (IRCstr chan) (SeshetBot.channels b) with
  | Some a => SeshetBot.store b !! a
  | None => None
  end.

(** From the spec, not from the code: "creates the Channel if absent, sets
    its initial user set from nickList.  Idempotent per channel name" --
    a reply for a name the roster has leaves that channel, with the message
    log it has gathered, as it is. *)
Definition names_reply_as_specified (handler : Event -> M Bot unit) : Prop :=
  (forall b e,
      channel_at (channel e) b = None ->
      exists c,
        channel_at (channel e) (exec (handler e) b) = Some c
        /\ SeshetChannel.users c = list_to_set (map IRCstr (name_list e)))
  /\ (forall b e c,
         channel_at (channel e) b = Some c ->
         channel_at (channel e) (exec (handler e) b) = Some c).

(** [A] has said ["hi"] in [#c]. *)
Definition chatty : Bot :=
  exec (_add_channel_names (names_reply "#c" ["A"; "Bot"]) ;;
        on_message0 (privmsg "A" "#c" "hi")) db_bot.

(** The same bot with the module [ping_mod], and the same roster for a bot
    that logs to files. *)
Definition chatty_ping : Bot :=
  exec (_add_channel_names (names_reply "#c" ["A"; "Bot"]) ;;
        on_message0 (privmsg "A" "#c" "hi"))
       (SeshetBot.init "Bot" "bot" "Bot" "<SeshetBot>"
                       (Some (mkDB [] [ping_mod])) 0 []).

Definition chatty_file : Bot :=
  exec (_add_channel_names (names_reply "#c" ["A"; "Bot"]) ;;
        on_message0 (privmsg "A" "#c" "hi")) file_bot.

(** Every key of the channel dict leads to a channel object of that name. *)
Definition channels_wf (b : Bot) : Prop :=
  NoDup (dkeys (SeshetBot.channels b))
  /\ forall k a,
       dget k (SeshetBot.channels b) = Some a ->
       exists c, SeshetBot.store b !! a = Some c /\ SeshetChannel.name c = k.

(** The names of the channel objects, by address, with the channel dict:
    what [channels_wf] speaks of. *)
Definition store_names (st : Store) : list Identity :=
  map SeshetChannel.name st.

Definition ctx_names (x : UserCtx) : list Identity := store_names (snd x).

Definition channel_names (b : Bot) : dict addr * list Identity :=
  (SeshetBot.channels b, store_names (SeshetBot.store b)).

(** Every event the bot handles. *)
Inductive AnyEvent : Type :=
| Roster (ev : RosterEvent)
| NAMES (e : Event)
| MESSAGE (e : Event)
| ACTION (e : Event)
| MODE (e : Event).

Section AnyRuns.
Variable strftime : string -> Time -> string.
Variable expanduser : string -> string.
Variable dirname : string -> string.

Definition handle_any (ev : AnyEvent) : M Bot unit :=
  match ev with
  | Roster ev => handle strftime expanduser dirname ev
  | NAMES e => _add_channel_names e
  | MESSAGE e => on_message strftime expanduser dirname e
  | ACTION e => on_ctcp_action strftime expanduser dirname e
  | MODE e => on_mode strftime expanduser dirname e
  end.

Definition run_any (evs : list AnyEvent) (b : Bot) : Bot :=
  fold_left (fun b ev => exec (handle_any ev) b) evs b.
End AnyRuns.

(** The bot in [#c] and [#d]. *)
Definition two_channels : Bot :=
  run_any strftime0 expanduser0 dirname0
          [NAMES (names_reply "#c" ["A"; "B"; "Bot"]);
           NAMES (names_reply "#d" ["B"])] db_bot.

(** ** Commands *)

(** The handler of the first declared command that, with the prefix, is the
    given token. *)
Definition first_match (prefix token : string) (cmds : dict Handler)
  : option Handler :=
  match find (fun '(cmd, _) => PyStr.eqb (String.append prefix cmd) token)
             cmds with
  | Some (_, h) => Some h
  | None => None
  end.

(** ** Consistent rosters *)

(** The roster as the user methods keep it: user objects sit under their
    nick, list each channel once, are members of the channels they list,
    and every member of a channel object has a user object that lists it. *)
Record consistent (b : Bot) : Prop := {
  cons_keys : NoDup (dkeys (SeshetBot.users b));
  cons_nick : forall k u,
    dget k (SeshetBot.users b) = Some u -> SeshetUser.nick u = k;
  cons_nodup : forall k u,
    dget k (SeshetBot.users b) = Some u -> NoDup (SeshetUser.channels u);
  cons_member : forall k u a,
    dget k (SeshetBot.users b) = Some u -> a ∈ SeshetUser.channels u ->
    exists c, SeshetBot.store b !! a = Some c /\ k ∈ SeshetChannel.users c;
  cons_listed : forall a c n,
    SeshetBot.store b !! a = Some c -> n ∈ SeshetChannel.users c ->
    exists u, dget n (SeshetBot.users b) = Some u
              /\ a ∈ SeshetUser.channels u;
  cons_none : SeshetBot.channels b = [] ->
    forall k u, dget k (SeshetBot.users b) = Some u ->
                SeshetUser.channels u = []
}.

(** Consistency is kept: from a consistent state to a consistent state. *)
Definition keeps_consistent (s s' : Bot) : Prop :=
  consistent s -> consistent s'.

(** PART and KICK events that do not come from the bot's own identity. *)
Definition not_by_bot (nickname : string) (ev : RosterEvent) : Prop :=
  match ev with
  | PART e | KICK e => IRCstr (source e) <> IRCstr nickname
  | _ => True
  end.

(** The bot in two channels of which no member is known, and a busy
    afternoon. *)
Definition empty_channels : Bot :=
  run_any strftime0 expanduser0 dirname0
          [NAMES (names_reply "#c" []); NAMES (names_reply "#d" [])] db_bot.


Definition busy_events : list RosterEvent :=
  [JOIN (join_event "A" "#c"); JOIN (join_event "B" "#c");
   JOIN (join_event "A" "#d"); PART (part_event "A" "#c");
   KICK (kick_event "B" "#d" "A");
   QUIT (mkEvent "QUIT" "A" "" "" "a" "host" ["bye"] "" [])].

(** * More of the bot: definitions *)

(** ** More sample objects *)

(** [al] in [#c] (address 0, with [bo]) and in [#d] (address 1). *)
Definition al_user : SeshetUser.t := SeshetUser.mk "al" "al" "host" [1; 0].

Definition chan_c : SeshetChannel.t := SeshetChannel.init "#c" {["al"; "bo"]} 100.
Definition chan_d : SeshetChannel.t := SeshetChannel.init "#d" {["al"]} 100.

Definition al_store : Store := [chan_c; chan_d].

(** The channel object of [ping_bot]. *)
Definition ping_chan : SeshetChannel.t :=
  SeshetChannel.init "#test" (list_to_set (map IRCstr ["A"; "B"; "Bot"])) 100.

(** ** The event log *)

(** From [b] to [b']: a bot without database has none afterwards; with a
    database the rows of the event log are still there, in their order, with
    new rows after them, and the module table is the same. *)
Definition log_grows (b b' : Bot) : Prop :=
  match SeshetBot.db b with
  | None => SeshetBot.db b' = None
  | Some d =>
      exists rows,
        SeshetBot.db b' = Some (mkDB (event_log d ++ rows) (modules d))
  end.

(** The commands for which [run_modules] looks at the modules. *)
Definition message_commands : list string :=
  ["PRIVMSG"; "CTCP_ACTION"; "NOTICE"].

(** From [b] to [b'], for a bot without database: it has none afterwards
    and no handler of a module was called. *)
Definition core_only (b b' : Bot) : Prop :=
  SeshetBot.db b = None ->
  SeshetBot.db b' = None /\ SeshetBot.calls b' = SeshetBot.calls b.

(** The event of a handler call. *)
Definition event_of (ev : AnyEvent) : Event :=
  match ev with
  | Roster (JOIN e) | Roster (PART e) | Roster (KICK e) | Roster (QUIT e)
  | Roster (NICK e) | NAMES e | MESSAGE e | ACTION e | MODE e => e
  end.

(** A module that listens to every command in every channel, and a bot that
    has it. *)
Definition eager_mod : ModuleRule :=
  mkModule "eager" "" ["JOIN"; "PART"; "QUIT"; "PRIVMSG"; "CTCP_ACTION"]
           true [] [] ["Bot"] [] ["#c"] [] (Some [("hi", "eager.run")]).

Definition eager_bot : Bot :=
  run_any strftime0 expanduser0 dirname0
          [NAMES (names_reply "#c" ["A"; "Bot"])]
          (SeshetBot.init "Bot" "bot" "Bot" "<SeshetBot>" (Some (mkDB [] [eager_mod])) 0 []).

(** The user objects and the channel object of [roster_a] and
    [roster_op]. *)
Definition user_a : SeshetUser.t := SeshetUser.mk "a" "A" "host" [0].
Definition user_op : SeshetUser.t := SeshetUser.mk "op" "Op" "host" [0].
Definition chan_a : SeshetChannel.t :=
  SeshetChannel.mk "#c" {["a"; "bot"]} [] 100.
Definition chan_op : SeshetChannel.t :=
  SeshetChannel.mk "#c" {["a"; "bot"; "op"]} [] 100.

(** The names of the channel objects of the roster, in the order of the
    channel dict, in whose set the identity is. *)
Definition channels_of (nick : Identity) (st : Store) (l : list addr)
  : list Identity :=
  omap (fun a => match st !! a with
                 | Some c => if bool_decide (nick ∈ SeshetChannel.users c)
                             then Some (SeshetChannel.name c) else None
                 | None => None
                 end) l.

(** [A] in [#c] and [#d], [B] in [#c]. *)
Definition quit_roster : Bot :=
  exec (on_join0 (join_event "A" "#c") ;;
        on_join0 (join_event "A" "#d") ;;
        on_join0 (join_event "B" "#c")) empty_channels.

(** ** Connecting

    [connect] takes any positional and keyword arguments: the values are
    Python objects of which the method only asks whether they are [None];
    [attrs] are the attributes of the bot by name, for
    [getattr(self, def_k, None)].  The method ends in the call of the
    client library's [SimpleClient.connect] with [defaults] as keyword
    arguments, which the result records. *)
Inductive PyVal : Type :=
| VNone
| VBool (b : bool)
| VInt (n : nat)
| VStr (s : string).

Inductive ConnectRes : Type :=
| SimpleClient_connect (defaults : dict PyVal)
| TypeError (msg : string)
| DefaultsKeyError.
(** [DefaultsKeyError]: [defaults[k]] for a key that the loop did not set. *)

Definition connect_keys : list string :=
  ["host"; "port"; "channel"; "use_ssl"; "password"].

(** One turn of the loop: the value for the [i]-th name [k]. *)
Definition connect_value (i : nat) (k : string) (args : list PyVal)
    (kwargs attrs : dict PyVal) : PyVal :=
  match args !! i with
  | Some v => v                           (* i < len(args): args[i] *)
  | None =>
      match dget k kwargs with
      | Some v => v                       (* k in kwargs: kwargs[k] *)
      | None =>
          let def_k := String.append "default_" k in
          match dget def_k attrs with     (* getattr(self, def_k, None) *)
          | Some v => v
          | None => VNone
          end
      end
  end.

Fixpoint connect_loop (i : nat) (keys : list string) (args : list PyVal)
    (kwargs attrs defaults : dict PyVal) : dict PyVal :=
  match keys with
  | [] => defaults
  | k :: r =>
      connect_loop (S i) r args kwargs attrs
                   (dset k (connect_value i k args kwargs attrs) defaults)
  end.

Definition connect (args : list PyVal) (kwargs attrs : dict PyVal)
  : ConnectRes :=
  let defaults := connect_loop 0 connect_keys args kwargs attrs [] in
  match dget "use_ssl" defaults with
  | None => DefaultsKeyError
  | Some use_ssl =>
      let defaults :=
        match use_ssl with
        | VNone => dset "use_ssl" (VBool false) defaults
        | _ => defaults
        end in
      match dget "host" defaults with
      | None => DefaultsKeyError
      | Some VNone =>
          TypeError "missing 1 required positional argument: 'host'"
      | Some _ => SimpleClient_connect defaults
      end
  end.


(** One turn of the loop of the bot's own PART and KICK on a user:
    [if channel in u.channels: u.channels.remove(channel)]. *)
Definition without (channel : addr) (u : SeshetUser.t) : SeshetUser.t :=
  if list_mem channel (SeshetUser.channels u)
  then SeshetUser.set_channels
         (list_remove channel (SeshetUser.channels u)) u
  else u.

(** The formats that [_log_to_file] reads from the locale. *)
Definition locale_keys : list string :=
  ["date_fmt"; "time_fmt"; "short_datetime_fmt"; "long_datetime_fmt"].

(** ** Handler calls *)

(** From [b] to [b']: the handler calls that were recorded are still there,
    in their order, and each new one satisfies [P]. *)
Definition calls_grow (P : Handler * Event -> Prop) (b b' : Bot) : Prop :=
  exists new,
    SeshetBot.calls b' = SeshetBot.calls b ++ new /\ Forall P new.

(** The handler of the call belongs to a command of a module of the table
    that is enabled and lists the command among its event types. *)
Definition called_for (d : DB) (cmd_name : string)
    (call : Handler * Event) : Prop :=
  exists m cmds cmd,
    m ∈ modules d /\ enabled m = true
    /\ PyStr.mem cmd_name (event_types m) = true
    /\ commands m = Some cmds /\ (cmd, fst call) ∈ cmds.

(** A module table with a disabled module and one for another command. *)
Definition mixed_bot : Bot :=
  run_any strftime0 expanduser0 dirname0
          [NAMES (names_reply "#c" ["A"; "Bot"])]
          (SeshetBot.init "Bot" "bot" "Bot" "<SeshetBot>"
             (Some (mkDB []
                      [mkModule "off" "" ["PRIVMSG"] false [] [] [] []
                                ["#c"] [] (Some [("hi", "off.hi")]);
                       mkModule "joins" "" ["JOIN"] true [] [] [] []
                                ["#c"] [] (Some [("hi", "joins.hi")]);
                       eager_mod]))
             0 []).

(** * Properties *)

(** ** Running the model *)

Example lower_ex : PyStr.lower "Bot: Ping" = "bot: ping".
Proof. reflexivity. Qed.

Example split_ex : PyStr.split "  bot:  ping " = ["bot:"; "ping"].
Proof. reflexivity. Qed.

Example lstrip_ex : PyStr.lstrip ",: " ": , hello, you" = "hello, you".
Proof. reflexivity. Qed.

Example IRCstr_ex : IRCstr "#Foo[a]~" = IRCstr "#foo{A}^".
Proof. reflexivity. Qed.

Example user_ex :
  exec (join 0 ;; join 1 ;; join 0 ;; part 1 ;; change_nick "Bob")
       (SeshetUser.init "Al" "al" "h",
        [SeshetChannel.init "#c" ∅ 100; SeshetChannel.init "#d" ∅ 100])
  = (SeshetUser.mk "bob" "al" "h" [0],
     [SeshetChannel.init "#c" {["bob"]} 100; SeshetChannel.init "#d" ∅ 100]).
Proof. vm_compute. reflexivity. Qed.

Lemma evict_drop (size : nat) (log : list SeshetChannel.Entry) :
  SeshetChannel.evict size log = drop (length log - size) log.
Proof.
  induction log as [|x r IH]; [reflexivity|].
  cbn [SeshetChannel.evict].
  destruct (Nat.ltb_spec size (length (x :: r))) as [Hlt|Hge]; cbn [length] in *.
  - rewrite IH. replace (S (length r) - size) with (S (length r - size)) by lia.
    reflexivity.
  - replace (S (length r) - size) with 0 by lia. reflexivity.
Qed.

Lemma log_message_log (t : Time) (u : Author) (m : string) (c : SeshetChannel.t) :
  SeshetChannel.message_log (SeshetChannel.log_message t u m c)
  = drop (S (length (SeshetChannel.message_log c)) - SeshetChannel._log_size c)
         (SeshetChannel.message_log c ++ [entry_of (t, u, m)]).
Proof.
  unfold SeshetChannel.log_message. cbn [SeshetChannel.message_log SeshetChannel.set_message_log].
  rewrite evict_drop, length_app. cbn [length entry_of].
  replace (length (SeshetChannel.message_log c) + 1) with (S (length (SeshetChannel.message_log c))) by lia.
  destruct u; reflexivity.
Qed.

Lemma log_message_size (t : Time) (u : Author) (m : string) (c : SeshetChannel.t) :
  SeshetChannel._log_size (SeshetChannel.log_message t u m c) = SeshetChannel._log_size c.
Proof. reflexivity. Qed.

Lemma log_many_size xs c :
  SeshetChannel._log_size (log_many xs c) = SeshetChannel._log_size c.
Proof.
  revert c. induction xs as [|[[t u] m] xs IH]; intros c; [reflexivity|].
  cbn [log_many fold_left]. fold (log_many xs). rewrite IH. reflexivity.
Qed.

Lemma log_many_log xs c :
  length (SeshetChannel.message_log c) <= SeshetChannel._log_size c ->
  SeshetChannel.message_log (log_many xs c)
  = drop (length (SeshetChannel.message_log c) + length xs - SeshetChannel._log_size c)
         (SeshetChannel.message_log c ++ map entry_of xs).
Proof.
  revert c. induction xs as [|[[t u] m] xs IH]; intros c Hc.
  - cbn [log_many fold_left map length]. rewrite app_nil_r.
    replace (length (SeshetChannel.message_log c) + 0 - SeshetChannel._log_size c) with 0 by lia.
    reflexivity.
  - cbn [log_many fold_left]. fold (log_many xs).
    rewrite IH.
    + rewrite log_message_size, log_message_log. rewrite length_drop, length_app.
      cbn [length map].
      set (l := SeshetChannel.message_log c) in *.
      set (N := SeshetChannel._log_size c) in *.
      set (e := entry_of (t, u, m)).
      replace (l ++ e :: map entry_of xs) with ((l ++ [e]) ++ map entry_of xs)
        by (rewrite <- app_assoc; reflexivity).
      destruct (decide (length l < N)) as [Hlt|Hge].
      * replace (S (length l) - N) with 0 by lia. rewrite !drop_0.
        f_equal. lia.
      * assert (length l = N) by lia.
        replace (S (length l) - N) with 1 by lia.
        rewrite <- (drop_app_le _ _ 1) by (rewrite length_app; cbn; lia).
        rewrite drop_drop. f_equal. lia.
    + rewrite log_message_size, log_message_log, length_drop, length_app.
      cbn [length]. lia.
Qed.

(** ** Frame rules *)

Section Keeps.
Context {S : Type} (R : S -> S -> Prop) `{!PreOrder R}.

Lemma keeps_ret {A} (a : A) : keeps R (ret a).
Proof. intros s. reflexivity. Qed.

Lemma keeps_raise {A} (x : Exn) : keeps R (@raise S A x).
Proof. intros s. reflexivity. Qed.

Lemma keeps_gets {A} (f : S -> A) : keeps R (gets f).
Proof. intros s. reflexivity. Qed.

Lemma keeps_unwrap {A} (x : Exn) (o : option A) : keeps R (unwrap x o).
Proof. destruct o; [apply keeps_ret | apply keeps_raise]. Qed.

Lemma keeps_modify (f : S -> S) : (forall s, R s (f s)) -> keeps R (modify f).
Proof. intros H s. apply H. Qed.

Lemma keeps_bind {A B} (c : M S A) (k : A -> M S B) :
  keeps R c -> (forall a, keeps R (k a)) -> keeps R (bind c k).
Proof.
  intros Hc Hk s. unfold exec, bind.
  specialize (Hc s). unfold exec in Hc.
  destruct (c s) as [[a|x] s']; cbn [snd] in *; [|exact Hc].
  etransitivity; [exact Hc|]. apply Hk.
Qed.

Lemma keeps_for_each {A} (l : list A) (body : A -> M S unit) :
  (forall x, keeps R (body x)) -> keeps R (for_each l body).
Proof.
  intros Hb. induction l as [|x r IH]; cbn [for_each].
  - apply keeps_ret.
  - apply keeps_bind; [apply Hb | intros _; exact IH].
Qed.

Lemma keeps_fold_m {A B} (body : B -> A -> M S B) (l : list A) (acc : B) :
  (forall b x, keeps R (body b x)) -> keeps R (fold_m body l acc).
Proof.
  intros Hb. revert acc. induction l as [|x r IH]; intros acc; cbn [fold_m].
  - apply keeps_ret.
  - apply keeps_bind; [apply Hb | intros acc'; apply IH].
Qed.

Lemma keeps_zoom {T A} (proj : S -> T) (inj : T -> S -> S) (c : M T A) :
  (forall t s, R s (inj t s)) -> keeps R (zoom proj inj c).
Proof.
  intros H s. unfold exec, zoom. destruct (c (proj s)) as [r t]. apply H.
Qed.
End Keeps.

#[export] Instance same_preorder {S X} (f : S -> X) : PreOrder (same f).
Proof.
  split; [intros s; reflexivity|].
  intros a b c Hab Hbc. unfold same in *. congruence.
Qed.

Create HintDb keeps discriminated.

Ltac keeps_step :=
  first
    [ solve [auto 3 with keeps nocore]
    | apply keeps_ret; apply _
    | apply keeps_raise; apply _
    | apply keeps_gets; apply _
    | apply keeps_unwrap; apply _
    | apply keeps_bind; [apply _ | | intros]
    | apply keeps_for_each; [apply _ | intros]
    | apply keeps_fold_m; [apply _ | intros]
    | apply keeps_modify; intros; reflexivity
    | apply keeps_zoom; intros; reflexivity
    | match goal with
      | |- keeps _ (if ?c then _ else _) => destruct c
      | |- keeps _ (match ?x with _ => _ end) => destruct x
      end ].

Ltac keeps_auto := repeat keeps_step.

Section BotFrames.
Variable strftime : string -> Time -> string.
Variable expanduser : string -> string.
Variable dirname : string -> string.

Lemma utcnow_keeps_roster : keeps (same roster) utcnow.
Proof. intros b. reflexivity. Qed.

Lemma self_log_keeps_roster etype source msg target hostmask params :
  keeps (same roster)
        (self_log strftime expanduser dirname etype source msg target
                  hostmask params).
Proof.
  unfold self_log, log, _log_to_file, makedirs, this.
  keeps_auto; try apply utcnow_keeps_roster.
Qed.

Lemma scan_commands_keeps_roster prefix argv cmds e :
  keeps (same roster) (scan_commands prefix argv cmds e).
Proof.
  induction cmds as [|[cmd f] r IH]; cbn [scan_commands]; keeps_auto.
Qed.

Lemma in_bot_store_deref_keeps a : keeps (same roster) (in_bot_store (deref a)).
Proof.
  intros b. unfold exec, in_bot_store, zoom, deref.
  destruct (SeshetBot.store b !! a); destruct b; reflexivity.
Qed.

Lemma self_run_modules_keeps_roster e :
  keeps (same roster) (self_run_modules e).
Proof.
  unfold self_run_modules, run_modules, _run_only_core, run_module, this.
  keeps_auto;
    try apply in_bot_store_deref_keeps; try apply scan_commands_keeps_roster.
Qed.
End BotFrames.

#[export] Hint Resolve utcnow_keeps_roster self_log_keeps_roster
  scan_commands_keeps_roster in_bot_store_deref_keeps
  self_run_modules_keeps_roster : keeps.

(** C5: after any [log_message] call the log holds at most [_log_size]
    entries, and after [N + k] calls on a channel with cap [N] and an empty
    log it holds exactly the last [N] entries in the order of the calls: the
    oldest [k] are gone, oldest first. *)
Theorem C5_message_log_bounded_fifo :
  (forall t u m c,
      length (SeshetChannel.message_log (SeshetChannel.log_message t u m c))
      <= SeshetChannel._log_size c)
  /\ (forall N k xs c,
         SeshetChannel._log_size c = N ->
         SeshetChannel.message_log c = [] ->
         length xs = N + k ->
         SeshetChannel.message_log (log_many xs c) = drop k (map entry_of xs)
         /\ length (SeshetChannel.message_log (log_many xs c)) = N).
Proof.
  split.
  - intros t u m c. rewrite log_message_log, length_drop, length_app.
    cbn [length]. lia.
  - intros N k xs c HN Hlog Hlen.
    assert (Hdrop : SeshetChannel.message_log (log_many xs c)
                    = drop k (map entry_of xs)).
    { rewrite log_many_log by (rewrite Hlog; cbn; lia).
      rewrite Hlog, HN, Hlen. cbn [length app]. f_equal. lia. }
    split; [exact Hdrop|].
    rewrite Hdrop, length_drop, length_map. lia.
Qed.

Lemma C5_message_log_bounded_fifo_witness :
  let c := SeshetChannel.init "#c" ∅ 2 in
  let xs := [(10, AStr "Al", "one"); (11, AIdentity "bo", "two");
             (12, AStr "AL", "three")] in
  SeshetChannel.message_log (log_many xs c)
  = [(11, "bo", "two"); (12, "al", "three")]
  /\ length (SeshetChannel.message_log (log_many xs c)) = 2.
Proof.
  intros c xs.
  exact (proj2 C5_message_log_bounded_fifo 2 1 xs c
               eq_refl eq_refl eq_refl).
Defined.

Section MessageFrame.
Variable strftime : string -> Time -> string.
Variable expanduser : string -> string.
Variable dirname : string -> string.

Lemma utcnow_keeps_db : keeps (same SeshetBot.db) utcnow.
Proof. intros b. reflexivity. Qed.

Lemma scan_commands_keeps_db prefix argv cmds e :
  keeps (same SeshetBot.db) (scan_commands prefix argv cmds e).
Proof.
  induction cmds as [|[cmd f] r IH]; cbn [scan_commands]; keeps_auto.
Qed.

Lemma in_bot_store_deref_keeps_db a :
  keeps (same SeshetBot.db) (in_bot_store (deref a)).
Proof.
  intros b. unfold exec, in_bot_store, zoom, deref.
  destruct (SeshetBot.store b !! a); destruct b; reflexivity.
Qed.

Lemma self_run_modules_keeps_db e :
  keeps (same SeshetBot.db) (self_run_modules e).
Proof.
  unfold self_run_modules, run_modules, _run_only_core, run_module, this.
  keeps_auto;
    try apply in_bot_store_deref_keeps_db;
    try apply scan_commands_keeps_db.
Qed.

(** What [self.log] does with a database: one more row, stamped with the
    clock. *)
Lemma self_log_db b d etype source msg target hostmask params :
  SeshetBot.db b = Some d ->
  self_log strftime expanduser dirname etype source msg target hostmask
           params b
  = (Ok tt,
     SeshetBot.set_db
       (Some (mkDB (event_log d
                    ++ [mkRow etype (SeshetBot.now b) source target msg
                              hostmask params])
                   (modules d)))
       (SeshetBot.set_now (S (SeshetBot.now b)) b)).
Proof.
  intros Hd. unfold self_log, log, this, bind, gets. rewrite Hd.
  cbn. rewrite Hd. reflexivity.
Qed.

End MessageFrame.


(** ** The file logger *)

Section FileLogger.
Variable strftime : string -> Time -> string.
Variable expanduser : string -> string.
Variable dirname : string -> string.

(** The call that writes: the locale has the four formats, the event kind
    has a template, both templates can be filled in and the file is in a
    directory with a name.  The line goes to the end of the file, the
    directory is made when it was not there, the clock has been read, and
    nothing else has changed. *)
Lemma log_to_file_writes
    (b : Bot) (etype source msg target hostmask params : string)
    (date_fmt time_fmt short_fmt long_fmt : string) (fmt : Template)
    (path line : string) :
  dget "date_fmt" (SeshetBot.locale b) = Some date_fmt ->
  dget "time_fmt" (SeshetBot.locale b) = Some time_fmt ->
  dget "short_datetime_fmt" (SeshetBot.locale b) = Some short_fmt ->
  dget "long_datetime_fmt" (SeshetBot.locale b) = Some long_fmt ->
  dget etype (SeshetBot.log_formats b) = Some fmt ->
  let today := SeshetBot.now b in
  let target' :=
    if PyStr.eqb target (SeshetBot.nickname b)
       && PyStr.mem etype ["privmsg"; "action"]
    then source else target in
  let locals :=
    [("self", SeshetBot.self_str b); ("etype", etype); ("source", source);
     ("msg", msg); ("target", target'); ("hostmask", hostmask);
     ("params", params); ("today", str_datetime strftime today);
     ("date", strftime date_fmt today); ("time", strftime time_fmt today);
     ("datetime_s", strftime short_fmt today);
     ("datetime_l", strftime long_fmt today)] in
  format (SeshetBot.log_file b) locals = Some path ->
  dirname (expanduser path) <> "" ->
  format fmt (locals ++ [("file_path", expanduser path);
                         ("file_dir", dirname (expanduser path))])
  = Some line ->
  _log_to_file strftime expanduser dirname etype source msg target hostmask
               params b
  = (Ok tt,
     SeshetBot.set_files
       (SeshetBot.files b ++ [(expanduser path, String.append line newline)])
       ((if isdir (dirname (expanduser path)) (SeshetBot.dirs b)
         then fun x => x
         else SeshetBot.set_dirs
                (SeshetBot.dirs b ++ [dirname (expanduser path)]))
          (SeshetBot.set_now (S (SeshetBot.now b)) b))).
Proof.
  intros Hd Ht Hs Hl Hfmt today target' locals Hpath Hdir Hline.
  unfold _log_to_file, bind, utcnow, this, gets.
  cbn [SeshetBot.locale SeshetBot.set_now SeshetBot.nickname
       SeshetBot.log_formats SeshetBot.log_file SeshetBot.dirs
       SeshetBot.self_str].
  rewrite Hd, Ht, Hs, Hl. cbn [unwrap ret].
  rewrite Hfmt. fold today. fold target'. fold locals.
  rewrite Hpath. cbn [unwrap ret].
  apply String.eqb_neq in Hdir.
  destruct (isdir (dirname (expanduser path)) (SeshetBot.dirs b));
    cbn [negb ret]; unfold makedirs; rewrite ?Hdir; cbn [modify ret];
    rewrite Hline; reflexivity.
Qed.

(** The call that cannot make its directory: as before, but the file is in
    no directory, as [seshet.log] is.  [os.makedirs('')] raises, and no line
    is written. *)
Lemma log_to_file_no_directory
    (b : Bot) (etype source msg target hostmask params : string)
    (date_fmt time_fmt short_fmt long_fmt : string) (fmt : Template)
    (path : string) :
  dget "date_fmt" (SeshetBot.locale b) = Some date_fmt ->
  dget "time_fmt" (SeshetBot.locale b) = Some time_fmt ->
  dget "short_datetime_fmt" (SeshetBot.locale b) = Some short_fmt ->
  dget "long_datetime_fmt" (SeshetBot.locale b) = Some long_fmt ->
  dget etype (SeshetBot.log_formats b) = Some fmt ->
  let today := SeshetBot.now b in
  let target' :=
    if PyStr.eqb target (SeshetBot.nickname b)
       && PyStr.mem etype ["privmsg"; "action"]
    then source else target in
  let locals :=
    [("self", SeshetBot.self_str b); ("etype", etype); ("source", source);
     ("msg", msg); ("target", target'); ("hostmask", hostmask);
     ("params", params); ("today", str_datetime strftime today);
     ("date", strftime date_fmt today); ("time", strftime time_fmt today);
     ("datetime_s", strftime short_fmt today);
     ("datetime_l", strftime long_fmt today)] in
  format (SeshetBot.log_file b) locals = Some path ->
  dirname (expanduser path) = "" ->
  _log_to_file strftime expanduser dirname etype source msg target hostmask
               params b
  = (Raise FileNotFoundError, SeshetBot.set_now (S (SeshetBot.now b)) b).
Proof.
  intros Hd Ht Hs Hl Hfmt today target' locals Hpath Hdir.
  unfold _log_to_file, bind, utcnow, this, gets.
  cbn [SeshetBot.locale SeshetBot.set_now SeshetBot.nickname
       SeshetBot.log_formats SeshetBot.log_file SeshetBot.dirs
       SeshetBot.self_str].
  rewrite Hd, Ht, Hs, Hl. cbn [unwrap ret].
  rewrite Hfmt. fold today. fold target'. fold locals.
  rewrite Hpath. cbn [unwrap ret]. rewrite Hdir.
  reflexivity.
Qed.

(** C9: under the file strategy a message-like event ([privmsg] or
    [action]) whose target is the bot's nickname is logged exactly as the
    same event with the sender as target, so a line that is written has the
    sender in its [target] field; the line is written when the locale has
    its formats, the templates can be filled in and the file is in a
    directory with a name.  An event kind without a format template leaves
    the files as they are: with the four formats of the locale in place the
    call returns normally, having read the clock and done nothing else.
    A log file in no directory, as the default [seshet.log] is, cannot be
    written to: making the directory raises [FileNotFoundError] and the
    files are as they were. *)
Theorem C9_file_log_direct_message_and_unconfigured_kind
    (b : Bot) (etype source msg target hostmask params : string) :
  (PyStr.mem etype ["privmsg"; "action"] = true ->
   _log_to_file strftime expanduser dirname etype source msg
                (SeshetBot.nickname b) hostmask params b
   = _log_to_file strftime expanduser dirname etype source msg
                  source hostmask params b)
  /\ (PyStr.mem etype ["privmsg"; "action"] = true ->
      forall date_fmt time_fmt short_fmt long_fmt fmt path line,
        dget "date_fmt" (SeshetBot.locale b) = Some date_fmt ->
        dget "time_fmt" (SeshetBot.locale b) = Some time_fmt ->
        dget "short_datetime_fmt" (SeshetBot.locale b) = Some short_fmt ->
        dget "long_datetime_fmt" (SeshetBot.locale b) = Some long_fmt ->
        dget etype (SeshetBot.log_formats b) = Some fmt ->
        let today := SeshetBot.now b in
        let locals :=
          [("self", SeshetBot.self_str b); ("etype", etype);
           ("source", source); ("msg", msg); ("target", source);
           ("hostmask", hostmask); ("params", params);
           ("today", str_datetime strftime today);
           ("date", strftime date_fmt today);
           ("time", strftime time_fmt today);
           ("datetime_s", strftime short_fmt today);
           ("datetime_l", strftime long_fmt today)] in
        format (SeshetBot.log_file b) locals = Some path ->
        format fmt (locals ++ [("file_path", expanduser path);
                               ("file_dir", dirname (expanduser path))])
        = Some line ->
        (dirname (expanduser path) <> "" ->
         outcome (_log_to_file strftime expanduser dirname etype source msg
                               (SeshetBot.nickname b) hostmask params) b
         = Ok tt
         /\ SeshetBot.files
              (exec (_log_to_file strftime expanduser dirname etype source
                                  msg (SeshetBot.nickname b) hostmask params)
                    b)
            = SeshetBot.files b
              ++ [(expanduser path, String.append line newline)])
        /\ (dirname (expanduser path) = "" ->
            _log_to_file strftime expanduser dirname etype source msg
                         (SeshetBot.nickname b) hostmask params b
            = (Raise FileNotFoundError,
               SeshetBot.set_now (S (SeshetBot.now b)) b)))
  /\ (dget etype (SeshetBot.log_formats b) = None ->
      SeshetBot.files
        (exec (_log_to_file strftime expanduser dirname etype source msg
                            target hostmask params) b)
      = SeshetBot.files b)
  /\ (dget etype (SeshetBot.log_formats b) = None ->
      forall date_fmt time_fmt short_fmt long_fmt,
        dget "date_fmt" (SeshetBot.locale b) = Some date_fmt ->
        dget "time_fmt" (SeshetBot.locale b) = Some time_fmt ->
        dget "short_datetime_fmt" (SeshetBot.locale b) = Some short_fmt ->
        dget "long_datetime_fmt" (SeshetBot.locale b) = Some long_fmt ->
        _log_to_file strftime expanduser dirname etype source msg target
                     hostmask params b
        = (Ok tt, SeshetBot.set_now (S (SeshetBot.now b)) b)).
Proof.
  split; [|split; [|split]].
  - intros Hkind. unfold _log_to_file, bind, utcnow, this, gets.
    cbn [SeshetBot.locale SeshetBot.set_now SeshetBot.nickname
         SeshetBot.log_formats SeshetBot.log_file SeshetBot.dirs].
    rewrite Hkind. unfold PyStr.eqb.
    rewrite bool_decide_eq_true_2 by reflexivity. cbn [andb].
    destruct (bool_decide (source = SeshetBot.nickname b)); reflexivity.
  - intros Hkind date_fmt time_fmt short_fmt long_fmt fmt path line
           Hd Ht Hs Hl Hfmt today locals Hpath Hline.
    assert (Htarget : (if PyStr.eqb (SeshetBot.nickname b)
                                    (SeshetBot.nickname b)
                          && PyStr.mem etype ["privmsg"; "action"]
                       then source else SeshetBot.nickname b) = source).
    { rewrite Hkind. unfold PyStr.eqb.
      rewrite bool_decide_eq_true_2 by reflexivity. reflexivity. }
    split.
    + intros Hdir. unfold exec, outcome.
      rewrite (log_to_file_writes b etype source msg (SeshetBot.nickname b)
                 hostmask params date_fmt time_fmt short_fmt long_fmt fmt
                 path line Hd Ht Hs Hl Hfmt);
        rewrite ?Htarget; try assumption.
      split; reflexivity.
    + intros Hdir.
      apply (log_to_file_no_directory b etype source msg
               (SeshetBot.nickname b) hostmask params date_fmt time_fmt
               short_fmt long_fmt fmt path Hd Ht Hs Hl Hfmt);
        rewrite ?Htarget; assumption.
  - intros Hnone. unfold exec, _log_to_file, bind, utcnow, this, gets.
    cbn [SeshetBot.locale SeshetBot.set_now SeshetBot.nickname
         SeshetBot.log_formats SeshetBot.log_file SeshetBot.dirs].
    repeat (match goal with
            | |- context [unwrap KeyError ?o] => destruct o; cbn [unwrap ret raise]
            end; [|reflexivity]).
    rewrite Hnone. reflexivity.
  - intros Hnone date_fmt time_fmt short_fmt long_fmt Hd Ht Hs Hl.
    unfold _log_to_file, bind, utcnow, this, gets.
    cbn [SeshetBot.locale SeshetBot.set_now SeshetBot.nickname
         SeshetBot.log_formats SeshetBot.log_file SeshetBot.dirs].
    rewrite Hd, Ht, Hs, Hl. cbn [unwrap ret]. rewrite Hnone. reflexivity.
Qed.
End FileLogger.

Lemma C9_file_log_direct_message_and_unconfigured_kind_witness :
  (outcome (_log_to_file strftime0 expanduser0 dirname0
                         "privmsg" "Al" "hi" "Bot" "" "") file_bot
   = Ok tt
   /\ SeshetBot.files
        (exec (_log_to_file strftime0 expanduser0 dirname0
                            "privmsg" "Al" "hi" "Bot" "" "") file_bot)
      = [("logs/Al.log", String.append "<Al> to Al: hi" newline)])
  /\ _log_to_file strftime0 expanduser0 dirname0
                  "privmsg" "Al" "hi" "Bot" "" "" seshet_log_bot
     = (Raise FileNotFoundError, SeshetBot.set_now 8 seshet_log_bot)
  /\ SeshetBot.files
       (exec (_log_to_file strftime0 expanduser0 dirname0
                           "mode" "Al" "+o" "#c" "" "") file_bot)
     = []
  /\ _log_to_file strftime0 expanduser0 dirname0
                  "mode" "Al" "+o" "#c" "" "" file_bot
     = (Ok tt, SeshetBot.set_now 8 file_bot).
Proof.
  destruct (C9_file_log_direct_message_and_unconfigured_kind
              strftime0 expanduser0 dirname0 file_bot
              "privmsg" "Al" "hi" "Bot" "" "") as (_ & H2 & _).
  destruct (C9_file_log_direct_message_and_unconfigured_kind
              strftime0 expanduser0 dirname0 seshet_log_bot
              "privmsg" "Al" "hi" "Bot" "" "") as (_ & H2' & _).
  destruct (C9_file_log_direct_message_and_unconfigured_kind
              strftime0 expanduser0 dirname0 file_bot
              "mode" "Al" "+o" "#c" "" "") as (_ & _ & H3 & H4).
  split; [|split; [|split]].
  - apply (H2 eq_refl "%d" "%H" "%s" "%l" _ "logs/Al.log" "<Al> to Al: hi"
              eq_refl eq_refl eq_refl eq_refl eq_refl eq_refl eq_refl).
    vm_compute. discriminate.
  - apply (H2' eq_refl "%d" "%H" "%s" "%l" _ "seshet.log" "<Al> to Al: hi"
               eq_refl eq_refl eq_refl eq_refl eq_refl eq_refl eq_refl).
    reflexivity.
  - exact (H3 eq_refl).
  - exact (H4 eq_refl "%d" "%H" "%s" "%l" eq_refl eq_refl eq_refl eq_refl).
Defined.


(** ** String facts *)

Lemma lower_app (a b : string) :
  PyStr.lower (a +:+ b) = PyStr.lower a +:+ PyStr.lower b.
Proof.
  induction a as [|c a IH]; simpl; [reflexivity | rewrite IH; reflexivity].
Qed.

Lemma lower_length (s : string) : String.length (PyStr.lower s) = String.length s.
Proof. induction s as [|c s IH]; cbn; [reflexivity | rewrite IH; reflexivity]. Qed.

Lemma startswith_app (a b : string) : PyStr.startswith (a +:+ b) a = true.
Proof.
  induction a as [|c a IH]; simpl; [destruct b; reflexivity|].
  rewrite Ascii.eqb_refl. exact IH.
Qed.

Lemma slice_from_app (a b : string) :
  PyStr.slice_from (String.length a) (a +:+ b) = b.
Proof. induction a as [|c a IH]; simpl; [reflexivity | exact IH]. Qed.

Lemma lstrip_app (chars seps rest : string) :
  all_in chars seps = true -> starts_clean chars rest = true ->
  PyStr.lstrip chars (seps +:+ rest) = rest.
Proof.
  intros Hs Hr. induction seps as [|c s IH]; simpl in *.
  - destruct rest as [|c r]; [reflexivity|]. simpl in *.
    destruct (PyStr.mem_char c chars); [discriminate | reflexivity].
  - apply andb_prop in Hs as [Hc Hs]. rewrite Hc. apply IH. exact Hs.
Qed.

(** An addressed message: a name, separators, the rest. *)
Lemma strip_name_app (n p seps rest : string) :
  String.length p = String.length n ->
  all_in ",: " seps = true -> starts_clean ",: " rest = true ->
  strip_name n (p +:+ seps +:+ rest) = rest.
Proof.
  intros Hlen Hs Hr. unfold strip_name. rewrite <- Hlen, slice_from_app.
  apply lstrip_app; assumption.
Qed.

(** ** The selection loop *)

Section Selection.
Variables (nickname m_low bot_n bot_u bot_r : string).
Variable chan_nicks : option (gset Identity).

Local Abbreviation step :=
  (select_one nickname m_low bot_n bot_u bot_r chan_nicks).

Ltac split_step :=
  unfold select_one, addressed, append_mod;
  repeat match goal with
         | |- context [if ?c then _ else _] => destruct c eqn:?
         | |- context [match ?o with Some _ => _ | None => _ end] =>
             destruct o eqn:?
         end;
  cbn [sel_event for_us fin_mods set_message message target source] in *.

Lemma select_one_target s m :
  target (sel_event (step s m)) = target (sel_event s).
Proof. split_step; reflexivity. Qed.

Lemma select_one_grows s m :
  exists l, fin_mods (step s m) = fin_mods s ++ l.
Proof.
  split_step;
    repeat rewrite <- app_assoc;
    first [ by (exists []; rewrite app_nil_r) | by eexists ].
Qed.

(** Once the message is marked as addressed, no turn rewrites it, and a
    module with the bot's nickname among its [enicks] is appended. *)
Lemma select_one_addressed s m :
  for_us s = true ->
  message (sel_event (step s m)) = message (sel_event s)
  /\ for_us (step s m) = true
  /\ (PyStr.mem nickname (enicks m) = true -> m ∈ fin_mods (step s m)).
Proof.
  intros Hs.
  assert (Hor : forall x, x || for_us s = false -> False)
    by (intros x; rewrite Hs, orb_true_r; discriminate).
  split; [|split]; [| |intros Hm]; split_step;
    try (exfalso; eapply Hor; eassumption);
    try congruence; try reflexivity;
    rewrite ?elem_of_app, ?list_elem_of_singleton; auto.
Qed.

Lemma select_one_skip s m :
  PyStr.mem nickname (enicks m) = false ->
  message (sel_event (step s m)) = message (sel_event s)
  /\ for_us (step s m) = for_us s.
Proof. intros Hm. split_step; split; congruence || reflexivity. Qed.

Lemma select_one_hit s m :
  PyStr.mem nickname (enicks m) = true ->
  for_us s = false ->
  PyStr.eqb (target (sel_event s)) nickname = false ->
  PyStr.startswith m_low bot_n = true ->
  message (sel_event (step s m)) = strip_name bot_n (message (sel_event s))
  /\ for_us (step s m) = true
  /\ m ∈ fin_mods (step s m).
Proof.
  intros Hm Hf Ht Hp.
  assert (Hor : PyStr.eqb (target (sel_event s)) nickname || for_us s = true
                -> False)
    by (rewrite Hf, Ht; discriminate).
  split; [|split]; split_step;
    try (exfalso; apply Hor; assumption);
    try congruence; try reflexivity;
    rewrite ?elem_of_app, ?list_elem_of_singleton; auto.
Qed.

Lemma fold_grows ms s :
  exists l, fin_mods (fold_left step ms s) = fin_mods s ++ l.
Proof.
  revert s. induction ms as [|m ms IH]; intros s; cbn [fold_left].
  - exists []. by rewrite app_nil_r.
  - destruct (IH (step s m)) as [l1 H1].
    destruct (select_one_grows s m) as [l2 H2].
    exists (l2 ++ l1). rewrite H1, H2, app_assoc. reflexivity.
Qed.

Lemma fold_keeps_member ms s m :
  m ∈ fin_mods s -> m ∈ fin_mods (fold_left step ms s).
Proof.
  intros H. destruct (fold_grows ms s) as [l ->].
  apply elem_of_app. by left.
Qed.

Lemma fold_addressed ms s :
  for_us s = true ->
  message (sel_event (fold_left step ms s)) = message (sel_event s)
  /\ for_us (fold_left step ms s) = true
  /\ (forall m, m ∈ ms -> PyStr.mem nickname (enicks m) = true ->
                m ∈ fin_mods (fold_left step ms s)).
Proof.
  revert s. induction ms as [|m ms IH]; intros s Hs; cbn [fold_left].
  - repeat split; auto. intros m Hm. by apply elem_of_nil in Hm.
  - destruct (select_one_addressed s m Hs) as (Hmsg & Hf & Hin).
    destruct (IH (step s m) Hf) as (Hmsg' & Hf' & Hin').
    repeat split; [congruence | exact Hf' |].
    intros m' Hm' He. apply elem_of_cons in Hm' as [->|Hm'].
    + apply fold_keeps_member. auto.
    + auto.
Qed.

Lemma fold_skip ms s :
  Forall (fun m => PyStr.mem nickname (enicks m) = false) ms ->
  message (sel_event (fold_left step ms s)) = message (sel_event s)
  /\ for_us (fold_left step ms s) = for_us s
  /\ target (sel_event (fold_left step ms s)) = target (sel_event s).
Proof.
  revert s. induction ms as [|m ms IH]; intros s Hall; cbn [fold_left].
  - auto.
  - apply Forall_cons in Hall as [Hm Hall].
    destruct (select_one_skip s m Hm) as [Hmsg Hf].
    destruct (IH (step s m) Hall) as (Hmsg' & Hf' & Ht').
    rewrite select_one_target in Ht'.
    repeat split; congruence.
Qed.
End Selection.

(** C3: in the address gate, the first module that has the bot's nickname
    among its [enicks], checked on a message that is not sent to the bot
    itself and reads name, separators, rest (the name being the bot's
    nickname up to case), is selected; the message becomes the rest; the
    message is marked as addressed; and every module checked later leaves
    the message as it is, a later module with the nickname among its [enicks]
    being selected through the already-addressed branch. *)
Theorem C3_address_gate_strips_once
    (b : Bot) (e : Event) (chan_nicks : option (gset Identity))
    (pre post : list ModuleRule) (mod_ : ModuleRule)
    (name seps rest : string) :
  target e <> SeshetBot.nickname b ->
  message e = name +:+ seps +:+ rest ->
  PyStr.lower name = PyStr.lower (SeshetBot.nickname b) ->
  all_in ",: " seps = true ->
  starts_clean ",: " rest = true ->
  Forall (fun m => PyStr.mem (SeshetBot.nickname b) (enicks m) = false) pre ->
  PyStr.mem (SeshetBot.nickname b) (enicks mod_) = true ->
  let s := select b e chan_nicks (pre ++ mod_ :: post) in
  message (sel_event s) = rest
  /\ for_us s = true
  /\ mod_ ∈ fin_mods s
  /\ message (sel_event s)
     = message (sel_event (select b e chan_nicks (pre ++ [mod_])))
  /\ (forall m, m ∈ post ->
                PyStr.mem (SeshetBot.nickname b) (enicks m) = true ->
                m ∈ fin_mods s).
Proof.
  intros Ht Hmsg Hname Hseps Hrest Hpre Hmod s.
  assert (Hlen : String.length name
                 = String.length (PyStr.lower (SeshetBot.nickname b))).
  { rewrite <- Hname, lower_length. reflexivity. }
  assert (Hstart : PyStr.startswith (PyStr.lower (message e))
                     (PyStr.lower (SeshetBot.nickname b)) = true).
  { rewrite Hmsg, lower_app, Hname. apply startswith_app. }
  assert (Hstrip : strip_name (PyStr.lower (SeshetBot.nickname b)) (message e)
                   = rest).
  { rewrite Hmsg. apply strip_name_app; assumption. }
  subst s. unfold select. rewrite !fold_left_app. cbn [fold_left].
  set (n := SeshetBot.nickname b) in *.
  set (m_low := PyStr.lower (message e)) in *.
  set (bot_n := PyStr.lower n) in *.
  set (bot_u := PyStr.lower (SeshetBot.user b)).
  set (bot_r := PyStr.lower (SeshetBot.real_name b)).
  set (step := select_one n m_low bot_n bot_u bot_r chan_nicks).
  set (s0 := mkSel e false []).
  destruct (fold_skip n m_low bot_n bot_u bot_r chan_nicks pre s0 Hpre)
    as (Hm1 & Hf1 & Ht1).
  fold step in Hm1, Hf1, Ht1. cbn [s0 sel_event for_us] in Hm1, Hf1, Ht1.
  destruct (select_one_hit n m_low bot_n bot_u bot_r chan_nicks
              (fold_left step pre s0) mod_ Hmod Hf1) as (Hm2 & Hf2 & Hin2).
  { rewrite Ht1. unfold PyStr.eqb. apply bool_decide_eq_false_2. exact Ht. }
  { exact Hstart. }
  fold step in Hm2, Hf2, Hin2.
  destruct (fold_addressed n m_low bot_n bot_u bot_r chan_nicks post _ Hf2)
    as (Hm3 & Hf3 & Hin3).
  fold step in Hm3, Hf3, Hin3.
  repeat split.
  - rewrite Hm3, Hm2, Hm1. exact Hstrip.
  - exact Hf3.
  - apply fold_keeps_member. exact Hin2.
  - exact Hm3.
  - exact Hin3.
Qed.

Lemma C3_address_gate_strips_once_witness :
  let s := select seshet_bot hello_event (Some {["al"; "seshet"]})
                  [hello_mod "m1"; hello_mod "m2"] in
  message (sel_event s) = "hello"
  /\ for_us s = true
  /\ hello_mod "m1" ∈ fin_mods s
  /\ message (sel_event s)
     = message (sel_event (select seshet_bot hello_event
                                  (Some {["al"; "seshet"]})
                                  [hello_mod "m1"]))
  /\ (forall m, m ∈ [hello_mod "m2"] ->
                PyStr.mem (SeshetBot.nickname seshet_bot) (enicks m) = true ->
                m ∈ fin_mods s).
Proof.
  refine (C3_address_gate_strips_once
            seshet_bot hello_event (Some {["al"; "seshet"]})
            [] [hello_mod "m2"] (hello_mod "m1") "Seshet" ": " "hello"
            _ eq_refl eq_refl eq_refl eq_refl (List.Forall_nil _) eq_refl).
  discriminate.
Defined.

(** The same scenario through [run_modules]: the event comes back with the
    message ["hello"]. *)
Example run_modules_hello :
  outcome (_add_channel_names
             (mkEvent "353" "" "" "" "" "" [] "#chan" ["Al"; "Seshet"]) ;;
           run_modules hello_event) seshet_bot
  = Ok (set_message "hello" hello_event).
Proof. vm_compute. reflexivity. Qed.

(** ** Module dispatch on an addressed command *)

(** The scan of one module's commands: the first match is called, and only
    that; without any token the comparison raises. *)
Lemma scan_commands_first_match prefix token argv cmds e (b : Bot) :
  scan_commands prefix (token :: argv) cmds e b
  = (Ok tt,
     match first_match prefix token cmds with
     | Some h => SeshetBot.set_calls (SeshetBot.calls b ++ [(h, e)]) b
     | None => b
     end).
Proof.
  unfold first_match.
  induction cmds as [|[cmd h] r IH]; cbn [scan_commands find]; [reflexivity|].
  unfold bind at 1. cbn [head unwrap ret].
  destruct (PyStr.eqb (String.append prefix cmd) token); [reflexivity|].
  exact IH.
Qed.

Lemma scan_commands_no_token prefix cmd h cmds e (b : Bot) :
  scan_commands prefix [] ((cmd, h) :: cmds) e b = (Raise IndexError, b).
Proof. reflexivity. Qed.

(** C2, at the end-to-end scenario of the spec: [A] says ["Bot: ping"] in
    [#test].  The module is selected, once, by the address gate, and the
    message is rewritten to ["ping"]; but the tokens come from the
    lower-cased message as it was before the rewrite, the first token is
    ["bot:"], and no handler is called.  The handler itself is in order:
    ["ping"] sent to the bot directly calls it once.  (The unaddressed
    ["ping"] in the channel calls nothing either: the module is scoped to
    the raw nick [Bot], which is no member of the channel's set.) *)
Theorem C2_addressed_ping_calls_no_handler :
  let e := privmsg "A" "#test" "Bot: ping" in
  let s := select ping_bot e (Some {["a"; "b"; "bot"]}) [ping_mod] in
  fin_mods s = [ping_mod]
  /\ message (sel_event s) = "ping"
  /\ PyStr.split (PyStr.lower (message e)) = ["bot:"; "ping"]
  /\ outcome (on_message0 e) ping_bot = Ok tt
  /\ SeshetBot.calls (exec (on_message0 e) ping_bot) = []
  /\ SeshetBot.calls (exec (on_message0 (privmsg "A" "Bot" "ping")) ping_bot)
     = [("pinger.ping", privmsg "A" "Bot" "ping")]
  /\ SeshetBot.calls (exec (on_message0 (privmsg "A" "#test" "ping")) ping_bot)
     = [].
Proof. vm_compute. repeat split; reflexivity. Qed.

(** ** Leaving a channel *)

(** C4, evaluated.  With the bot and [A] in [#c], the bot's own PART raises
    [KeyError] at [self.users[nick]], the bot having no user object
    ([on_join] skips its own joins), and [A] stays.  When the bot does have
    a user object, the loop deletes the first user left without channels,
    then raises [RuntimeError]; [A] and [B], whose only channel was [#c],
    stay and still list it.  A KICK of the bot by [Op] takes [Op], the
    source of the event, out of the channel and prunes nothing. *)
Theorem C4_self_part_does_not_prune :
  (outcome (on_part0 (part_event "Bot" "#c")) roster_a = Raise KeyError
   /\ memberships (exec (on_part0 (part_event "Bot" "#c")) roster_a)
      = [("a", [0])])
  /\ (memberships roster_self = [("bot", [0]); ("a", [0]); ("b", [0])]
      /\ outcome (on_part0 (part_event "bot" "#c")) roster_self
         = Raise RuntimeError
      /\ memberships (exec (on_part0 (part_event "bot" "#c")) roster_self)
         = [("a", [0]); ("b", [0])])
  /\ (memberships roster_op = [("a", [0]); ("op", [0])]
      /\ outcome (on_kick0 (kick_event "Op" "#c" "Bot")) roster_op = Ok tt
      /\ memberships (exec (on_kick0 (kick_event "Op" "#c" "Bot")) roster_op)
         = [("a", [0]); ("op", [])]
      /\ members "#c" (exec (on_kick0 (kick_event "Op" "#c" "Bot")) roster_op)
         = Some ["a"; "bot"]).
Proof. vm_compute. repeat split; reflexivity. Qed.

(** ** Nick changes *)

(** With a channel in the roster the handler stops at [chan.user_list]. *)
Lemma on_nick_change_raises (b : Bot) (e : Event) :
  SeshetBot.channels b <> [] ->
  on_nick_change e b = (Raise AttributeError, b).
Proof.
  intros Hne. unfold on_nick_change, this, bind, gets.
  destruct (SeshetBot.channels b) as [|[k a] r]; [congruence|].
  reflexivity.
Qed.

(** C7, evaluated: [A], a known user in [#c], changes nick to [Al].  The
    handler raises [AttributeError] and leaves the roster as it was: the user
    is still keyed [a], the channel still has [a] and not [al]. *)
Theorem C7_nick_change_raises_attribute_error :
  memberships roster_a = [("a", [0])]
  /\ on_nick_change (nick_event "A" "Al") roster_a
     = (Raise AttributeError, roster_a)
  /\ dget "al" (SeshetBot.users (exec (on_nick_change (nick_event "A" "Al"))
                                      roster_a)) = None
  /\ members "#c" (exec (on_nick_change (nick_event "A" "Al")) roster_a)
     = Some ["a"; "bot"].
Proof.
  split; [vm_compute; reflexivity|].
  assert (H : on_nick_change (nick_event "A" "Al") roster_a
              = (Raise AttributeError, roster_a))
    by (apply on_nick_change_raises; vm_compute; discriminate).
  unfold exec. rewrite H. cbn [snd].
  repeat split; vm_compute; reflexivity.
Qed.

(** Without any channel the loop is not entered and the entry is re-keyed;
    a change of case only, where both nicks are one identity, ends with the
    entry deleted. *)
Example nick_change_without_channels :
  let b := exec (on_join0 (join_event "A" "#c")) db_bot in
  memberships b = [("a", [])]
  /\ outcome (on_nick_change (nick_event "A" "Al")) b = Ok tt
  /\ memberships (exec (on_nick_change (nick_event "A" "Al")) b) = [("al", [])]
  /\ outcome (on_nick_change (nick_event "A" "a")) b = Ok tt
  /\ memberships (exec (on_nick_change (nick_event "A" "a")) b) = [].
Proof. vm_compute. repeat split; reflexivity. Qed.

(** ** Dicts *)

Section DictFacts.
Context {V : Type}.
Implicit Types (d : dict V) (k : string) (v : V).

Lemma dget_dset_eq d k v : dget k (dset k v d) = Some v.
Proof.
  induction d as [|[k' v'] r IH]; cbn [dset dget].
  - rewrite String.eqb_refl. reflexivity.
  - destruct (String.eqb_spec k' k) as [->|Hne]; cbn [dget].
    + rewrite String.eqb_refl. reflexivity.
    + destruct (String.eqb_spec k' k); [congruence | exact IH].
Qed.

Lemma dget_dset_ne d k k' v : k <> k' -> dget k' (dset k v d) = dget k' d.
Proof.
  intros Hne. induction d as [|[k0 v0] r IH]; cbn [dset dget].
  - destruct (String.eqb_spec k k'); [congruence | reflexivity].
  - destruct (String.eqb_spec k0 k) as [->|H0]; cbn [dget].
    + destruct (String.eqb_spec k k'); [congruence | reflexivity].
    + rewrite IH. reflexivity.
Qed.

Lemma dget_elem_of d k v : dget k d = Some v -> (k, v) ∈ d.
Proof.
  induction d as [|[k' v'] r IH]; cbn [dget]; [discriminate|].
  destruct (String.eqb_spec k' k) as [->|Hne].
  - intros [= ->]. apply elem_of_cons. by left.
  - intros H. apply elem_of_cons. right. auto.
Qed.

Lemma dget_None_keys d k : dget k d = None -> k ∉ dkeys d.
Proof.
  induction d as [|[k' v'] r IH]; cbn [dget dkeys map fst].
  - intros _. apply not_elem_of_nil.
  - destruct (String.eqb_spec k' k) as [->|Hne]; [discriminate|].
    intros H. apply not_elem_of_cons. split; [congruence | by apply IH].
Qed.

Lemma elem_of_dget d k v : NoDup (dkeys d) -> (k, v) ∈ d -> dget k d = Some v.
Proof.
  induction d as [|[k' v'] r IH]; cbn [dget dkeys map fst].
  - intros _ H. by apply elem_of_nil in H.
  - intros Hnd H. apply NoDup_cons in Hnd as [Hnotin Hnd].
    apply elem_of_cons in H as [[= -> ->]|H].
    + rewrite String.eqb_refl. reflexivity.
    + destruct (String.eqb_spec k' k) as [->|Hne]; [|by apply IH].
      exfalso. apply Hnotin. apply list_elem_of_fmap. by exists (k, v).
Qed.

Lemma dkeys_dset d k v :
  dkeys (dset k v d) = if dmem k d then dkeys d else dkeys d ++ [k].
Proof.
  unfold dmem. induction d as [|[k' v'] r IH]; cbn [dset dget dkeys map fst].
  - reflexivity.
  - destruct (String.eqb_spec k' k) as [->|Hne]; cbn [map fst]; [reflexivity|].
    fold (dkeys (dset k v r)). rewrite IH.
    destruct (dget k r); reflexivity.
Qed.

Lemma NoDup_dset d k v : NoDup (dkeys d) -> NoDup (dkeys (dset k v d)).
Proof.
  intros Hnd. rewrite dkeys_dset. unfold dmem.
  destruct (dget k d) eqn:Hk; [exact Hnd|].
  apply NoDup_app. repeat split; [exact Hnd | | apply NoDup_singleton].
  intros x Hx Hx'. apply list_elem_of_singleton in Hx' as ->.
  by apply dget_None_keys in Hk.
Qed.
End DictFacts.

Lemma irc_lower_char_idem (c : ascii) :
  irc_lower_char (irc_lower_char c) = irc_lower_char c.
Proof. destruct c as [[] [] [] [] [] [] [] []]; reflexivity. Qed.

Lemma IRCstr_idem (s : string) : IRCstr (IRCstr s) = IRCstr s.
Proof.
  induction s as [|c s IH]; cbn [IRCstr]; [reflexivity|].
  rewrite irc_lower_char_idem, IH. reflexivity.
Qed.

(** ** The names reply *)

Lemma add_channel_names_run (b : Bot) (e : Event) :
  _add_channel_names e b
  = (Ok tt,
     SeshetBot.set_channels
       (dset (IRCstr (channel e)) (length (SeshetBot.store b)))
       (SeshetBot.set_store
          (SeshetBot.store b
           ++ [SeshetChannel.init (IRCstr (channel e))
                 (list_to_set (map IRCstr (name_list e))) 100]) b)).
Proof. reflexivity. Qed.

(** Counterexample to C6 as stated: [#c] is in the roster with one logged
    message; after a names reply for [#c] the roster's [#c] has an empty
    log. *)
Lemma C6_names_reply_replaces_known_channel :
  option_map SeshetChannel.message_log (channel_at "#c" chatty)
  = Some [(1, "a", "hi")]
  /\ option_map SeshetChannel.message_log
       (channel_at "#c"
          (exec (_add_channel_names (names_reply "#c" ["A"; "Bot"])) chatty))
     = Some []
  /\ ~ names_reply_as_specified _add_channel_names.
Proof.
  split; [vm_compute; reflexivity|].
  split; [vm_compute; reflexivity|].
  intros [_ Hkeep].
  specialize (Hkeep chatty (names_reply "#c" ["A"; "Bot"])).
  assert (Hc : exists c, channel_at "#c" chatty = Some c
                         /\ SeshetChannel.message_log c = [(1, "a", "hi")]).
  { vm_compute. eexists. split; reflexivity. }
  destruct Hc as (c & Hc & Hlog).
  specialize (Hkeep c Hc).
  assert (Hnew : option_map SeshetChannel.message_log
            (channel_at "#c"
               (exec (_add_channel_names (names_reply "#c" ["A"; "Bot"]))
                     chatty)) = Some [])
    by (vm_compute; reflexivity).
  change (channel (names_reply "#c" ["A"; "Bot"])) with "#c" in Hkeep.
  rewrite Hkeep in Hnew. cbn [option_map] in Hnew. congruence.
Qed.

(** C6 as amended: the handler always returns, and puts under the name a
    channel object made from the reply: the nick list as user set, an empty
    message log, cap 100.  It is a new object: the objects of the store, the
    other names and the users are as before.  A second reply with the same
    content leaves under the name the same channel as the first. *)
Theorem C6_names_reply_installs_new_channel (b : Bot) (e : Event) :
  let b' := exec (_add_channel_names e) b in
  let c := SeshetChannel.mk (IRCstr (channel e))
             (list_to_set (map IRCstr (name_list e))) [] 100 in
  outcome (_add_channel_names e) b = Ok tt
  /\ channel_at (channel e) b' = Some c
  /\ dget (IRCstr (channel e)) (SeshetBot.channels b')
     = Some (length (SeshetBot.store b))
  /\ (forall a, a < length (SeshetBot.store b) ->
                SeshetBot.store b' !! a = SeshetBot.store b !! a)
  /\ (forall k, k <> IRCstr (channel e) ->
                dget k (SeshetBot.channels b') = dget k (SeshetBot.channels b))
  /\ SeshetBot.users b' = SeshetBot.users b
  /\ channel_at (channel e) (exec (_add_channel_names e) b') = Some c.
Proof.
  intros b' c.
  assert (Hat : forall b0, channel_at (channel e)
                             (exec (_add_channel_names e) b0) = Some c).
  { intros b0. unfold exec, channel_at. rewrite add_channel_names_run.
    cbn [snd SeshetBot.set_channels SeshetBot.set_store SeshetBot.channels
         SeshetBot.store].
    rewrite dget_dset_eq.
    rewrite lookup_app_r by lia. rewrite Nat.sub_diag.
    unfold SeshetChannel.init. rewrite IRCstr_idem. reflexivity. }
  subst b'. unfold exec, outcome. rewrite add_channel_names_run.
  cbn [fst snd SeshetBot.set_channels SeshetBot.set_store SeshetBot.channels
       SeshetBot.store SeshetBot.users].
  repeat split.
  - apply (Hat b).
  - apply dget_dset_eq.
  - intros a Ha. apply lookup_app_l. exact Ha.
  - intros k Hk. apply dget_dset_ne. congruence.
  - apply (Hat (snd (_add_channel_names e b))).
Qed.

(** ** Users unique to a channel *)

Lemma in_bot_store_deref (b : Bot) (a : addr) (c : SeshetChannel.t) :
  SeshetBot.store b !! a = Some c -> in_bot_store (deref a) b = (Ok c, b).
Proof.
  intros H. unfold in_bot_store, zoom, deref. rewrite H.
  destruct b; reflexivity.
Qed.

Lemma other_users_fold (b : Bot) (chan : Identity)
    (l : list (string * addr)) (acc : gset Identity) :
  (forall k a, (k, a) ∈ l ->
     exists c, SeshetBot.store b !! a = Some c /\ SeshetChannel.name c = k) ->
  exists s,
    fold_m (fun (other_users : gset Identity) (a : addr) =>
              c <- in_bot_store (deref a) ;;
              if negb (String.eqb (SeshetChannel.name c) chan)
              then ret (other_users ∪ SeshetChannel.users c)
              else ret other_users)
           (dvalues l) acc b
    = (Ok s, b)
    /\ forall x,
         x ∈ s <->
         x ∈ acc
         \/ exists k a c, (k, a) ∈ l /\ SeshetBot.store b !! a = Some c
                          /\ k <> chan /\ x ∈ SeshetChannel.users c.
Proof.
  revert acc. induction l as [|[k a] r IH]; intros acc Hwf.
  - exists acc. split; [reflexivity|]. intros x. split; [auto|].
    intros [H|(k & a & c & H & _)]; [exact H | by apply elem_of_nil in H].
  - destruct (Hwf k a) as (c & Hc & Hname); [apply elem_of_cons; by left|].
    cbn [dvalues map snd fold_m]. unfold bind at 1. unfold bind at 1.
    rewrite (in_bot_store_deref b a c Hc). rewrite Hname.
    assert (Hr : forall k0 a0, (k0, a0) ∈ r ->
              exists c0, SeshetBot.store b !! a0 = Some c0
                         /\ SeshetChannel.name c0 = k0)
      by (intros k0 a0 H0; apply Hwf; apply elem_of_cons; by right).
    destruct (String.eqb_spec k chan) as [Heq|Hne]; cbn [negb ret].
    + destruct (IH acc Hr) as (s & Hs & Hx). exists s. split; [exact Hs|].
      intros x. rewrite Hx. split.
      * intros [H|(k0 & a0 & c0 & Hin & H0)]; [by left|].
        right. exists k0, a0, c0. split; [apply elem_of_cons; by right|exact H0].
      * intros [H|(k0 & a0 & c0 & Hin & Hst & Hk0 & Hxc)]; [by left|].
        apply elem_of_cons in Hin as [[= -> ->]|Hin]; [congruence|].
        right. by exists k0, a0, c0.
    + destruct (IH (acc ∪ SeshetChannel.users c) Hr) as (s & Hs & Hx).
      exists s. split; [exact Hs|].
      intros x. rewrite Hx, elem_of_union. split.
      * intros [[H|H]|(k0 & a0 & c0 & Hin & H0)].
        -- by left.
        -- right. exists k, a, c. split; [apply elem_of_cons; by left|auto].
        -- right. exists k0, a0, c0.
           split; [apply elem_of_cons; by right|exact H0].
      * intros [H|(k0 & a0 & c0 & Hin & Hst & Hk0 & Hxc)]; [left; by left|].
        apply elem_of_cons in Hin as [[= -> ->]|Hin].
        -- left. right. congruence.
        -- right. by exists k0, a0, c0.
Qed.

(** C8: for a channel of a well-formed roster, [get_unique_users] returns,
    without changing anything, the set of the identities that are in the
    channel's user set and in the user set of no channel stored under
    another name. *)
Theorem C8_get_unique_users_is_set_difference
    (b : Bot) (chan : string) (a : addr) (c : SeshetChannel.t) :
  channels_wf b ->
  dget (IRCstr chan) (SeshetBot.channels b) = Some a ->
  SeshetBot.store b !! a = Some c ->
  exists s,
    get_unique_users chan b = (Ok s, b)
    /\ forall x,
         x ∈ s <->
         x ∈ SeshetChannel.users c
         /\ forall k' a' c',
              k' <> IRCstr chan ->
              dget k' (SeshetBot.channels b) = Some a' ->
              SeshetBot.store b !! a' = Some c' ->
              x ∉ SeshetChannel.users c'.
Proof.
  intros [Hnd Hwf] Ha Hc.
  destruct (other_users_fold b (IRCstr chan) (SeshetBot.channels b) ∅)
    as (others & Hfold & Hothers).
  { intros k a0 Hin. apply Hwf. by apply elem_of_dget. }
  exists (SeshetChannel.users c ∖ others). split.
  - unfold get_unique_users, this. unfold bind at 1. cbn [gets].
    rewrite Ha. unfold bind at 1. cbn [unwrap ret].
    unfold bind at 1. rewrite (in_bot_store_deref b a c Hc).
    unfold bind at 1. rewrite Hfold. reflexivity.
  - intros x. rewrite elem_of_difference, Hothers. split.
    + intros [Hx Hno]. split; [exact Hx|].
      intros k' a' c' Hk' Ha' Hc' Hxc. apply Hno. right.
      exists k', a', c'. split; [by apply dget_elem_of|auto].
    + intros [Hx Hno]. split; [exact Hx|].
      intros [H|(k' & a' & c' & Hin & Hst & Hk' & Hxc)].
      * by apply not_elem_of_empty in H.
      * apply (Hno k' a' c'); auto. by apply elem_of_dget.
Qed.

(** ** The channel dict stays well formed *)

Lemma store_names_insert (st : Store) (a : addr) (c c' : SeshetChannel.t) :
  st !! a = Some c -> SeshetChannel.name c' = SeshetChannel.name c ->
  store_names (<[a := c']> st) = store_names st.
Proof.
  intros Hc Hn. unfold store_names.
  change (map SeshetChannel.name) with (fmap (M:=list) SeshetChannel.name).
  rewrite list_fmap_insert, Hn. apply list_insert_id.
  rewrite list_lookup_fmap, Hc. reflexivity.
Qed.

Lemma mutate_names a f :
  (forall c, SeshetChannel.name (f c) = SeshetChannel.name c) ->
  keeps (same store_names) (mutate a f).
Proof.
  intros Hf st. unfold same, exec, mutate, bind, deref, modify.
  destruct (st !! a) as [c|] eqn:Hc; cbn [snd]; [|reflexivity].
  by apply (store_names_insert st a c).
Qed.

Lemma users_add_names a n : keeps (same store_names) (users_add a n).
Proof. apply mutate_names. reflexivity. Qed.

Lemma deref_names a : keeps (same store_names) (deref a).
Proof. intros st. unfold same, exec, deref. destruct (st !! a); reflexivity. Qed.

Lemma users_remove_names a n : keeps (same store_names) (users_remove a n).
Proof.
  unfold users_remove.
  apply keeps_bind; [apply _ | apply deref_names | intros c].
  destruct (bool_decide _); [|apply keeps_raise; apply _].
  apply mutate_names. reflexivity.
Qed.

Lemma log_message_names a time u m :
  keeps (same store_names) (mutate a (SeshetChannel.log_message time u m)).
Proof. apply mutate_names. reflexivity. Qed.

Lemma in_store_names {A} (c : M Store A) :
  keeps (same store_names) c -> keeps (same ctx_names) (in_store c).
Proof.
  intros Hc [u st]. specialize (Hc st).
  unfold same, ctx_names, exec, in_store, zoom in *. cbn [snd].
  destruct (c st) as [r st']. exact Hc.
Qed.

Lemma set_self_names f : keeps (same ctx_names) (set_self f).
Proof. intros [u st]. reflexivity. Qed.

Lemma self_names : keeps (same ctx_names) self.
Proof. intros [u st]. reflexivity. Qed.

#[export] Hint Resolve users_add_names users_remove_names in_store_names
  set_self_names self_names : keeps.

Lemma channels_remove_names a : keeps (same ctx_names) (channels_remove a).
Proof. unfold channels_remove. keeps_auto. Qed.

Lemma join_names a : keeps (same ctx_names) (join a).
Proof. unfold join. keeps_auto. Qed.

#[export] Hint Resolve channels_remove_names : keeps.

Lemma part_names a : keeps (same ctx_names) (part a).
Proof. unfold part. keeps_auto. Qed.

Lemma quit_names : keeps (same ctx_names) quit.
Proof. unfold quit. keeps_auto. Qed.

Lemma change_nick_names n : keeps (same ctx_names) (change_nick n).
Proof. unfold change_nick. keeps_auto. Qed.

#[export] Hint Resolve join_names part_names quit_names change_nick_names
  : keeps.

Lemma call_user_names {A} key (m : M UserCtx A) :
  keeps (same ctx_names) m -> keeps (same channel_names) (call_user key m).
Proof.
  intros Hm b. unfold same, channel_names, exec, call_user.
  destruct (dget key (SeshetBot.users b)) as [u|]; [|reflexivity].
  specialize (Hm (u, SeshetBot.store b)).
  unfold same, ctx_names, exec in Hm.
  destruct (m (u, SeshetBot.store b)) as [r [u' st']]. cbn [snd] in *.
  cbn [SeshetBot.set_store SeshetBot.set_users SeshetBot.store
       SeshetBot.channels].
  rewrite Hm. reflexivity.
Qed.

Lemma in_bot_store_names {A} (c : M Store A) :
  keeps (same store_names) c -> keeps (same channel_names) (in_bot_store c).
Proof.
  intros Hc b. specialize (Hc (SeshetBot.store b)).
  unfold same, channel_names, exec, in_bot_store, zoom in *.
  destruct (c (SeshetBot.store b)) as [r st']. cbn [snd] in *.
  cbn [SeshetBot.set_store SeshetBot.store SeshetBot.channels].
  rewrite Hc. reflexivity.
Qed.

#[export] Hint Resolve call_user_names in_bot_store_names deref_names
  log_message_names : keeps.

Ltac names_auto :=
  repeat first
    [ keeps_step
    | apply call_user_names
    | apply in_bot_store_names
    | apply in_store_names ].

Lemma roster_gives_names {A} (c : M Bot A) :
  keeps (same roster) c -> keeps (same channel_names) c.
Proof.
  intros H b. specialize (H b). unfold same, roster, channel_names in *.
  injection H as Hc _ Hs. rewrite Hc, Hs. reflexivity.
Qed.

Section HandlerNames.
Variable strftime : string -> Time -> string.
Variable expanduser : string -> string.
Variable dirname : string -> string.

Lemma utcnow_names : keeps (same channel_names) utcnow.
Proof. apply roster_gives_names, utcnow_keeps_roster. Qed.

Lemma self_log_names etype source msg target hostmask params :
  keeps (same channel_names)
        (self_log strftime expanduser dirname etype source msg target
                  hostmask params).
Proof. apply roster_gives_names, self_log_keeps_roster. Qed.

Lemma self_run_modules_names e :
  keeps (same channel_names) (self_run_modules e).
Proof. apply roster_gives_names, self_run_modules_keeps_roster. Qed.

Hint Resolve utcnow_names self_log_names self_run_modules_names : keeps.

Lemma on_message_names e :
  keeps (same channel_names) (on_message strftime expanduser dirname e).
Proof. unfold on_message, this. keeps_auto. Qed.

Lemma on_join_names e :
  keeps (same channel_names) (on_join strftime expanduser dirname e).
Proof. unfold on_join, this. names_auto. Qed.

Lemma prune_names keys a : keeps (same channel_names) (prune keys a).
Proof.
  induction keys as [|k r IH]; cbn [prune]; unfold this; names_auto.
Qed.

Hint Resolve prune_names : keeps.

Lemma leave_names e : keeps (same channel_names) (leave e).
Proof. unfold leave, this. names_auto. Qed.

Hint Resolve leave_names : keeps.

Lemma on_part_names e :
  keeps (same channel_names) (on_part strftime expanduser dirname e).
Proof. unfold on_part. names_auto. Qed.

Lemma on_kick_names e :
  keeps (same channel_names) (on_kick strftime expanduser dirname e).
Proof. unfold on_kick. names_auto. Qed.

Lemma on_quit_names e :
  keeps (same channel_names) (on_quit strftime expanduser dirname e).
Proof. unfold on_quit, this. names_auto. Qed.

Lemma on_nick_change_names e :
  keeps (same channel_names) (on_nick_change e).
Proof. unfold on_nick_change, this. names_auto. Qed.

Lemma on_ctcp_action_names e :
  keeps (same channel_names) (on_ctcp_action strftime expanduser dirname e).
Proof. unfold on_ctcp_action. names_auto. Qed.

Lemma on_mode_names e :
  keeps (same channel_names) (on_mode strftime expanduser dirname e).
Proof. unfold on_mode. names_auto. Qed.

Lemma handle_names ev :
  keeps (same channel_names) (handle strftime expanduser dirname ev).
Proof.
  destruct ev; cbn [handle];
    auto using on_join_names, on_part_names, on_kick_names, on_quit_names,
      on_nick_change_names.
Qed.

(** [channels_wf] reads the channel dict and the names in the store. *)
Lemma channels_wf_same b b' :
  same channel_names b b' -> channels_wf b -> channels_wf b'.
Proof.
  unfold same, channel_names, store_names. intros [= Hc Hs] [Hnd Hwf].
  split; [rewrite Hc; exact Hnd|].
  intros k a Hk. rewrite Hc in Hk.
  destruct (Hwf k a Hk) as (c & Hst & Hname).
  assert (Hn : (map SeshetChannel.name (SeshetBot.store b)) !! a = Some k).
  { change (map SeshetChannel.name) with (fmap (M:=list) SeshetChannel.name).
    rewrite list_lookup_fmap, Hst, <- Hname. reflexivity. }
  rewrite <- Hs in Hn.
  change (map SeshetChannel.name) with (fmap (M:=list) SeshetChannel.name)
    in Hn.
  rewrite list_lookup_fmap in Hn.
  destruct (SeshetBot.store b' !! a) as [c'|]; [|discriminate].
  exists c'. split; [reflexivity|]. cbn in Hn. congruence.
Qed.

Lemma add_channel_names_wf b e :
  channels_wf b -> channels_wf (exec (_add_channel_names e) b).
Proof.
  intros [Hnd Hwf]. unfold exec. rewrite add_channel_names_run.
  cbn [snd]. split;
    cbn [SeshetBot.set_channels SeshetBot.set_store SeshetBot.channels
         SeshetBot.store].
  - by apply NoDup_dset.
  - intros k a.
    destruct (decide (IRCstr (channel e) = k)) as [<-|Hne].
    + rewrite dget_dset_eq. intros [= <-].
      eexists. split.
      * rewrite lookup_app_r by lia. rewrite Nat.sub_diag. reflexivity.
      * cbn. apply IRCstr_idem.
    + rewrite dget_dset_ne by exact Hne. intros Hk.
      destruct (Hwf k a Hk) as (c & Hst & Hname).
      exists c. split; [|exact Hname].
      rewrite lookup_app_l; [exact Hst|]. by eapply lookup_lt_Some.
Qed.

Lemma handle_any_wf ev b :
  channels_wf b ->
  channels_wf (exec (handle_any strftime expanduser dirname ev) b).
Proof.
  intros Hwf. destruct ev as [ev|e|e|e|e]; cbn [handle_any].
  - eapply channels_wf_same; [apply handle_names | exact Hwf].
  - by apply add_channel_names_wf.
  - eapply channels_wf_same; [apply on_message_names | exact Hwf].
  - eapply channels_wf_same; [apply on_ctcp_action_names | exact Hwf].
  - eapply channels_wf_same; [apply on_mode_names | exact Hwf].
Qed.

(** Whatever the bot handles, from a well-formed roster it reaches a
    well-formed roster; the roster of a new bot is well formed. *)
Lemma run_any_wf evs b :
  channels_wf b ->
  channels_wf (run_any strftime expanduser dirname evs b).
Proof.
  revert b. induction evs as [|ev evs IH]; intros b Hwf; cbn [run_any fold_left].
  - exact Hwf.
  - apply IH. by apply handle_any_wf.
Qed.

Lemma init_wf nick username realname repr db clock dirs :
  channels_wf (SeshetBot.init nick username realname repr db clock dirs).
Proof. split; [apply NoDup_nil_2 | intros k a; discriminate]. Qed.
End HandlerNames.

Lemma C8_get_unique_users_is_set_difference_witness :
  exists s,
    get_unique_users "#C" two_channels = (Ok s, two_channels)
    /\ forall x,
         x ∈ s <->
         x ∈ ({["a"; "b"; "bot"]} : gset string)
         /\ forall k' a' c',
              k' <> "#c" ->
              dget k' (SeshetBot.channels two_channels) = Some a' ->
              SeshetBot.store two_channels !! a' = Some c' ->
              x ∉ SeshetChannel.users c'.
Proof.
  refine (C8_get_unique_users_is_set_difference
            two_channels "#C" 0
            (SeshetChannel.mk "#c" {["a"; "b"; "bot"]} [] 100) _ _ _).
  - apply run_any_wf, init_wf.
  - reflexivity.
  - vm_compute. reflexivity.
Defined.

Example unique_users_ex :
  option_map elements
    (match outcome (get_unique_users "#C") two_channels with
     | Ok s => Some s
     | Raise _ => None
     end)
  = Some ["a"; "bot"].
Proof. vm_compute. reflexivity. Qed.

(** ** The membership invariant from a fresh roster *)

Section FreshRoster.
Variable strftime : string -> Time -> string.
Variable expanduser : string -> string.
Variable dirname : string -> string.

Lemma handle_keeps_channels ev b :
  SeshetBot.channels (exec (handle strftime expanduser dirname ev) b)
  = SeshetBot.channels b.
Proof.
  pose proof (handle_names strftime expanduser dirname ev b) as H.
  unfold same, channel_names in H. by injection H.
Qed.

Lemma no_channels_invariant b :
  SeshetBot.channels b = [] -> membership_invariant b.
Proof. intros Hc k u ck a c _ Hck. rewrite Hc in Hck. discriminate. Qed.

(** From a roster whose channel dict is empty: these handlers never put a
    channel into the roster, so the channel dict is still empty after each
    of them, whether the handler returned or raised. *)
Lemma fresh_roster_invariant (b : Bot) (evs : list RosterEvent) :
  fresh_roster b ->
  Forall (fun b' => membership_invariant b' /\ SeshetBot.channels b' = [])
         (trace strftime expanduser dirname evs b).
Proof.
  intros [Hc _]. revert b Hc.
  induction evs as [|ev evs IH]; intros b Hc; cbn [trace].
  - apply List.Forall_nil.
  - assert (Hc' : SeshetBot.channels
                    (exec (handle strftime expanduser dirname ev) b) = [])
      by (rewrite handle_keeps_channels; exact Hc).
    apply List.Forall_cons.
    + split; [by apply no_channels_invariant | exact Hc'].
    + apply IH. exact Hc'.
Qed.
End FreshRoster.

(** With names replies in the sequence the invariant does not hold
    throughout: [A] is in the names of [#c] and then joins [#d]. *)
Example names_reply_breaks_membership :
  let b := run_any strftime0 expanduser0 dirname0
             [NAMES (names_reply "#c" ["A"; "Bot"]);
              NAMES (names_reply "#d" ["Bot"]);
              Roster (JOIN (join_event "A" "#d"))] db_bot in
  memberships b = [("a", [1])]
  /\ members "#c" b = Some ["a"; "bot"]
  /\ ~ membership_invariant b.
Proof.
  cbv zeta. split; [vm_compute; reflexivity|].
  split; [vm_compute; reflexivity|].
  intros H.
  specialize (H "a" (SeshetUser.mk "a" "A" "host" [1]) "#c" 0
                (SeshetChannel.mk "#c" {["a"; "bot"]} [] 100)).
  assert (Hl : list_mem 0 [1] = true).
  { apply H; [vm_compute; reflexivity ..|]. vm_compute. reflexivity. }
  discriminate.
Qed.

(** ** Consistent rosters *)

Lemma list_mem_elem_of (a : nat) (l : list nat) :
  list_mem a l = true <-> a ∈ l.
Proof.
  unfold list_mem. rewrite existsb_exists. split.
  - intros (x & Hx & Heq). apply Nat.eqb_eq in Heq as ->.
    by apply list_elem_of_In.
  - intros H. exists a. split; [by apply list_elem_of_In | apply Nat.eqb_refl].
Qed.

Lemma consistent_membership b : consistent b -> membership_invariant b.
Proof.
  intros Hc k u ck a c Hu _ Hst. rewrite list_mem_elem_of.
  rewrite (cons_nick b Hc k u Hu). split.
  - intros Ha. destruct (cons_member b Hc k u a Hu Ha) as (c' & Hc' & Hk).
    congruence.
  - intros Hk. destruct (cons_listed b Hc a c k Hst Hk) as (u' & Hu' & Ha).
    congruence.
Qed.

Section DictMore.
Context {V : Type}.
Implicit Types (d : dict V) (k : string) (v : V).

Lemma dset_id d k v : dget k d = Some v -> dset k v d = d.
Proof.
  induction d as [|[k' v'] r IH]; cbn [dget dset]; [discriminate|].
  destruct (String.eqb_spec k' k) as [->|Hne].
  - intros [= ->]. reflexivity.
  - intros H. rewrite IH by exact H. reflexivity.
Qed.

Lemma dget_dset d k k' v :
  dget k' (dset k v d) = if decide (k = k') then Some v else dget k' d.
Proof.
  destruct (decide (k = k')) as [->|Hne];
    [apply dget_dset_eq | by apply dget_dset_ne].
Qed.

Lemma dget_ddel_ne d k k' : k <> k' -> dget k' (ddel k d) = dget k' d.
Proof.
  intros Hne. induction d as [|[k0 v0] r IH]; cbn [ddel dget]; [reflexivity|].
  destruct (String.eqb_spec k0 k) as [->|H0]; cbn [dget].
  - destruct (String.eqb_spec k k'); [congruence | reflexivity].
  - rewrite IH. reflexivity.
Qed.

Lemma dget_ddel_eq d k : NoDup (dkeys d) -> dget k (ddel k d) = None.
Proof.
  induction d as [|[k0 v0] r IH]; cbn [ddel dget dkeys map fst];
    [reflexivity|].
  intros Hnd. apply NoDup_cons in Hnd as [Hnotin Hnd].
  destruct (String.eqb_spec k0 k) as [->|H0]; cbn [dget].
  - destruct (dget k r) as [v|] eqn:Hk; [|reflexivity].
    exfalso. apply Hnotin. apply list_elem_of_fmap. exists (k, v).
    split; [reflexivity | by apply dget_elem_of].
  - destruct (String.eqb_spec k0 k); [congruence | by apply IH].
Qed.

Lemma dget_ddel d k k' :
  NoDup (dkeys d) ->
  dget k' (ddel k d) = if decide (k = k') then None else dget k' d.
Proof.
  intros Hnd. destruct (decide (k = k')) as [->|Hne];
    [by apply dget_ddel_eq | by apply dget_ddel_ne].
Qed.

Lemma dkeys_ddel_sub d k x : x ∈ dkeys (ddel k d) -> x ∈ dkeys d.
Proof.
  induction d as [|[k0 v0] r IH]; cbn [ddel dkeys map fst]; [auto|].
  destruct (String.eqb k0 k); cbn [map fst].
  - intros H. apply elem_of_cons. by right.
  - intros H. apply elem_of_cons in H as [->|H]; apply elem_of_cons; auto.
Qed.

Lemma NoDup_ddel d k : NoDup (dkeys d) -> NoDup (dkeys (ddel k d)).
Proof.
  induction d as [|[k0 v0] r IH]; cbn [ddel dkeys map fst]; [auto|].
  intros Hnd. apply NoDup_cons in Hnd as [Hnotin Hnd].
  destruct (String.eqb k0 k); cbn [map fst]; [exact Hnd|].
  apply NoDup_cons. split; [|by apply IH].
  intros H. apply Hnotin. by eapply dkeys_ddel_sub.
Qed.
End DictMore.

Lemma list_remove_elem_of (a x : nat) (l : list nat) :
  NoDup l -> x ∈ list_remove a l <-> x ∈ l /\ x <> a.
Proof.
  induction l as [|y r IH]; cbn [list_remove].
  - intros _. split; [intros H; by apply elem_of_nil in H|].
    intros [H _]. exact H.
  - intros Hnd. apply NoDup_cons in Hnd as [Hy Hnd].
    destruct (Nat.eqb_spec y a) as [->|Hne].
    + rewrite elem_of_cons. split.
      * intros H. split; [by right|]. intros ->. contradiction.
      * intros [[->|H] Hx]; [contradiction | exact H].
    + rewrite !elem_of_cons, (IH Hnd). split.
      * intros [->|[H Hx]]; auto.
      * intros [[->|H] Hx]; auto.
Qed.

Lemma list_remove_NoDup (a : nat) (l : list nat) :
  NoDup l -> NoDup (list_remove a l).
Proof.
  induction l as [|y r IH]; cbn [list_remove]; [auto|].
  intros Hnd. apply NoDup_cons in Hnd as [Hy Hnd].
  destruct (Nat.eqb_spec y a); [exact Hnd|].
  apply NoDup_cons. split; [|by apply IH].
  rewrite (list_remove_elem_of a y r Hnd). tauto.
Qed.

(** [consistent] reads the roster only. *)
Lemma consistent_same (b b' : Bot) :
  same roster b b' -> consistent b -> consistent b'.
Proof.
  unfold same, roster. intros [= Hc Hu Hs] [H1 H2 H3 H4 H5 H6].
  split; rewrite ?Hc, ?Hu, ?Hs; assumption.
Qed.

Lemma consistent_of (b b' : Bot) :
  consistent b ->
  SeshetBot.channels b' = SeshetBot.channels b ->
  SeshetBot.users b' = SeshetBot.users b ->
  SeshetBot.store b' = SeshetBot.store b ->
  consistent b'.
Proof.
  intros H Hc Hu Hs. apply (consistent_same b); [|exact H].
  unfold same, roster. congruence.
Qed.

(** The roster after [user.join(channel)] took effect. *)
Lemma consistent_join (b b' : Bot) k u a c :
  consistent b ->
  SeshetBot.channels b <> [] ->
  dget k (SeshetBot.users b) = Some u ->
  a ∉ SeshetUser.channels u ->
  SeshetBot.store b !! a = Some c ->
  SeshetBot.channels b' = SeshetBot.channels b ->
  SeshetBot.users b'
  = dset k (SeshetUser.set_channels (SeshetUser.channels u ++ [a]) u)
         (SeshetBot.users b) ->
  SeshetBot.store b'
  = <[a := SeshetChannel.set_users (fun s => s ∪ {[SeshetUser.nick u]}) c]>
      (SeshetBot.store b) ->
  consistent b'.
Proof.
  intros [H1 H2 H3 H4 H5 H6] Hne Hu Ha Hc Hch Hus Hst.
  pose proof (H2 k u Hu) as Hnick.
  assert (Hlt : a < length (SeshetBot.store b)) by (by eapply lookup_lt_Some).
  split; rewrite ?Hch, ?Hus, ?Hst.
  - by apply NoDup_dset.
  - intros k0 v. rewrite dget_dset. case_decide as Hk.
    + intros [= <-]. subst k0. exact Hnick.
    + apply H2.
  - intros k0 v. rewrite dget_dset. case_decide as Hk.
    + intros [= <-]. cbn. apply NoDup_app.
      repeat split; [by eapply H3 | | apply NoDup_singleton].
      intros x Hx Hx'. apply list_elem_of_singleton in Hx' as ->. contradiction.
    + apply H3.
  - intros k0 v a0. rewrite dget_dset. case_decide as Hk.
    + intros [= <-]. subst k0. cbn [SeshetUser.channels SeshetUser.set_channels].
      rewrite elem_of_app, list_elem_of_singleton. intros [Hin| ->].
      * assert (a0 <> a) by (intros ->; contradiction).
        rewrite list_lookup_insert_ne by congruence. by eapply H4.
      * rewrite list_lookup_insert_eq by exact Hlt. eexists. split; [reflexivity|].
        cbn. rewrite Hnick. set_solver.
    + intros Hv Hin. destruct (H4 k0 v a0 Hv Hin) as (c0 & Hc0 & Hk0).
      destruct (decide (a0 = a)) as [->|Hna].
      * rewrite list_lookup_insert_eq by exact Hlt. eexists. split; [reflexivity|].
        cbn. assert (c0 = c) by congruence. subst c0. set_solver.
      * rewrite list_lookup_insert_ne by congruence. eauto.
  - intros a0 c0 n. destruct (decide (a0 = a)) as [->|Hna].
    + rewrite list_lookup_insert_eq by exact Hlt. intros [= <-]. cbn.
      rewrite elem_of_union, elem_of_singleton, Hnick. intros [Hn| ->].
      * destruct (H5 a c n Hc Hn) as (v & Hv & Hin).
        assert (k <> n) by (intros ->; congruence).
        exists v. rewrite dget_dset. case_decide; [congruence|]. auto.
      * eexists. rewrite dget_dset_eq. split; [reflexivity|].
        cbn. apply elem_of_app. right. by apply list_elem_of_singleton.
    + rewrite list_lookup_insert_ne by congruence. intros Hc0 Hn.
      destruct (H5 a0 c0 n Hc0 Hn) as (v & Hv & Hin).
      rewrite dget_dset. case_decide as Hk.
      * subst n. assert (v = u) by congruence. subst v.
        eexists. split; [reflexivity|]. cbn. apply elem_of_app. by left.
      * eauto.
  - intros Hnil. contradiction.
Qed.

(** The roster after [user.part(channel)] took effect. *)
Lemma consistent_part (b b' : Bot) k u a c :
  consistent b ->
  dget k (SeshetBot.users b) = Some u ->
  a ∈ SeshetUser.channels u ->
  SeshetBot.store b !! a = Some c ->
  SeshetBot.channels b' = SeshetBot.channels b ->
  SeshetBot.users b'
  = dset k (SeshetUser.set_channels
              (list_remove a (SeshetUser.channels u)) u)
         (SeshetBot.users b) ->
  SeshetBot.store b'
  = <[a := SeshetChannel.set_users (fun s => s ∖ {[SeshetUser.nick u]}) c]>
      (SeshetBot.store b) ->
  consistent b'.
Proof.
  intros [H1 H2 H3 H4 H5 H6] Hu Ha Hc Hch Hus Hst.
  pose proof (H2 k u Hu) as Hnick.
  pose proof (H3 k u Hu) as Hnd.
  assert (Hlt : a < length (SeshetBot.store b)) by (by eapply lookup_lt_Some).
  split; rewrite ?Hch, ?Hus, ?Hst.
  - by apply NoDup_dset.
  - intros k0 v. rewrite dget_dset. case_decide as Hk.
    + intros [= <-]. subst k0. exact Hnick.
    + apply H2.
  - intros k0 v. rewrite dget_dset. case_decide as Hk.
    + intros [= <-]. cbn. by apply list_remove_NoDup.
    + apply H3.
  - intros k0 v a0. rewrite dget_dset. case_decide as Hk.
    + intros [= <-]. subst k0. cbn [SeshetUser.channels SeshetUser.set_channels].
      rewrite (list_remove_elem_of a a0 _ Hnd). intros [Hin Hna].
      rewrite list_lookup_insert_ne by congruence. by eapply H4.
    + intros Hv Hin. destruct (H4 k0 v a0 Hv Hin) as (c0 & Hc0 & Hk0).
      destruct (decide (a0 = a)) as [->|Hna].
      * rewrite list_lookup_insert_eq by exact Hlt. eexists. split; [reflexivity|].
        cbn. assert (c0 = c) by congruence. subst c0. rewrite Hnick. set_solver.
      * rewrite list_lookup_insert_ne by congruence. eauto.
  - intros a0 c0 n. destruct (decide (a0 = a)) as [->|Hna].
    + rewrite list_lookup_insert_eq by exact Hlt. intros [= <-]. cbn.
      rewrite elem_of_difference, elem_of_singleton, Hnick. intros [Hn Hnk].
      destruct (H5 a c n Hc Hn) as (v & Hv & Hin).
      exists v. rewrite dget_dset. case_decide; [congruence|]. auto.
    + rewrite list_lookup_insert_ne by congruence. intros Hc0 Hn.
      destruct (H5 a0 c0 n Hc0 Hn) as (v & Hv & Hin).
      rewrite dget_dset. case_decide as Hk.
      * subst n. assert (v = u) by congruence. subst v.
        eexists. split; [reflexivity|]. cbn.
        apply (list_remove_elem_of a a0 _ Hnd). auto.
      * eauto.
  - intros Hnil k0 v. rewrite dget_dset. case_decide as Hk.
    + intros [= <-]. cbn. rewrite (H6 Hnil k u Hu). reflexivity.
    + by apply H6.
Qed.

Lemma call_user_join_consistent (b : Bot) k a ck :
  dget ck (SeshetBot.channels b) = Some a ->
  consistent b -> consistent (exec (call_user k (join a)) b).
Proof.
  intros Hck Hb. unfold exec, call_user.
  destruct (dget k (SeshetBot.users b)) as [u|] eqn:Hu; [|exact Hb].
  unfold join, bind, self, gets, in_store, zoom, users_add, mutate, bind,
    deref, modify, set_self, ret.
  cbn [fst snd].
  destruct (list_mem a (SeshetUser.channels u)) eqn:Hmem; cbn [negb snd].
  - apply (consistent_of b); [exact Hb | reflexivity | | reflexivity].
    cbn. by apply dset_id.
  - destruct (SeshetBot.store b !! a) as [c|] eqn:Hc; cbn [snd].
    + eapply (consistent_join b _ k u a c); try reflexivity; try eassumption.
      * intros Hnil. rewrite Hnil in Hck. discriminate.
      * rewrite <- list_mem_elem_of. congruence.
    + apply (consistent_of b); [exact Hb | reflexivity | | reflexivity].
      cbn. by apply dset_id.
Qed.

Lemma call_user_part_consistent (b : Bot) k a :
  consistent b -> consistent (exec (call_user k (part a)) b).
Proof.
  intros Hb. unfold exec, call_user.
  destruct (dget k (SeshetBot.users b)) as [u|] eqn:Hu; [|exact Hb].
  unfold part, channels_remove, bind, self, gets, in_store, zoom,
    users_remove, mutate, bind, deref, modify, set_self, ret, raise.
  cbn [fst snd].
  destruct (list_mem a (SeshetUser.channels u)) eqn:Hmem; cbn [snd].
  - apply list_mem_elem_of in Hmem as Hin.
    destruct (cons_member b Hb k u a Hu Hin) as (c & Hc & Hk).
    rewrite Hc. rewrite (cons_nick b Hb k u Hu).
    rewrite bool_decide_eq_true_2 by exact Hk. rewrite Hc. cbn [snd fst].
    rewrite Hmem. cbn [snd].
    eapply (consistent_part b _ k u a c); try reflexivity; try eassumption.
    cbn. rewrite (cons_nick b Hb k u Hu). reflexivity.
  - apply (consistent_of b); [exact Hb | reflexivity | | reflexivity].
    cbn. by apply dset_id.
Qed.

(** The loop of [quit]: the nick goes out of every listed channel. *)
Lemma quit_loop (u : SeshetUser.t) (n : string) (l : list nat) (st : Store) :
  NoDup l ->
  (forall a, a ∈ l -> exists c, st !! a = Some c /\ n ∈ SeshetChannel.users c) ->
  exists st',
    for_each l (fun c => in_store (users_remove c n)) (u, st)
    = (Ok tt, (u, st'))
    /\ forall a,
         st' !! a
         = if decide (a ∈ l)
           then SeshetChannel.set_users (fun s => s ∖ {[n]}) <$> st !! a
           else st !! a.
Proof.
  revert st. induction l as [|a r IH]; intros st Hnd Hall.
  - exists st. split; [reflexivity|]. intros a.
    case_decide as H; [by apply elem_of_nil in H | reflexivity].
  - apply NoDup_cons in Hnd as [Ha Hnd].
    destruct (Hall a) as (c & Hc & Hn); [apply elem_of_cons; by left|].
    assert (Hlt : a < length st) by (by eapply lookup_lt_Some).
    set (st1 := <[a := SeshetChannel.set_users (fun s => s ∖ {[n]}) c]> st).
    destruct (IH st1 Hnd) as (st' & Hrun & Hlook).
    { intros a' Ha'. assert (a' <> a) by (intros ->; contradiction).
      unfold st1. rewrite list_lookup_insert_ne by congruence.
      apply Hall. apply elem_of_cons. by right. }
    exists st'. split.
    + cbn [for_each]. unfold bind at 1.
      unfold in_store at 1, zoom, users_remove, mutate, bind, deref, modify.
      cbn [snd fst]. rewrite Hc. rewrite bool_decide_eq_true_2 by exact Hn.
      rewrite Hc. cbn [snd fst]. exact Hrun.
    + intros a0. rewrite Hlook. unfold st1.
      destruct (decide (a0 = a)) as [->|Hne].
      * rewrite list_lookup_insert_eq by exact Hlt.
        rewrite decide_False by exact Ha.
        rewrite decide_True by (apply elem_of_cons; by left).
        rewrite Hc. reflexivity.
      * rewrite list_lookup_insert_ne by congruence.
        destruct (decide (a0 ∈ r)) as [Hr|Hr].
        -- rewrite decide_True by (apply elem_of_cons; by right). reflexivity.
        -- rewrite decide_False; [reflexivity|].
           rewrite elem_of_cons. tauto.
Qed.

(** The roster after [self.users[nick].quit()] and [del self.users[nick]]. *)
Lemma consistent_quit (b b' : Bot) k u :
  consistent b ->
  dget k (SeshetBot.users b) = Some u ->
  SeshetBot.channels b' = SeshetBot.channels b ->
  SeshetBot.users b'
  = ddel k (dset k (SeshetUser.set_channels [] u) (SeshetBot.users b)) ->
  (forall a,
     SeshetBot.store b' !! a
     = if decide (a ∈ SeshetUser.channels u)
       then SeshetChannel.set_users (fun s => s ∖ {[k]})
              <$> SeshetBot.store b !! a
       else SeshetBot.store b !! a) ->
  consistent b'.
Proof.
  intros [H1 H2 H3 H4 H5 H6] Hu Hch Hus Hst.
  assert (Hget : forall k0,
            dget k0 (SeshetBot.users b')
            = if decide (k = k0) then None else dget k0 (SeshetBot.users b)).
  { intros k0. rewrite Hus, dget_ddel by (by apply NoDup_dset).
    case_decide; [reflexivity|]. by apply dget_dset_ne. }
  split; rewrite ?Hch.
  - rewrite Hus. by apply NoDup_ddel, NoDup_dset.
  - intros k0 v. rewrite Hget. case_decide; [discriminate | apply H2].
  - intros k0 v. rewrite Hget. case_decide; [discriminate | apply H3].
  - intros k0 v a0. rewrite Hget. case_decide as Hk; [discriminate|].
    intros Hv Hin. destruct (H4 k0 v a0 Hv Hin) as (c0 & Hc0 & Hk0).
    rewrite Hst, Hc0. case_decide; cbn; eexists; split; try reflexivity.
    + cbn. set_solver.
    + exact Hk0.
  - intros a0 c0 n. rewrite Hst. case_decide as Hin.
    + destruct (SeshetBot.store b !! a0) as [c1|] eqn:Hc1; [|discriminate].
      cbn. intros [= <-]. cbn.
      rewrite elem_of_difference, elem_of_singleton. intros [Hn Hnk].
      destruct (H5 a0 c1 n Hc1 Hn) as (v & Hv & Hav).
      exists v. rewrite Hget. case_decide; [congruence | auto].
    + intros Hc0 Hn. destruct (H5 a0 c0 n Hc0 Hn) as (v & Hv & Hav).
      exists v. rewrite Hget. case_decide as Hk; [|auto].
      subst n. assert (v = u) by congruence. subst v. contradiction.
  - intros Hnil k0 v. rewrite Hget. case_decide; [discriminate | by apply H6].
Qed.

Lemma call_user_quit_consistent (b : Bot) k :
  consistent b ->
  consistent (exec (call_user k quit ;; modify (SeshetBot.set_users (ddel k))) b).
Proof.
  intros Hb. unfold exec, bind at 1, call_user.
  destruct (dget k (SeshetBot.users b)) as [u|] eqn:Hu; [|exact Hb].
  destruct (quit_loop u (SeshetUser.nick u) (SeshetUser.channels u)
              (SeshetBot.store b)) as (st' & Hrun & Hlook).
  { by eapply cons_nodup. }
  { intros a Ha. rewrite (cons_nick b Hb k u Hu). by eapply cons_member. }
  unfold quit, bind at 1, self, gets. cbn [fst snd].
  unfold bind at 1. rewrite Hrun. unfold set_self, modify. cbn [snd fst].
  eapply (consistent_quit b _ k u); try reflexivity; try eassumption.
  cbn. intros a. rewrite Hlook, (cons_nick b Hb k u Hu). reflexivity.
Qed.

Lemma consistent_create (b : Bot) k usr hst :
  consistent b -> IRCstr k = k -> dget k (SeshetBot.users b) = None ->
  consistent (SeshetBot.set_users (dset k (SeshetUser.init k usr hst)) b).
Proof.
  intros [H1 H2 H3 H4 H5 H6] Hk Hnone.
  split; cbn [SeshetBot.set_users SeshetBot.users SeshetBot.store
              SeshetBot.channels].
  - by apply NoDup_dset.
  - intros k0 v. rewrite dget_dset. case_decide.
    + intros [= <-]. cbn. congruence.
    + apply H2.
  - intros k0 v. rewrite dget_dset. case_decide.
    + intros [= <-]. cbn. apply NoDup_nil_2.
    + apply H3.
  - intros k0 v a. rewrite dget_dset. case_decide.
    + intros [= <-]. cbn. intros Hin. by apply elem_of_nil in Hin.
    + apply H4.
  - intros a c n Hc Hn. destruct (H5 a c n Hc Hn) as (v & Hv & Hin).
    exists v. rewrite dget_dset. case_decide; [congruence | auto].
  - intros Hnil k0 v. rewrite dget_dset. case_decide.
    + intros [= <-]. reflexivity.
    + by apply H6.
Qed.

(** A roster without channels: nobody lists a channel, no channel object
    has a member. *)
Lemma consistent_no_members (b : Bot) :
  consistent b -> SeshetBot.channels b = [] ->
  forall a c n, SeshetBot.store b !! a = Some c -> n ∉ SeshetChannel.users c.
Proof.
  intros Hb Hnil a c n Hc Hn.
  destruct (cons_listed b Hb a c n Hc Hn) as (v & Hv & Hin).
  rewrite (cons_none b Hb Hnil n v Hv) in Hin. by apply elem_of_nil in Hin.
Qed.

Lemma on_nick_change_consistent (b : Bot) (e : Event) :
  consistent b -> consistent (exec (on_nick_change e) b).
Proof.
  intros Hb. destruct (SeshetBot.channels b) as [|x r] eqn:Hch.
  2:{ unfold exec. rewrite on_nick_change_raises by congruence. exact Hb. }
  pose proof (consistent_no_members b Hb Hch) as Hempty.
  destruct Hb as [H1 H2 H3 H4 H5 H6].
  unfold exec, on_nick_change, this. unfold bind at 1. cbn [gets].
  rewrite Hch. cbn [dvalues map for_each]. unfold bind at 1. cbn [ret].
  unfold bind at 1, call_user.
  set (old := IRCstr (source e)). set (new := IRCstr (target e)).
  destruct (dget old (SeshetBot.users b)) as [u|] eqn:Hu;
    [|split; assumption].
  assert (Hu0 : SeshetUser.channels u = []) by (by eapply H6).
  unfold change_nick, bind at 1, self, gets. cbn [fst snd].
  unfold bind at 1, set_self, modify. cbn [fst snd].
  rewrite Hu0. cbn [for_each ret fst snd].
  unfold bind at 1. cbn [gets SeshetBot.users SeshetBot.set_users
                          SeshetBot.set_store].
  rewrite dget_dset_eq. unfold bind at 1. cbn [unwrap ret].
  unfold bind at 1. cbn [modify]. unfold bind at 1. cbn [gets].
  set (u1 := SeshetUser.set_nick (IRCstr new) u).
  cbn [SeshetBot.users SeshetBot.set_users SeshetBot.set_store].
  set (us := dset new u1 (dset old u1 (SeshetBot.users b))).
  assert (Hmem : dmem old us = true).
  { unfold dmem, us. rewrite dget_dset. case_decide; [reflexivity|].
    rewrite dget_dset_eq. reflexivity. }
  rewrite Hmem. cbn [modify snd].
  assert (Hnd : NoDup (dkeys us)) by (by apply NoDup_dset, NoDup_dset).
  assert (Hget : forall k0 v, dget k0 (ddel old us) = Some v ->
            (k0 = new /\ v = u1)
            \/ (k0 <> old /\ dget k0 (SeshetBot.users b) = Some v)).
  { intros k0 v. rewrite dget_ddel by exact Hnd. case_decide; [discriminate|].
    unfold us. rewrite dget_dset. case_decide.
    - intros [= <-]. left. auto.
    - rewrite dget_dset_ne by congruence. intros Hv. right. auto. }
  assert (Hnew : SeshetUser.nick u1 = new)
    by (unfold u1, new; cbn; apply IRCstr_idem).
  split; cbn [SeshetBot.set_users SeshetBot.set_store SeshetBot.users
              SeshetBot.store SeshetBot.channels].
  - by apply NoDup_ddel.
  - intros k0 v Hv. destruct (Hget k0 v Hv) as [[-> ->]|[_ Hold]];
      [exact Hnew | by apply H2].
  - intros k0 v Hv. destruct (Hget k0 v Hv) as [[-> ->]|[_ Hold]].
    + unfold u1. cbn. rewrite Hu0. apply NoDup_nil_2.
    + by eapply H3.
  - intros k0 v a Hv Hin. destruct (Hget k0 v Hv) as [[-> ->]|[_ Hold]].
    + unfold u1 in Hin. cbn in Hin. rewrite Hu0 in Hin.
      by apply elem_of_nil in Hin.
    + by eapply H4.
  - intros a c n Hc Hn. exfalso. by eapply Hempty.
  - intros _ k0 v Hv. destruct (Hget k0 v Hv) as [[-> ->]|[_ Hold]].
    + unfold u1. cbn. exact Hu0.
    + by eapply H6.
Qed.

#[export] Instance keeps_consistent_preorder : PreOrder keeps_consistent.
Proof. split; unfold keeps_consistent; [intros s; auto | intros a b c; auto]. Qed.

Lemma roster_gives_consistent {A} (c : M Bot A) :
  keeps (same roster) c -> keeps keeps_consistent c.
Proof. intros H b Hb. eapply consistent_same; [apply H | exact Hb]. Qed.

(** The frame rules at one state. *)
Lemma keeps_bind_this {S B} (R : S -> S -> Prop) (k : S -> M S B) :
  (forall s, R s (exec (k s) s)) -> keeps R (bind (gets (fun s => s)) k).
Proof. intros H s. apply H. Qed.

Lemma keeps_at_bind {S A B} (R : S -> S -> Prop) `{!PreOrder R}
    (c : M S A) (k : A -> M S B) (s : S) :
  R s (exec c s) -> (forall a, keeps R (k a)) -> R s (exec (bind c k) s).
Proof.
  intros Hc Hk. unfold exec, bind in *.
  destruct (c s) as [[a|x] s']; cbn [snd] in *; [|exact Hc].
  etransitivity; [exact Hc | apply Hk].
Qed.

Section HandlersConsistent.
Variable strftime : string -> Time -> string.
Variable expanduser : string -> string.
Variable dirname : string -> string.

Lemma self_log_keeps_nickname etype source msg target hostmask params :
  keeps (same SeshetBot.nickname)
        (self_log strftime expanduser dirname etype source msg target
                  hostmask params).
Proof.
  unfold self_log, log, _log_to_file, makedirs, this, utcnow. keeps_auto.
  all: intros b; reflexivity.
Qed.

Lemma self_log_consistent etype source msg target hostmask params :
  keeps keeps_consistent
        (self_log strftime expanduser dirname etype source msg target
                  hostmask params).
Proof. apply roster_gives_consistent, self_log_keeps_roster. Qed.

Lemma self_run_modules_consistent e :
  keeps keeps_consistent (self_run_modules e).
Proof. apply roster_gives_consistent, self_run_modules_keeps_roster. Qed.

Lemma on_join_consistent e :
  keeps keeps_consistent (on_join strftime expanduser dirname e).
Proof.
  unfold on_join.
  apply keeps_bind; [apply _ | apply self_log_consistent | intros _].
  apply keeps_bind_this. intros s.
  apply keeps_at_bind; [apply _ | |].
  2:{ intros _. apply keeps_bind;
        [apply _ | apply self_run_modules_consistent
        | intros; apply keeps_ret; apply _]. }
  destruct (negb (PyStr.eqb (source e) (SeshetBot.nickname s)));
    [|intros Hs; exact Hs].
  apply keeps_at_bind; [apply _ | |].
  - destruct (dmem (IRCstr (source e)) (SeshetBot.users s)) eqn:Hmem;
      cbn [negb]; [intros Hs; exact Hs|].
    intros Hs. unfold exec, modify. cbn [snd].
    apply consistent_create; [exact Hs | apply IRCstr_idem |].
    unfold dmem in Hmem. destruct (dget _ _); [discriminate | reflexivity].
  - intros _. apply keeps_bind_this. intros s1 Hs1.
    unfold exec, bind, unwrap.
    destruct (dget (IRCstr (source e)) (SeshetBot.users s1));
      cbn [ret raise snd]; [|exact Hs1].
    destruct (dget (IRCstr (target e)) (SeshetBot.channels s1)) as [a|]
      eqn:Ha; cbn [ret raise snd]; [|exact Hs1].
    by apply (call_user_join_consistent s1 _ a (IRCstr (target e))).
Qed.

Lemma leave_consistent e s :
  IRCstr (source e) <> IRCstr (SeshetBot.nickname s) ->
  consistent s -> consistent (exec (leave e) s).
Proof.
  intros Hnb Hs. unfold exec, leave, this. unfold bind at 1. cbn [gets].
  unfold bind at 1, unwrap.
  destruct (dget (IRCstr (target e)) (SeshetBot.channels s)) as [a|];
    cbn [ret raise snd]; [|exact Hs].
  unfold bind at 1.
  destruct (dget (IRCstr (source e)) (SeshetBot.users s)) as [u|];
    cbn [ret raise snd]; [|exact Hs].
  pose proof (call_user_part_consistent s (IRCstr (source e)) a Hs) as H1.
  unfold exec in H1. unfold bind.
  destruct (call_user (IRCstr (source e)) (part a) s) as [[[]|x] s1];
    cbn [snd] in *; [|exact H1].
  apply String.eqb_neq in Hnb. rewrite Hnb. exact H1.
Qed.

Lemma on_part_consistent e s :
  IRCstr (source e) <> IRCstr (SeshetBot.nickname s) ->
  consistent s ->
  consistent (exec (on_part strftime expanduser dirname e) s).
Proof.
  intros Hnb Hs. unfold exec, on_part, bind.
  pose proof (self_log_consistent "part" (source e)
                (PyStr.join " " (tail (params e))) (target e)
                (hostmask_of e) "" s Hs) as H1.
  pose proof (self_log_keeps_nickname "part" (source e)
                (PyStr.join " " (tail (params e))) (target e)
                (hostmask_of e) "" s) as Hn.
  unfold exec, same in H1, Hn.
  destruct (self_log _ _ _ _ _ _ _ _ _ s) as [[[]|x] s1];
    cbn [snd] in *; [|exact H1].
  apply leave_consistent; [congruence | exact H1].
Qed.

Lemma on_kick_consistent e s :
  IRCstr (source e) <> IRCstr (SeshetBot.nickname s) ->
  consistent s ->
  consistent (exec (on_kick strftime expanduser dirname e) s).
Proof.
  intros Hnb Hs. unfold exec, on_kick. unfold bind at 1, unwrap.
  destruct (head (params e)) as [p0|]; cbn [ret raise snd]; [|exact Hs].
  unfold bind.
  pose proof (self_log_consistent "kick" (source e)
                (PyStr.join " " (tail (params e))) (target e)
                (hostmask_of e) p0 s Hs) as H1.
  pose proof (self_log_keeps_nickname "kick" (source e)
                (PyStr.join " " (tail (params e))) (target e)
                (hostmask_of e) p0 s) as Hn.
  unfold exec, same in H1, Hn.
  destruct (self_log _ _ _ _ _ _ _ _ _ s) as [[[]|x] s1];
    cbn [snd] in *; [|exact H1].
  apply leave_consistent; [congruence | exact H1].
Qed.

Lemma on_quit_consistent e :
  keeps keeps_consistent (on_quit strftime expanduser dirname e).
Proof.
  unfold on_quit. apply keeps_bind_this. intros s.
  apply keeps_at_bind; [apply _ | |].
  - apply roster_gives_consistent. keeps_auto.
  - intros _ b Hb. by apply call_user_quit_consistent.
Qed.
End HandlersConsistent.

Lemma call_user_keeps_nickname {A} key (m : M UserCtx A) :
  keeps (same SeshetBot.nickname) (call_user key m).
Proof.
  intros b. unfold same, exec, call_user.
  destruct (dget key (SeshetBot.users b)) as [u|]; [|reflexivity].
  destruct (m (u, SeshetBot.store b)) as [r [u' st']]. reflexivity.
Qed.

Ltac nickname_auto :=
  repeat first
    [ keeps_step
    | apply call_user_keeps_nickname
    | match goal with |- keeps _ utcnow => intros ?; reflexivity end ].

Section Sequences.
Variable strftime : string -> Time -> string.
Variable expanduser : string -> string.
Variable dirname : string -> string.

Lemma scan_commands_keeps_nickname prefix argv cmds e :
  keeps (same SeshetBot.nickname) (scan_commands prefix argv cmds e).
Proof.
  induction cmds as [|[cmd f] r IH]; cbn [scan_commands]; nickname_auto.
Qed.

Lemma self_run_modules_keeps_nickname e :
  keeps (same SeshetBot.nickname) (self_run_modules e).
Proof.
  pose proof scan_commands_keeps_nickname.
  unfold self_run_modules, run_modules, _run_only_core, run_module, this.
  nickname_auto.
Qed.

Lemma prune_keeps_nickname keys a :
  keeps (same SeshetBot.nickname) (prune keys a).
Proof.
  induction keys as [|k r IH]; cbn [prune]; unfold this; nickname_auto.
Qed.

Lemma handle_keeps_nickname ev :
  keeps (same SeshetBot.nickname) (handle strftime expanduser dirname ev).
Proof.
  pose proof self_log_keeps_nickname.
  pose proof self_run_modules_keeps_nickname.
  pose proof prune_keeps_nickname.
  destruct ev; cbn [handle];
    unfold on_join, on_part, on_kick, on_quit, on_nick_change, leave, this;
    nickname_auto.
Qed.

Lemma handle_consistent ev s :
  not_by_bot (SeshetBot.nickname s) ev ->
  consistent s ->
  consistent (exec (handle strftime expanduser dirname ev) s).
Proof.
  intros Hnb Hs. destruct ev as [e|e|e|e|e]; cbn [handle not_by_bot] in *.
  - by apply on_join_consistent.
  - by apply on_part_consistent.
  - by apply on_kick_consistent.
  - by apply on_quit_consistent.
  - by apply on_nick_change_consistent.
Qed.

Lemma trace_consistent evs s :
  Forall (not_by_bot (SeshetBot.nickname s)) evs ->
  consistent s ->
  Forall consistent (trace strftime expanduser dirname evs s).
Proof.
  revert s. induction evs as [|ev evs IH]; intros s Hall Hs; cbn [trace].
  - apply List.Forall_nil.
  - apply Forall_cons in Hall as [Hev Hall].
    pose proof (handle_consistent ev s Hev Hs) as Hs'.
    apply List.Forall_cons; [exact Hs'|].
    apply IH; [|exact Hs'].
    pose proof (handle_keeps_nickname ev s) as Hn. unfold same in Hn.
    rewrite Hn. exact Hall.
Qed.

(** A roster in which nobody is known yet and no channel object has a
    member is consistent. *)
Lemma consistent_start (b : Bot) :
  SeshetBot.users b = [] ->
  (forall a c, SeshetBot.store b !! a = Some c ->
               SeshetChannel.users c = ∅) ->
  consistent b.
Proof.
  intros Hu Hst. split; rewrite ?Hu; try (intros; discriminate).
  - apply NoDup_nil_2.
  - intros a c n Hc Hn. rewrite (Hst a c Hc) in Hn.
    by apply not_elem_of_empty in Hn.
Qed.

(** With channels in the roster: from a roster like the one that names
    replies without nicks leave, the membership invariant holds after each
    event of any sequence of JOIN, PART, KICK, QUIT and NICK events whose
    PART and KICK events do not come from the bot's own identity. *)
Theorem membership_invariant_with_channels (b : Bot) (evs : list RosterEvent) :
  SeshetBot.users b = [] ->
  (forall a c, SeshetBot.store b !! a = Some c ->
               SeshetChannel.users c = ∅) ->
  Forall (not_by_bot (SeshetBot.nickname b)) evs ->
  Forall membership_invariant (trace strftime expanduser dirname evs b).
Proof.
  intros Hu Hst Hall.
  eapply List.Forall_impl; [intros s; apply consistent_membership|].
  apply trace_consistent; [exact Hall | by apply consistent_start].
Qed.
End Sequences.

Example membership_run :
  map memberships (trace strftime0 expanduser0 dirname0 busy_events
                         empty_channels)
  = [[("a", [0])];
     [("a", [0]); ("b", [0])];
     [("a", [0; 1]); ("b", [0])];
     [("a", [1]); ("b", [0])];
     [("a", [1]); ("b", [0])];
     [("b", [0])]]
  /\ Forall membership_invariant
       (trace strftime0 expanduser0 dirname0 busy_events empty_channels).
Proof.
  split; [vm_compute; reflexivity|].
  apply membership_invariant_with_channels.
  - reflexivity.
  - intros a c Hc.
    destruct a as [|[|a]]; vm_compute in Hc; [| |discriminate];
      injection Hc as <-; reflexivity.
  - repeat constructor; cbn; discriminate.
Qed.

(** * More of the bot: properties *)

(** ** The user methods *)

Lemma list_remove_app_last (a : nat) (l : list nat) :
  a ∉ l -> list_remove a (l ++ [a]) = l.
Proof.
  induction l as [|y r IH]; cbn [list_remove app].
  - intros _. rewrite Nat.eqb_refl. reflexivity.
  - intros H. apply not_elem_of_cons in H as [Hne Hr].
    destruct (Nat.eqb_spec y a); [congruence|]. rewrite IH by exact Hr.
    reflexivity.
Qed.

Lemma list_mem_app_last (a : nat) (l : list nat) : list_mem a (l ++ [a]) = true.
Proof. apply list_mem_elem_of, elem_of_app. right. by apply list_elem_of_singleton. Qed.

Ltac run_ctx :=
  cbv beta iota zeta delta
      [join part quit change_nick channels_remove bind self gets in_store zoom
       users_add users_remove mutate deref modify set_self ret raise fst snd].

Lemma join_run_new (u : SeshetUser.t) (st : Store) a c :
  st !! a = Some c -> list_mem a (SeshetUser.channels u) = false ->
  join a (u, st)
  = (Ok tt,
     (SeshetUser.set_channels (SeshetUser.channels u ++ [a]) u,
      <[a := SeshetChannel.set_users
               (fun s => s ∪ {[SeshetUser.nick u]}) c]> st)).
Proof. intros Hc Hmem. run_ctx. rewrite Hmem. cbn [negb]. rewrite Hc. reflexivity. Qed.

Lemma join_run_listed (u : SeshetUser.t) (st : Store) a :
  list_mem a (SeshetUser.channels u) = true -> join a (u, st) = (Ok tt, (u, st)).
Proof. intros Hmem. run_ctx. rewrite Hmem. reflexivity. Qed.

Lemma join_run_dangling (u : SeshetUser.t) (st : Store) a :
  st !! a = None -> list_mem a (SeshetUser.channels u) = false ->
  join a (u, st) = (Raise DanglingRef, (u, st)).
Proof. intros Hc Hmem. run_ctx. rewrite Hmem. cbn [negb]. rewrite Hc. reflexivity. Qed.

Lemma part_run_unlisted (u : SeshetUser.t) (st : Store) a :
  list_mem a (SeshetUser.channels u) = false -> part a (u, st) = (Ok tt, (u, st)).
Proof. intros Hmem. run_ctx. rewrite Hmem. reflexivity. Qed.

Lemma part_run_member (u : SeshetUser.t) (st : Store) a c :
  list_mem a (SeshetUser.channels u) = true ->
  st !! a = Some c -> SeshetUser.nick u ∈ SeshetChannel.users c ->
  part a (u, st)
  = (Ok tt,
     (SeshetUser.set_channels (list_remove a (SeshetUser.channels u)) u,
      <[a := SeshetChannel.set_users
               (fun s => s ∖ {[SeshetUser.nick u]}) c]> st)).
Proof.
  intros Hmem Hc Hn. run_ctx. rewrite Hmem, Hc.
  rewrite bool_decide_eq_true_2 by exact Hn. rewrite Hc, Hmem. reflexivity.
Qed.

Lemma part_run_missing (u : SeshetUser.t) (st : Store) a c :
  list_mem a (SeshetUser.channels u) = true ->
  st !! a = Some c -> SeshetUser.nick u ∉ SeshetChannel.users c ->
  part a (u, st) = (Raise KeyError, (u, st)).
Proof.
  intros Hmem Hc Hn. run_ctx. rewrite Hmem, Hc.
  rewrite bool_decide_eq_false_2 by exact Hn. reflexivity.
Qed.

Lemma bind_run {S A B} (c : M S A) (k : A -> M S B) s a s' :
  c s = (Ok a, s') -> bind c k s = k a s'.
Proof. intros H. unfold bind. rewrite H. reflexivity. Qed.

Lemma bind_raise {S A B} (c : M S A) (k : A -> M S B) s x s' :
  c s = (Raise x, s') -> bind c k s = (Raise x, s').
Proof. intros H. unfold bind. rewrite H. reflexivity. Qed.

(** X1: joining a channel and parting from it again leaves the user object
    and every channel object as they were. *)
Theorem join_part_round_trip
    (u : SeshetUser.t) (st : Store) (a : nat) (c : SeshetChannel.t) :
  st !! a = Some c ->
  list_mem a (SeshetUser.channels u) = false ->
  SeshetUser.nick u ∉ SeshetChannel.users c ->
  (join a ;; part a) (u, st) = (Ok tt, (u, st)).
Proof.
  intros Hc Hmem Hn.
  assert (Hlt : a < length st) by (by eapply lookup_lt_Some).
  erewrite bind_run by (by apply join_run_new).
  rewrite (part_run_member _ _ a
             (SeshetChannel.set_users
                (fun s => s ∪ {[SeshetUser.nick u]}) c)).
  - cbn [SeshetUser.set_channels SeshetUser.channels SeshetUser.nick].
    rewrite list_insert_insert_eq.
    rewrite list_remove_app_last by (rewrite <- list_mem_elem_of; congruence).
    f_equal. f_equal; [destruct u; reflexivity|].
    apply list_insert_id. rewrite Hc. f_equal.
    destruct c as [nm us ml sz]. unfold SeshetChannel.set_users. cbn in *.
    f_equal. set_solver.
  - cbn. apply list_mem_app_last.
  - apply list_lookup_insert_eq. exact Hlt.
  - cbn. apply elem_of_union. right. by apply elem_of_singleton.
Qed.

Lemma join_part_round_trip_witness :
  (join 0 ;; part 0)
    (SeshetUser.init "Al" "al" "host", [SeshetChannel.init "#c" {["bo"]} 100])
  = (Ok tt,
     (SeshetUser.init "Al" "al" "host", [SeshetChannel.init "#c" {["bo"]} 100])).
Proof.
  apply (join_part_round_trip (SeshetUser.init "Al" "al" "host")
           [SeshetChannel.init "#c" {["bo"]} 100] 0
           (SeshetChannel.init "#c" {["bo"]} 100)).
  - reflexivity.
  - reflexivity.
  - cbn. intros H. apply elem_of_singleton in H. discriminate.
Defined.

(** X2: [join] never lists a channel twice: a second [join] of the same
    channel changes nothing, whatever the first one did, and a channel list
    without repetitions stays so. *)
Theorem join_idempotent (a : nat) (x : UserCtx) :
  (join a ;; join a) x = join a x
  /\ (NoDup (SeshetUser.channels (fst x)) ->
      NoDup (SeshetUser.channels (fst (exec (join a) x)))).
Proof.
  destruct x as [u st].
  destruct (list_mem a (SeshetUser.channels u)) eqn:Hmem.
  - rewrite (bind_run _ _ _ tt (u, st)) by (by apply join_run_listed).
    unfold exec. rewrite join_run_listed by exact Hmem. auto.
  - destruct (st !! a) as [c|] eqn:Hc.
    + erewrite bind_run by (by apply join_run_new).
      unfold exec. rewrite (join_run_new u st a c) by assumption.
      split.
      * apply join_run_listed. cbn. apply list_mem_app_last.
      * cbn. intros Hnd. apply NoDup_app.
        repeat split; [exact Hnd | | apply NoDup_singleton].
        intros y Hy Hy'. apply list_elem_of_singleton in Hy' as ->.
        apply list_mem_elem_of in Hy. congruence.
    + erewrite bind_raise by (by apply join_run_dangling).
      unfold exec. rewrite join_run_dangling by assumption. auto.
Qed.

(** X3: [part] from a listed channel, in whose set the nick is, takes the
    channel out of the list and the nick out of that set, and touches
    nothing else: the other channels of the list and the other channel
    objects are as before. *)
Theorem part_unlinks
    (u : SeshetUser.t) (st : Store) (a : nat) (c : SeshetChannel.t) :
  NoDup (SeshetUser.channels u) ->
  a ∈ SeshetUser.channels u ->
  st !! a = Some c ->
  SeshetUser.nick u ∈ SeshetChannel.users c ->
  exists u' st' c',
    part a (u, st) = (Ok tt, (u', st'))
    /\ SeshetUser.nick u' = SeshetUser.nick u
    /\ (forall x, x ∈ SeshetUser.channels u'
                  <-> x ∈ SeshetUser.channels u /\ x <> a)
    /\ st' !! a = Some c'
    /\ SeshetChannel.users c' = SeshetChannel.users c ∖ {[SeshetUser.nick u]}
    /\ SeshetChannel.message_log c' = SeshetChannel.message_log c
    /\ (forall a', a' <> a -> st' !! a' = st !! a').
Proof.
  intros Hnd Ha Hc Hn.
  assert (Hlt : a < length st) by (by eapply lookup_lt_Some).
  eexists _, _, _. split; [apply part_run_member; eauto|].
  { by apply list_mem_elem_of. }
  cbn [SeshetUser.set_channels SeshetUser.channels SeshetUser.nick].
  split; [reflexivity|]. split; [intros x; by apply list_remove_elem_of|].
  split; [by apply list_lookup_insert_eq|].
  split; [reflexivity|]. split; [reflexivity|].
  intros a' Hne. apply list_lookup_insert_ne. congruence.
Qed.

Lemma part_unlinks_witness :
  exists u' st' c',
    part 0 (al_user, al_store) = (Ok tt, (u', st'))
    /\ SeshetUser.nick u' = SeshetUser.nick al_user
    /\ (forall x, x ∈ SeshetUser.channels u'
                  <-> x ∈ SeshetUser.channels al_user /\ x <> 0)
    /\ st' !! 0 = Some c'
    /\ SeshetChannel.users c'
       = SeshetChannel.users chan_c ∖ {[SeshetUser.nick al_user]}
    /\ SeshetChannel.message_log c' = SeshetChannel.message_log chan_c
    /\ (forall a', a' <> 0 -> st' !! a' = al_store !! a').
Proof.
  apply (part_unlinks al_user al_store 0 chan_c).
  - cbn. repeat constructor; rewrite ?elem_of_cons, ?elem_of_nil; intuition lia.
  - cbn. rewrite !elem_of_cons. auto.
  - reflexivity.
  - cbn. apply elem_of_union. left. by apply elem_of_singleton.
Defined.

(** X4: [quit] of a user who is a member of each channel listed, each once:
    it returns, the list is empty afterwards, the nick is out of the set of
    every channel that was listed, and no other channel object changes. *)
Theorem quit_leaves_every_channel (u : SeshetUser.t) (st : Store) :
  NoDup (SeshetUser.channels u) ->
  (forall a, a ∈ SeshetUser.channels u ->
     exists c, st !! a = Some c
               /\ SeshetUser.nick u ∈ SeshetChannel.users c) ->
  exists st',
    quit (u, st) = (Ok tt, (SeshetUser.set_channels [] u, st'))
    /\ (forall a c', a ∈ SeshetUser.channels u -> st' !! a = Some c' ->
          SeshetUser.nick u ∉ SeshetChannel.users c')
    /\ (forall a, a ∉ SeshetUser.channels u -> st' !! a = st !! a).
Proof.
  intros Hnd Hall.
  destruct (quit_loop u (SeshetUser.nick u) (SeshetUser.channels u) st
              Hnd Hall) as (st' & Hrun & Hlook).
  exists st'. split; [|split].
  - unfold quit. unfold bind at 1, self, gets. cbn [fst snd].
    erewrite bind_run by exact Hrun. reflexivity.
  - intros a c' Ha. rewrite Hlook, decide_True by exact Ha.
    destruct (st !! a) as [c|]; [|discriminate]. cbn. intros [= <-]. cbn.
    rewrite elem_of_difference, elem_of_singleton. tauto.
  - intros a Ha. rewrite Hlook, decide_False by exact Ha. reflexivity.
Qed.

Lemma quit_leaves_every_channel_witness :
  exists st',
    quit (al_user, al_store) = (Ok tt, (SeshetUser.set_channels [] al_user, st'))
    /\ (forall a c', a ∈ SeshetUser.channels al_user -> st' !! a = Some c' ->
          SeshetUser.nick al_user ∉ SeshetChannel.users c')
    /\ (forall a, a ∉ SeshetUser.channels al_user -> st' !! a = al_store !! a).
Proof.
  apply (quit_leaves_every_channel al_user al_store).
  - cbn. repeat constructor; rewrite ?elem_of_cons, ?elem_of_nil; intuition lia.
  - cbn. intros a Ha. rewrite !elem_of_cons, elem_of_nil in Ha.
    destruct Ha as [->|[->|[]]]; eexists; (split; [reflexivity|]); cbn.
    + by apply elem_of_singleton.
    + apply elem_of_union. left. by apply elem_of_singleton.
Defined.

(** The loop of [change_nick]: in every listed channel the old nick goes
    and the new one comes. *)
Lemma rename_loop (u : SeshetUser.t) (old new : string) (l : list nat)
    (st : Store) :
  NoDup l ->
  (forall a, a ∈ l ->
     exists c, st !! a = Some c /\ old ∈ SeshetChannel.users c) ->
  exists st',
    for_each l (fun c => in_store (users_remove c old) ;;
                         in_store (users_add c new)) (u, st)
    = (Ok tt, (u, st'))
    /\ forall a,
         st' !! a
         = if decide (a ∈ l)
           then SeshetChannel.set_users (fun s => s ∖ {[old]} ∪ {[new]})
                  <$> st !! a
           else st !! a.
Proof.
  revert st. induction l as [|a r IH]; intros st Hnd Hall.
  - exists st. split; [reflexivity|]. intros a.
    case_decide as H; [by apply elem_of_nil in H | reflexivity].
  - apply NoDup_cons in Hnd as [Ha Hnd].
    destruct (Hall a) as (c & Hc & Hn); [apply elem_of_cons; by left|].
    assert (Hlt : a < length st) by (by eapply lookup_lt_Some).
    set (st1 := <[a := SeshetChannel.set_users
                         (fun s => s ∖ {[old]} ∪ {[new]}) c]> st).
    destruct (IH st1 Hnd) as (st' & Hrun & Hlook).
    { intros a' Ha'. assert (a' <> a) by (intros ->; contradiction).
      unfold st1. rewrite list_lookup_insert_ne by congruence.
      apply Hall. apply elem_of_cons. by right. }
    exists st'. split.
    + cbn [for_each]. unfold bind at 1.
      assert (Hstep : (in_store (users_remove a old) ;;
                       in_store (users_add a new)) (u, st)
                      = (Ok tt, (u, st1))).
      { run_ctx. rewrite Hc. rewrite bool_decide_eq_true_2 by exact Hn.
        rewrite Hc. rewrite list_lookup_insert_eq by exact Hlt.
        unfold st1. rewrite list_insert_insert_eq. reflexivity. }
      rewrite Hstep. exact Hrun.
    + intros a0. rewrite Hlook. unfold st1.
      destruct (decide (a0 = a)) as [->|Hne].
      * rewrite list_lookup_insert_eq by exact Hlt.
        rewrite decide_False by exact Ha.
        rewrite decide_True by (apply elem_of_cons; by left).
        rewrite Hc. reflexivity.
      * rewrite list_lookup_insert_ne by congruence.
        destruct (decide (a0 ∈ r)) as [Hr|Hr].
        -- rewrite decide_True by (apply elem_of_cons; by right). reflexivity.
        -- rewrite decide_False; [reflexivity|].
           rewrite elem_of_cons. tauto.
Qed.

(** X5: [change_nick] of a user who is a member of each channel listed:
    the user object takes the new nick and keeps its channel list, in the
    set of every listed channel the new nick stands for the old one, and no
    other channel object changes. *)
Theorem change_nick_renames_in_channels
    (u : SeshetUser.t) (st : Store) (nick : string) :
  NoDup (SeshetUser.channels u) ->
  (forall a, a ∈ SeshetUser.channels u ->
     exists c, st !! a = Some c
               /\ SeshetUser.nick u ∈ SeshetChannel.users c) ->
  exists st',
    change_nick nick (u, st)
    = (Ok tt, (SeshetUser.set_nick (IRCstr nick) u, st'))
    /\ (forall a c, a ∈ SeshetUser.channels u -> st !! a = Some c ->
          exists c',
            st' !! a = Some c'
            /\ SeshetChannel.users c'
               = SeshetChannel.users c ∖ {[SeshetUser.nick u]}
                 ∪ {[IRCstr nick]})
    /\ (forall a, a ∉ SeshetUser.channels u -> st' !! a = st !! a).
Proof.
  intros Hnd Hall.
  destruct (rename_loop (SeshetUser.set_nick (IRCstr nick) u)
              (SeshetUser.nick u) (IRCstr nick) (SeshetUser.channels u) st
              Hnd Hall) as (st' & Hrun & Hlook).
  exists st'. split; [|split].
  - unfold change_nick. unfold bind at 1, self, gets. cbn [fst snd].
    unfold bind at 1, set_self, modify. cbn [fst snd]. exact Hrun.
  - intros a c Ha Hc. rewrite Hlook, decide_True by exact Ha.
    rewrite Hc. eexists. split; reflexivity.
  - intros a Ha. rewrite Hlook, decide_False by exact Ha. reflexivity.
Qed.

Lemma change_nick_renames_in_channels_witness :
  exists st',
    change_nick "Alan" (al_user, al_store)
    = (Ok tt, (SeshetUser.set_nick (IRCstr "Alan") al_user, st'))
    /\ (forall a c, a ∈ SeshetUser.channels al_user -> al_store !! a = Some c ->
          exists c',
            st' !! a = Some c'
            /\ SeshetChannel.users c'
               = SeshetChannel.users c ∖ {[SeshetUser.nick al_user]}
                 ∪ {[IRCstr "Alan"]})
    /\ (forall a, a ∉ SeshetUser.channels al_user -> st' !! a = al_store !! a).
Proof.
  apply (change_nick_renames_in_channels al_user al_store "Alan").
  - cbn. repeat constructor; rewrite ?elem_of_cons, ?elem_of_nil; intuition lia.
  - cbn. intros a Ha. rewrite !elem_of_cons, elem_of_nil in Ha.
    destruct Ha as [->|[->|[]]]; eexists; (split; [reflexivity|]); cbn.
    + by apply elem_of_singleton.
    + apply elem_of_union. left. by apply elem_of_singleton.
Defined.

(** ** The newest message *)

Lemma last_drop_app_one {A} (l : list A) (x : A) (k : nat) :
  k <= length l -> last (drop k (l ++ [x])) = Some x.
Proof.
  intros Hk. rewrite drop_app_le by exact Hk. apply last_snoc.
Qed.

(** X6: with a cap of at least one the message just logged is the last
    entry of the log, whatever was there before; with a cap of zero the log
    is empty after every call.  Name, user set and cap are not touched. *)
Theorem log_message_keeps_newest
    (t : nat) (u : Author) (m : string) (c : SeshetChannel.t) :
  let c' := SeshetChannel.log_message t u m c in
  (0 < SeshetChannel._log_size c ->
   last (SeshetChannel.message_log c') = Some (entry_of (t, u, m)))
  /\ (SeshetChannel._log_size c = 0 -> SeshetChannel.message_log c' = [])
  /\ SeshetChannel.name c' = SeshetChannel.name c
  /\ SeshetChannel.users c' = SeshetChannel.users c
  /\ SeshetChannel._log_size c' = SeshetChannel._log_size c.
Proof.
  intros c'. subst c'. rewrite log_message_log.
  split; [|split; [|repeat split]].
  - intros Hpos. apply last_drop_app_one. lia.
  - intros Hz. rewrite Hz, Nat.sub_0_r.
    apply drop_ge. rewrite length_app. cbn. lia.
Qed.

Lemma log_message_keeps_newest_witness :
  last (SeshetChannel.message_log
          (SeshetChannel.log_message 5 (AStr "Bo") "hey" chan_c))
  = Some (entry_of (5, AStr "Bo", "hey"))
  /\ SeshetChannel.message_log
       (SeshetChannel.log_message 5 (AStr "Bo") "hey"
          (SeshetChannel.init "#c" ∅ 0)) = [].
Proof.
  split.
  - apply (proj1 (log_message_keeps_newest 5 (AStr "Bo") "hey" chan_c)).
    cbn. lia.
  - apply (proj1 (proj2 (log_message_keeps_newest 5 (AStr "Bo") "hey"
                           (SeshetChannel.init "#c" ∅ 0)))).
    reflexivity.
Defined.

(** ** Messages to a known channel *)

Section KnownChannel.
Variable strftime : string -> nat -> string.
Variable expanduser : string -> string.
Variable dirname : string -> string.

(** X7: with a database, a message whose target, the raw string as it
    came, finds a channel in the channel dict -- it is the canonical
    spelling of a channel of the roster -- is put into the log of that
    channel's object, with the clock reading that follows the one of the
    event log and the sender as identity -- also when module dispatch
    raises afterwards; the dicts and the other channel objects are as
    before. *)
Theorem on_message_caches (b : Bot) (d : DB) (e : Event) (a : nat)
    (c : SeshetChannel.t) :
  SeshetBot.db b = Some d ->
  dget_raw (target e) (SeshetBot.channels b) = Some a ->
  SeshetBot.store b !! a = Some c ->
  let b' := exec (on_message strftime expanduser dirname e) b in
  SeshetBot.store b'
  = <[a := SeshetChannel.log_message (S (SeshetBot.now b))
             (AStr (source e)) (message e) c]> (SeshetBot.store b)
  /\ SeshetBot.users b' = SeshetBot.users b
  /\ SeshetBot.channels b' = SeshetBot.channels b.
Proof.
  intros Hd Ha Hc b'.
  assert (Hr : roster b'
               = (SeshetBot.channels b, SeshetBot.users b,
                  <[a := SeshetChannel.log_message (S (SeshetBot.now b))
                           (AStr (source e)) (message e) c]>
                    (SeshetBot.store b))).
  2:{ unfold roster in Hr. injection Hr as Hch Hus Hst. auto. }
  subst b'. unfold roster at 1, exec, on_message.
  set (run := bind _ _).
  assert (Hgoal : roster (snd (run b))
               = (SeshetBot.channels b, SeshetBot.users b,
                  <[a := SeshetChannel.log_message (S (SeshetBot.now b))
                           (AStr (source e)) (message e) c]>
                    (SeshetBot.store b))); [|exact Hgoal].
  subst run.
  erewrite bind_run by (by apply (self_log_db _ _ _ _ d)).
  unfold this. unfold bind at 1. cbn [gets].
  cbn [SeshetBot.channels SeshetBot.set_db SeshetBot.set_now].
  unfold dmem_raw. rewrite Ha.
  match goal with
  | |- context [bind ?c0 ?k ?s] =>
      assert (Hrun : c0 s
        = (Ok tt,
           SeshetBot.set_store
             (<[a := SeshetChannel.log_message (S (SeshetBot.now b))
                       (AStr (source e)) (message e) c]>
                (SeshetBot.store b))
             (SeshetBot.set_now (S (S (SeshetBot.now b))) s)))
  end.
  { unfold bind at 1. cbn [unwrap ret]. unfold bind at 1, utcnow.
    cbn [SeshetBot.now SeshetBot.set_now SeshetBot.set_db].
    unfold in_bot_store, zoom, mutate, bind, deref, modify.
    cbn [SeshetBot.store SeshetBot.set_now SeshetBot.set_db fst snd].
    rewrite Hc. reflexivity. }
  erewrite bind_run by exact Hrun. cbv beta.
  assert (Htail : keeps (same roster) (self_run_modules e ;; ret tt)).
  { apply keeps_bind; [apply _ | apply self_run_modules_keeps_roster |].
    intros _. apply keeps_ret. apply _. }
  match goal with
  | |- context [snd (_ ?s)] => specialize (Htail s)
  end.
  unfold same, exec in Htail. rewrite Htail. reflexivity.
Qed.
End KnownChannel.

Lemma on_message_caches_witness :
  let b' := exec (on_message strftime0 expanduser0 dirname0
                             (privmsg "A" "#test" "hello")) ping_bot in
  SeshetBot.store b'
  = <[0 := SeshetChannel.log_message (S (SeshetBot.now ping_bot))
             (AStr (source (privmsg "A" "#test" "hello")))
             (message (privmsg "A" "#test" "hello")) ping_chan]>
      (SeshetBot.store ping_bot)
  /\ SeshetBot.users b' = SeshetBot.users ping_bot
  /\ SeshetBot.channels b' = SeshetBot.channels ping_bot.
Proof.
  apply (on_message_caches strftime0 expanduser0 dirname0 ping_bot
           (mkDB [] [ping_mod]) (privmsg "A" "#test" "hello") 0 ping_chan).
  - reflexivity.
  - reflexivity.
  - vm_compute. reflexivity.
Defined.

(** ** Joins *)

Lemma dset_absent {V} (d : dict V) k v :
  dget k d = None -> dset k v d = d ++ [(k, v)].
Proof.
  induction d as [|[k' v'] r IH]; cbn [dget dset app]; [reflexivity|].
  destruct (String.eqb k' k); [discriminate|].
  intros H. rewrite IH by exact H. reflexivity.
Qed.

Lemma call_user_run {A} (b : Bot) key (m : M UserCtx A) u r u' st' :
  dget key (SeshetBot.users b) = Some u ->
  m (u, SeshetBot.store b) = (r, (u', st')) ->
  call_user key m b
  = (r, SeshetBot.set_store st' (SeshetBot.set_users (dset key u') b)).
Proof. intros Hu Hm. unfold call_user. rewrite Hu, Hm. reflexivity. Qed.

Section Joins.
Variable strftime : string -> nat -> string.
Variable expanduser : string -> string.
Variable dirname : string -> string.

(** X8: with a database, the JOIN of an unknown nick to a channel that is
    not in the roster raises [KeyError] after the user object was made:
    the nick stays in the user dict, last, with an empty channel list.
    The event is in the event log; channels and handler calls are as
    before. *)
Theorem on_join_unknown_channel (b : Bot) (d : DB) (e : Event) :
  SeshetBot.db b = Some d ->
  source e <> SeshetBot.nickname b ->
  dget (IRCstr (source e)) (SeshetBot.users b) = None ->
  dget (IRCstr (target e)) (SeshetBot.channels b) = None ->
  let b' := exec (on_join strftime expanduser dirname e) b in
  outcome (on_join strftime expanduser dirname e) b = Raise KeyError
  /\ SeshetBot.users b'
     = SeshetBot.users b
       ++ [(IRCstr (source e),
            SeshetUser.mk (IRCstr (source e)) (e_user e) (e_host e) [])]
  /\ SeshetBot.channels b' = SeshetBot.channels b
  /\ SeshetBot.store b' = SeshetBot.store b
  /\ SeshetBot.calls b' = SeshetBot.calls b
  /\ SeshetBot.db b'
     = Some (mkDB (event_log d
                   ++ [mkRow "join" (SeshetBot.now b) (source e) (target e)
                             "" (hostmask_of e) ""])
                  (modules d)).
Proof.
  intros Hd Hsrc Hu Hch b'.
  assert (Hrun : on_join strftime expanduser dirname e b
            = (Raise KeyError,
               SeshetBot.set_users
                 (dset (IRCstr (source e))
                       (SeshetUser.init (IRCstr (source e)) (e_user e)
                                        (e_host e)))
                 (SeshetBot.set_db
                    (Some (mkDB (event_log d
                                 ++ [mkRow "join" (SeshetBot.now b)
                                           (source e) (target e) ""
                                           (hostmask_of e) ""])
                                (modules d)))
                    (SeshetBot.set_now (S (SeshetBot.now b)) b)))).
  { unfold on_join.
    erewrite bind_run by (by apply (self_log_db _ _ _ _ d)).
    unfold this. unfold bind at 1. cbn [gets].
    cbn [SeshetBot.nickname SeshetBot.set_db SeshetBot.set_now
         SeshetBot.users SeshetBot.channels].
    unfold PyStr.eqb. rewrite bool_decide_eq_false_2 by exact Hsrc.
    cbn [negb]. unfold dmem. rewrite Hu. cbn [negb].
    unfold bind, modify, gets, unwrap.
    cbn [SeshetBot.users SeshetBot.set_users SeshetBot.channels
         SeshetBot.set_db SeshetBot.set_now].
    rewrite dget_dset_eq, Hch. reflexivity. }
  subst b'. unfold exec, outcome. rewrite Hrun.
  cbn [fst snd SeshetBot.users SeshetBot.set_users SeshetBot.channels
       SeshetBot.store SeshetBot.calls SeshetBot.db SeshetBot.set_db
       SeshetBot.set_now].
  rewrite dset_absent by exact Hu. unfold SeshetUser.init.
  rewrite IRCstr_idem. auto 10.
Qed.
End Joins.

Lemma on_join_unknown_channel_witness :
  let e := join_event "A" "#nowhere" in
  let b' := exec (on_join strftime0 expanduser0 dirname0 e) db_bot in
  outcome (on_join strftime0 expanduser0 dirname0 e) db_bot = Raise KeyError
  /\ SeshetBot.users b'
     = SeshetBot.users db_bot
       ++ [(IRCstr (source e),
            SeshetUser.mk (IRCstr (source e)) (e_user e) (e_host e) [])]
  /\ SeshetBot.channels b' = SeshetBot.channels db_bot
  /\ SeshetBot.store b' = SeshetBot.store db_bot
  /\ SeshetBot.calls b' = SeshetBot.calls db_bot
  /\ SeshetBot.db b'
     = Some (mkDB (event_log (mkDB [] [])
                   ++ [mkRow "join" (SeshetBot.now db_bot) (source e)
                             (target e) "" (hostmask_of e) ""])
                  (modules (mkDB [] []))).
Proof.
  intros e.
  apply (on_join_unknown_channel strftime0 expanduser0 dirname0 db_bot
           (mkDB [] []) e).
  - reflexivity.
  - discriminate.
  - reflexivity.
  - reflexivity.
Defined.

Lemma call_user_join_lists (b : Bot) k a u c :
  dget k (SeshetBot.users b) = Some u ->
  SeshetBot.store b !! a = Some c ->
  exists b' u',
    call_user k (join a) b = (Ok tt, b')
    /\ dget k (SeshetBot.users b') = Some u'
    /\ a ∈ SeshetUser.channels u'
    /\ SeshetBot.channels b' = SeshetBot.channels b
    /\ SeshetBot.db b' = SeshetBot.db b.
Proof.
  intros Hu Hc.
  destruct (list_mem a (SeshetUser.channels u)) eqn:Hmem.
  - eexists _, u. split.
    { eapply call_user_run; [exact Hu | by apply join_run_listed]. }
    cbn. rewrite dget_dset_eq. repeat split. by apply list_mem_elem_of.
  - eexists _, _. split.
    { eapply call_user_run; [exact Hu | by apply (join_run_new _ _ _ c)]. }
    cbn. rewrite dget_dset_eq. repeat split.
    cbn. apply elem_of_app. right. by apply list_elem_of_singleton.
Qed.

Section JoinLinks.
Variable strftime : string -> nat -> string.
Variable expanduser : string -> string.
Variable dirname : string -> string.

(** X9: with a database and a consistent roster, after the JOIN of
    somebody else than the bot to a channel of the roster the nick has a
    user object that lists the channel, the channel's set holds the nick,
    and the roster is consistent again -- whether the nick was known or
    not, a member already or not. *)
Theorem on_join_links (b : Bot) (d : DB) (e : Event) (a : nat)
    (c : SeshetChannel.t) :
  consistent b ->
  SeshetBot.db b = Some d ->
  source e <> SeshetBot.nickname b ->
  dget (IRCstr (target e)) (SeshetBot.channels b) = Some a ->
  SeshetBot.store b !! a = Some c ->
  let b' := exec (on_join strftime expanduser dirname e) b in
  exists u' c',
    dget (IRCstr (source e)) (SeshetBot.users b') = Some u'
    /\ a ∈ SeshetUser.channels u'
    /\ SeshetBot.store b' !! a = Some c'
    /\ IRCstr (source e) ∈ SeshetChannel.users c'
    /\ consistent b'.
Proof.
  intros Hb Hd Hsrc Ha Hc b'.
  assert (Hcons : consistent b')
    by (by apply on_join_consistent).
  assert (Hlist : exists u', dget (IRCstr (source e)) (SeshetBot.users b')
                             = Some u' /\ a ∈ SeshetUser.channels u').
  2:{ destruct Hlist as (u' & Hu' & Hin).
      destruct (cons_member b' Hcons _ u' a Hu' Hin) as (c' & Hc' & Hk).
      exists u', c'. auto. }
  subst b'. clear Hcons. unfold exec, on_join.
  erewrite bind_run by (by apply (self_log_db _ _ _ _ d)).
  unfold this. unfold bind at 1. cbn [gets].
  cbn [SeshetBot.nickname SeshetBot.set_db SeshetBot.set_now
       SeshetBot.users SeshetBot.channels].
  unfold PyStr.eqb. rewrite bool_decide_eq_false_2 by exact Hsrc.
  cbn [negb].
  set (b1 := SeshetBot.set_db _ _).
  set (nick := IRCstr (source e)).
  set (b2 := if dmem nick (SeshetBot.users b)
             then b1
             else SeshetBot.set_users
                    (dset nick (SeshetUser.init nick (e_user e) (e_host e)))
                    b1).
  assert (Hens : (if negb (dmem nick (SeshetBot.users b))
                  then modify (SeshetBot.set_users
                         (dset nick (SeshetUser.init nick (e_user e)
                                                     (e_host e))))
                  else ret tt) b1 = (Ok tt, b2)).
  { unfold b2. destruct (dmem nick (SeshetBot.users b)); reflexivity. }
  assert (Hu2 : exists u, dget nick (SeshetBot.users b2) = Some u).
  { unfold b2, dmem. destruct (dget nick (SeshetBot.users b)) as [u|] eqn:Hu.
    - exists u. exact Hu.
    - eexists. cbn. apply dget_dset_eq. }
  destruct Hu2 as (u & Hu2).
  assert (Hch2 : SeshetBot.channels b2 = SeshetBot.channels b)
    by (unfold b2; destruct (dmem _ _); reflexivity).
  assert (Hst2 : SeshetBot.store b2 = SeshetBot.store b)
    by (unfold b2; destruct (dmem _ _); reflexivity).
  destruct (call_user_join_lists b2 nick a u c Hu2)
    as (b3 & u' & Hrun & Hu' & Hin & _ & _); [by rewrite Hst2|].
  erewrite bind_run; cycle 1.
  { erewrite bind_run by exact Hens.
    unfold bind at 1. cbn [gets]. rewrite Hu2. unfold bind at 1.
    cbn [unwrap ret]. rewrite Hch2, Ha. unfold bind at 1. cbn [unwrap ret].
    exact Hrun. }
  cbv beta.
  assert (Htail : keeps (same roster) (self_run_modules e ;; ret tt)).
  { apply keeps_bind; [apply _ | apply self_run_modules_keeps_roster |].
    intros _. apply keeps_ret. apply _. }
  specialize (Htail b3). unfold same, roster, exec in Htail.
  injection Htail as _ Hus _. rewrite Hus. eauto.
Qed.

(** X10: the JOIN of a nick that is a member of the channel already
    leaves the roster as it is: no second entry in the user's list. *)
Theorem on_join_member_keeps_roster (b : Bot) (e : Event) (a : nat)
    (u : SeshetUser.t) :
  source e <> SeshetBot.nickname b ->
  dget (IRCstr (source e)) (SeshetBot.users b) = Some u ->
  dget (IRCstr (target e)) (SeshetBot.channels b) = Some a ->
  a ∈ SeshetUser.channels u ->
  roster (exec (on_join strftime expanduser dirname e) b) = roster b.
Proof.
  intros Hsrc Hu Ha Hin. unfold exec, on_join.
  pose proof (self_log_keeps_roster strftime expanduser dirname "join"
                (source e) "" (target e) (hostmask_of e) "" b) as Hr.
  pose proof (self_log_keeps_nickname strftime expanduser dirname "join"
                (source e) "" (target e) (hostmask_of e) "" b) as Hn.
  unfold same, exec in Hr, Hn. unfold bind at 1.
  destruct (self_log _ _ _ _ _ _ _ _ _ b) as [[[]|x] b1];
    cbn [snd] in *; [|exact Hr].
  unfold roster in Hr. injection Hr as Hch Hus Hst.
  unfold this. unfold bind at 1. cbn [gets]. rewrite Hn.
  unfold PyStr.eqb. rewrite bool_decide_eq_false_2 by exact Hsrc.
  cbn [negb]. unfold dmem. rewrite Hus, Hu. cbn [negb].
  assert (Hrun : call_user (IRCstr (source e)) (join a) b1
                 = (Ok tt, SeshetBot.set_store (SeshetBot.store b1)
                             (SeshetBot.set_users
                                (dset (IRCstr (source e)) u) b1))).
  { eapply call_user_run; [by rewrite Hus|].
    apply join_run_listed. by apply list_mem_elem_of. }
  erewrite bind_run; cycle 1.
  { unfold bind at 1. cbn [ret]. unfold bind at 1. cbn [gets].
    rewrite Hus, Hu. unfold bind at 1. cbn [unwrap ret].
    rewrite Hch, Ha. unfold bind at 1. cbn [unwrap ret]. exact Hrun. }
  cbv beta.
  assert (Htail : keeps (same roster) (self_run_modules e ;; ret tt)).
  { apply keeps_bind; [apply _ | apply self_run_modules_keeps_roster |].
    intros _. apply keeps_ret. apply _. }
  match goal with |- context [snd (_ ?s)] => specialize (Htail s) end.
  unfold same, exec in Htail. rewrite Htail. unfold roster. cbn.
  rewrite dset_id by (by rewrite Hus). congruence.
Qed.

(** X11: the bot's own JOIN is logged and changes nothing in the roster:
    the bot gets no user object and is put into no channel's set. *)
Theorem on_join_own_keeps_roster (b : Bot) (e : Event) :
  source e = SeshetBot.nickname b ->
  roster (exec (on_join strftime expanduser dirname e) b) = roster b.
Proof.
  intros Hsrc. unfold exec, on_join.
  pose proof (self_log_keeps_roster strftime expanduser dirname "join"
                (source e) "" (target e) (hostmask_of e) "" b) as Hr.
  pose proof (self_log_keeps_nickname strftime expanduser dirname "join"
                (source e) "" (target e) (hostmask_of e) "" b) as Hn.
  unfold same, exec in Hr, Hn. unfold bind at 1.
  destruct (self_log _ _ _ _ _ _ _ _ _ b) as [[[]|x] b1];
    cbn [snd] in *; [|exact Hr].
  unfold this. unfold bind at 1. cbn [gets]. rewrite Hn.
  unfold PyStr.eqb. rewrite bool_decide_eq_true_2 by exact Hsrc.
  cbn [negb]. unfold bind at 1. cbn [ret].
  assert (Htail : keeps (same roster) (self_run_modules e ;; ret tt)).
  { apply keeps_bind; [apply _ | apply self_run_modules_keeps_roster |].
    intros _. apply keeps_ret. apply _. }
  specialize (Htail b1). unfold same, exec in Htail. rewrite Htail.
  exact Hr.
Qed.
End JoinLinks.

Lemma empty_channels_consistent : consistent empty_channels.
Proof.
  apply consistent_start; [reflexivity|].
  intros a c Hc.
  destruct a as [|[|a]]; vm_compute in Hc; [| |discriminate];
    injection Hc as <-; reflexivity.
Qed.

Lemma on_join_links_witness :
  let b' := exec (on_join strftime0 expanduser0 dirname0
                          (join_event "A" "#c")) empty_channels in
  exists u' c',
    dget (IRCstr (source (join_event "A" "#c"))) (SeshetBot.users b')
    = Some u'
    /\ 0 ∈ SeshetUser.channels u'
    /\ SeshetBot.store b' !! 0 = Some c'
    /\ IRCstr (source (join_event "A" "#c")) ∈ SeshetChannel.users c'
    /\ consistent b'.
Proof.
  apply (on_join_links strftime0 expanduser0 dirname0 empty_channels
           (mkDB [] []) (join_event "A" "#c") 0
           (SeshetChannel.init "#c" ∅ 100)).
  - exact empty_channels_consistent.
  - reflexivity.
  - discriminate.
  - reflexivity.
  - vm_compute. reflexivity.
Defined.

Lemma on_join_member_keeps_roster_witness :
  roster (exec (on_join strftime0 expanduser0 dirname0 (join_event "A" "#c"))
               roster_a)
  = roster roster_a.
Proof.
  apply (on_join_member_keeps_roster strftime0 expanduser0 dirname0 roster_a
           (join_event "A" "#c") 0 (SeshetUser.mk "a" "A" "host" [0])).
  - discriminate.
  - vm_compute. reflexivity.
  - vm_compute. reflexivity.
  - cbn. apply list_elem_of_singleton. reflexivity.
Defined.

Lemma on_join_own_keeps_roster_witness :
  roster (exec (on_join strftime0 expanduser0 dirname0
                        (join_event "Bot" "#c")) empty_channels)
  = roster empty_channels.
Proof.
  apply (on_join_own_keeps_roster strftime0 expanduser0 dirname0
           empty_channels (join_event "Bot" "#c")).
  reflexivity.
Defined.

(** ** What the handlers leave alone *)

#[export] Instance log_grows_preorder : PreOrder log_grows.
Proof.
  split.
  - intros b. unfold log_grows. destruct (SeshetBot.db b) as [d|];
      [|reflexivity].
    exists []. rewrite app_nil_r. by destruct d.
  - intros a b c. unfold log_grows.
    destruct (SeshetBot.db a) as [d|].
    + intros [r1 ->] [r2 ->]. cbn [event_log modules].
      exists (r1 ++ r2). by rewrite app_assoc.
    + intros ->. auto.
Qed.

Lemma same_db_grows {A} (c : M Bot A) :
  keeps (same SeshetBot.db) c -> keeps log_grows c.
Proof.
  intros H b. specialize (H b). unfold same in H. unfold log_grows.
  rewrite H. destruct (SeshetBot.db b) as [d|]; [|reflexivity].
  exists []. rewrite app_nil_r. by destruct d.
Qed.

Lemma call_user_keeps {A X} (f : Bot -> X) key (m : M UserCtx A) :
  (forall st us b,
      f (SeshetBot.set_store st (SeshetBot.set_users us b)) = f b) ->
  keeps (same f) (call_user key m).
Proof.
  intros Hf b. unfold same, exec, call_user.
  destruct (dget key (SeshetBot.users b)) as [u|]; [|reflexivity].
  destruct (m (u, SeshetBot.store b)) as [r [u' st']]. apply Hf.
Qed.

Ltac frame_auto :=
  repeat first
    [ keeps_step
    | apply call_user_keeps; intros; reflexivity
    | match goal with |- keeps _ utcnow => intros ?; reflexivity end ].

Section Frames.
Variable strftime : string -> Time -> string.
Variable expanduser : string -> string.
Variable dirname : string -> string.

Lemma self_log_keeps_calls etype source msg target hostmask params :
  keeps (same SeshetBot.calls)
        (self_log strftime expanduser dirname etype source msg target
                  hostmask params).
Proof. unfold self_log, log, _log_to_file, makedirs, this. frame_auto. Qed.

Lemma self_log_grows etype source msg target hostmask params :
  keeps log_grows
        (self_log strftime expanduser dirname etype source msg target
                  hostmask params).
Proof.
  intros b. unfold log_grows.
  destruct (SeshetBot.db b) as [d|] eqn:Hd.
  - unfold exec. rewrite (self_log_db _ _ _ b d) by exact Hd.
    cbn. eauto.
  - enough (H : keeps (same SeshetBot.db)
                  (_log_to_file strftime expanduser dirname etype source
                                msg target hostmask params)).
    { specialize (H b). unfold same in H. rewrite Hd in H.
      unfold exec, self_log, this, bind, gets in *. rewrite Hd. exact H. }
    unfold _log_to_file, makedirs, this. frame_auto.
Qed.

Lemma prune_keeps {X} (f : Bot -> X) keys a :
  (forall st us b,
      f (SeshetBot.set_store st (SeshetBot.set_users us b)) = f b) ->
  (forall us b, f (SeshetBot.set_users us b) = f b) ->
  keeps (same f) (prune keys a).
Proof.
  intros H1 H2.
  induction keys as [|k r IH]; cbn [prune]; unfold this;
    repeat first
      [ keeps_step
      | apply call_user_keeps; exact H1
      | apply keeps_modify; intros; apply H2 ].
Qed.

Lemma leave_keeps {X} (f : Bot -> X) e :
  (forall st us b,
      f (SeshetBot.set_store st (SeshetBot.set_users us b)) = f b) ->
  (forall us b, f (SeshetBot.set_users us b) = f b) ->
  keeps (same f) (leave e).
Proof.
  intros H1 H2. unfold leave, this.
  repeat first
    [ keeps_step
    | apply call_user_keeps; exact H1
    | apply prune_keeps; [exact H1 | exact H2] ].
Qed.

Lemma only_messages_dispatch e :
  PyStr.mem (command e) message_commands = false ->
  keeps (same SeshetBot.calls) (self_run_modules e).
Proof.
  intros Hc. unfold self_run_modules, run_modules, _run_only_core, this.
  unfold message_commands in Hc. rewrite Hc. frame_auto.
Qed.

Lemma handle_any_grows ev :
  keeps log_grows (handle_any strftime expanduser dirname ev).
Proof.
  pose proof self_log_grows as Hlog.
  assert (Hrun : forall e, keeps log_grows (self_run_modules e))
    by (intros e; apply same_db_grows, self_run_modules_keeps_db).
  assert (Hleave : forall e, keeps log_grows (leave e)).
  { intros e. apply same_db_grows. apply leave_keeps; reflexivity. }
  destruct ev as [[e|e|e|e|e]|e|e|e|e]; cbn [handle_any handle];
    unfold on_join, on_part, on_kick, on_quit, on_nick_change, on_message,
           on_ctcp_action, on_mode, _add_channel_names, this;
    repeat first
      [ apply Hlog | apply Hrun | apply Hleave
      | apply same_db_grows; solve [frame_auto]
      | keeps_step ].
Qed.

Lemma run_any_grows evs b :
  log_grows b (run_any strftime expanduser dirname evs b).
Proof.
  revert b. induction evs as [|ev evs IH]; intros b; cbn [run_any fold_left].
  - reflexivity.
  - etransitivity; [apply handle_any_grows | apply IH].
Qed.

(** X12: whatever events the bot handles, and whether their handlers
    return or raise, the event log only grows: the rows that were there
    are still there, in their order, with the new rows after them, and
    the module table is untouched. *)
Theorem event_log_append_only (evs : list AnyEvent) (b : Bot) (d : DB) :
  SeshetBot.db b = Some d ->
  exists rows,
    SeshetBot.db (run_any strftime expanduser dirname evs b)
    = Some (mkDB (event_log d ++ rows) (modules d)).
Proof.
  intros Hd. pose proof (run_any_grows evs b) as H.
  unfold log_grows in H. rewrite Hd in H. exact H.
Qed.
End Frames.

Lemma event_log_append_only_witness :
  exists rows,
    SeshetBot.db (run_any strftime0 expanduser0 dirname0
                          [NAMES (names_reply "#c" ["A"]);
                           Roster (JOIN (join_event "B" "#c"));
                           MESSAGE (privmsg "B" "#c" "hi");
                           Roster (PART (part_event "B" "#nowhere"))]
                          db_bot)
    = Some (mkDB (event_log (mkDB [] []) ++ rows) (modules (mkDB [] []))).
Proof.
  apply (event_log_append_only strftime0 expanduser0 dirname0 _ db_bot
           (mkDB [] [])).
  reflexivity.
Defined.

#[export] Instance core_only_preorder : PreOrder core_only.
Proof.
  split.
  - intros b Hb. auto.
  - intros a b c Hab Hbc Ha. destruct (Hab Ha) as [Hb Hcalls].
    destruct (Hbc Hb) as [Hc Hcalls']. split; congruence.
Qed.

Lemma core_of {A} (c : M Bot A) :
  keeps (same SeshetBot.calls) c -> keeps log_grows c -> keeps core_only c.
Proof.
  intros Hc Hg b Hb. specialize (Hc b). specialize (Hg b).
  unfold log_grows in Hg. rewrite Hb in Hg. auto.
Qed.

Section Dispatch.
Variable strftime : string -> Time -> string.
Variable expanduser : string -> string.
Variable dirname : string -> string.

Lemma self_run_modules_core e : keeps core_only (self_run_modules e).
Proof.
  intros b Hb. unfold exec, self_run_modules, this, bind, gets.
  rewrite Hb. auto.
Qed.

Lemma handle_any_core ev :
  keeps core_only (handle_any strftime expanduser dirname ev).
Proof.
  assert (Hlog : forall etype source msg target hostmask params,
             keeps core_only
                   (self_log strftime expanduser dirname etype source msg
                             target hostmask params)).
  { intros. apply core_of;
      [apply self_log_keeps_calls | apply self_log_grows]. }
  pose proof self_run_modules_core as Hrun.
  assert (Hleave : forall e, keeps core_only (leave e)).
  { intros e. apply core_of; [|apply same_db_grows];
      apply leave_keeps; reflexivity. }
  destruct ev as [[e|e|e|e|e]|e|e|e|e]; cbn [handle_any handle];
    unfold on_join, on_part, on_kick, on_quit, on_nick_change, on_message,
           on_ctcp_action, on_mode, _add_channel_names, this;
    repeat first
      [ apply Hlog | apply Hrun | apply Hleave
      | apply core_of; [|apply same_db_grows]; solve [frame_auto]
      | keeps_step ].
Qed.

(** X13: a bot made without database never calls a handler of a module,
    whatever events it handles, and never comes by a database. *)
Theorem no_database_no_handler_call (evs : list AnyEvent) (b : Bot) :
  SeshetBot.db b = None ->
  SeshetBot.db (run_any strftime expanduser dirname evs b) = None
  /\ SeshetBot.calls (run_any strftime expanduser dirname evs b)
     = SeshetBot.calls b.
Proof.
  revert b. induction evs as [|ev evs IH]; intros b Hb;
    cbn [run_any fold_left]; [auto|].
  destruct (handle_any_core ev b Hb) as [Hb' Hcalls].
  destruct (IH _ Hb') as [Hd Hc]. split; [exact Hd|].
  unfold run_any in Hc. congruence.
Qed.

Lemma on_part_keeps_calls e :
  keeps (same SeshetBot.calls) (on_part strftime expanduser dirname e).
Proof.
  unfold on_part.
  apply keeps_bind; [apply _ | apply self_log_keeps_calls | intros _].
  apply leave_keeps; reflexivity.
Qed.

Lemma on_kick_keeps_calls e :
  keeps (same SeshetBot.calls) (on_kick strftime expanduser dirname e).
Proof.
  unfold on_kick.
  apply keeps_bind; [apply _ | apply keeps_unwrap; apply _ | intros p].
  apply keeps_bind; [apply _ | apply self_log_keeps_calls | intros _].
  apply leave_keeps; reflexivity.
Qed.

Lemma on_quit_keeps_calls e :
  keeps (same SeshetBot.calls) (on_quit strftime expanduser dirname e).
Proof.
  pose proof self_log_keeps_calls as Hlog.
  unfold on_quit, this.
  repeat first [ apply Hlog | keeps_step
               | apply call_user_keeps; intros; reflexivity ].
Qed.

Lemma on_nick_change_keeps_calls e :
  keeps (same SeshetBot.calls) (on_nick_change e).
Proof. unfold on_nick_change, this. frame_auto. Qed.

(** X14: the handlers of PART, KICK, QUIT, NICK, CTCP ACTION and MODE
    events and of names replies call no handler of a module, whatever the
    module table holds -- an action is logged and dispatched to
    nobody. *)
Theorem roster_handlers_call_no_module (e : Event) (b : Bot) :
  SeshetBot.calls (exec (on_part strftime expanduser dirname e) b)
  = SeshetBot.calls b
  /\ SeshetBot.calls (exec (on_kick strftime expanduser dirname e) b)
     = SeshetBot.calls b
  /\ SeshetBot.calls (exec (on_quit strftime expanduser dirname e) b)
     = SeshetBot.calls b
  /\ SeshetBot.calls (exec (on_nick_change e) b) = SeshetBot.calls b
  /\ SeshetBot.calls (exec (on_ctcp_action strftime expanduser dirname e) b)
     = SeshetBot.calls b
  /\ SeshetBot.calls (exec (on_mode strftime expanduser dirname e) b)
     = SeshetBot.calls b
  /\ SeshetBot.calls (exec (_add_channel_names e) b) = SeshetBot.calls b.
Proof.
  repeat apply conj.
  - apply on_part_keeps_calls.
  - apply on_kick_keeps_calls.
  - apply on_quit_keeps_calls.
  - apply on_nick_change_keeps_calls.
  - apply self_log_keeps_calls.
  - apply self_log_keeps_calls.
  - unfold exec. rewrite add_channel_names_run. reflexivity.
Qed.

(** X15: an event whose command is none of PRIVMSG, CTCP_ACTION and
    NOTICE calls no handler of a module, whichever handler of the bot
    gets it: a module that lists JOIN among its event types is selected
    by the query and never run. *)
Theorem other_commands_call_no_module (ev : AnyEvent) (b : Bot) :
  PyStr.mem (command (event_of ev)) message_commands = false ->
  SeshetBot.calls (exec (handle_any strftime expanduser dirname ev) b)
  = SeshetBot.calls b.
Proof.
  intros Hc.
  destruct ev as [[e|e|e|e|e]|e|e|e|e]; cbn [handle_any handle event_of] in *.
  - pose proof (only_messages_dispatch e Hc) as Hrun.
    pose proof self_log_keeps_calls as Hlog.
    revert b. change (keeps (same SeshetBot.calls)
                            (on_join strftime expanduser dirname e)).
    unfold on_join, this.
    repeat first [ apply Hlog | apply Hrun | keeps_step
                 | apply call_user_keeps; intros; reflexivity ].
  - apply on_part_keeps_calls.
  - apply on_kick_keeps_calls.
  - apply on_quit_keeps_calls.
  - apply on_nick_change_keeps_calls.
  - unfold exec. rewrite add_channel_names_run. reflexivity.
  - pose proof (only_messages_dispatch e Hc) as Hrun.
    pose proof self_log_keeps_calls as Hlog.
    revert b. change (keeps (same SeshetBot.calls)
                            (on_message strftime expanduser dirname e)).
    unfold on_message, this.
    repeat first [ apply Hlog | apply Hrun | keeps_step
                 | match goal with
                   | |- keeps _ utcnow => intros ?; reflexivity
                   end ].
  - apply self_log_keeps_calls.
  - apply self_log_keeps_calls.
Qed.
End Dispatch.

Lemma no_database_no_handler_call_witness :
  let evs := [NAMES (names_reply "#c" ["A"; "Bot"]);
              Roster (JOIN (join_event "B" "#c"));
              MESSAGE (privmsg "B" "Bot" "help")] in
  SeshetBot.db (run_any strftime0 expanduser0 dirname0 evs file_bot) = None
  /\ SeshetBot.calls (run_any strftime0 expanduser0 dirname0 evs file_bot)
     = SeshetBot.calls file_bot.
Proof.
  intros evs.
  apply (no_database_no_handler_call strftime0 expanduser0 dirname0 evs
           file_bot).
  reflexivity.
Defined.

Lemma other_commands_call_no_module_witness :
  SeshetBot.calls
    (exec (handle_any strftime0 expanduser0 dirname0
                      (Roster (JOIN (join_event "A" "#c")))) eager_bot)
  = SeshetBot.calls eager_bot.
Proof.
  apply (other_commands_call_no_module strftime0 expanduser0 dirname0
           (Roster (JOIN (join_event "A" "#c"))) eager_bot).
  reflexivity.
Defined.

(** The same module is run for a message. *)
Example eager_runs_on_message :
  SeshetBot.calls (exec (on_message0 (privmsg "A" "#c" "hi")) eager_bot)
  = [("eager.run", privmsg "A" "#c" "hi")].
Proof. vm_compute. reflexivity. Qed.

(** ** Reachable rosters *)

Section Reachable.
Variable strftime : string -> Time -> string.
Variable expanduser : string -> string.
Variable dirname : string -> string.

(** X16: in every state that a new bot reaches, whatever it handled, the
    keys of the channel dict are distinct and each leads to a channel
    object of that name; there [get_unique_users] returns a set and
    changes nothing for a channel of the roster, and raises [KeyError]
    and changes nothing for any other name. *)
Theorem get_unique_users_on_reachable
    (nick username realname repr : string) (db : option DB) (clock : Time)
    (dirs : list string) (evs : list AnyEvent) (chan : string) :
  let b := run_any strftime expanduser dirname evs
                   (SeshetBot.init nick username realname repr db clock dirs) in
  channels_wf b
  /\ match dget (IRCstr chan) (SeshetBot.channels b) with
     | Some _ => exists s, get_unique_users chan b = (Ok s, b)
     | None => get_unique_users chan b = (Raise KeyError, b)
     end.
Proof.
  intros b.
  assert (Hwf : channels_wf b) by apply run_any_wf, init_wf.
  split; [exact Hwf|].
  destruct (dget (IRCstr chan) (SeshetBot.channels b)) as [a|] eqn:Ha.
  - destruct Hwf as [Hnd Hwf].
    destruct (Hwf _ _ Ha) as (c & Hc & _).
    destruct (other_users_fold b (IRCstr chan) (SeshetBot.channels b) ∅)
      as (others & Hfold & _).
    { intros k a0 Hin. apply Hwf. by apply elem_of_dget. }
    exists (SeshetChannel.users c ∖ others).
    unfold get_unique_users, this. unfold bind at 1. cbn [gets].
    rewrite Ha. unfold bind at 1. cbn [unwrap ret].
    unfold bind at 1. rewrite (in_bot_store_deref b a c Hc).
    unfold bind at 1. rewrite Hfold. reflexivity.
  - unfold get_unique_users, this. unfold bind at 1. cbn [gets].
    rewrite Ha. reflexivity.
Qed.
End Reachable.

(** ** Leaving a channel: PART and KICK of somebody else *)

Lemma leave_run (b : Bot) (e : Event) a u c :
  IRCstr (source e) <> IRCstr (SeshetBot.nickname b) ->
  dget (IRCstr (target e)) (SeshetBot.channels b) = Some a ->
  dget (IRCstr (source e)) (SeshetBot.users b) = Some u ->
  a ∈ SeshetUser.channels u ->
  SeshetBot.store b !! a = Some c ->
  SeshetUser.nick u ∈ SeshetChannel.users c ->
  leave e b
  = (Ok tt,
     SeshetBot.set_store
       (<[a := SeshetChannel.set_users
                 (fun s => s ∖ {[SeshetUser.nick u]}) c]> (SeshetBot.store b))
       (SeshetBot.set_users
          (dset (IRCstr (source e))
                (SeshetUser.set_channels
                   (list_remove a (SeshetUser.channels u)) u))
          b)).
Proof.
  intros Hnb Ha Hu Hin Hc Hn. unfold leave, this.
  unfold bind at 1. cbn [gets]. rewrite Ha. unfold bind at 1.
  cbn [unwrap ret]. rewrite Hu. unfold bind at 1. cbn [unwrap ret].
  erewrite bind_run; cycle 1.
  { eapply call_user_run; [exact Hu|].
    apply (part_run_member _ _ a c); [by apply list_mem_elem_of | exact Hc
                                     | exact Hn]. }
  apply String.eqb_neq in Hnb. rewrite Hnb. reflexivity.
Qed.

Lemma leave_unknown (b : Bot) (e : Event) :
  dget (IRCstr (target e)) (SeshetBot.channels b) = None
  \/ dget (IRCstr (source e)) (SeshetBot.users b) = None ->
  leave e b = (Raise KeyError, b).
Proof.
  intros H. unfold leave, this. unfold bind at 1. cbn [gets].
  destruct (dget (IRCstr (target e)) (SeshetBot.channels b)) as [a|];
    [|reflexivity].
  destruct H as [H|H]; [discriminate|]. unfold bind at 1. cbn [unwrap ret].
  rewrite H. reflexivity.
Qed.

Section Leaving.
Variable strftime : string -> Time -> string.
Variable expanduser : string -> string.
Variable dirname : string -> string.

(** X17: with a database, the PART of somebody else than the bot from a
    channel of the roster that the user lists and is a member of returns
    normally; the channel is out of the user's list, the nick out of the
    channel's set, and the user object stays in the user dict under its
    key, also when that was its last channel.  Nothing else of the roster
    changes. *)
Theorem on_part_unlinks_and_keeps_user
    (b : Bot) (d : DB) (e : Event) (a : nat) (u : SeshetUser.t)
    (c : SeshetChannel.t) :
  SeshetBot.db b = Some d ->
  IRCstr (source e) <> IRCstr (SeshetBot.nickname b) ->
  dget (IRCstr (target e)) (SeshetBot.channels b) = Some a ->
  dget (IRCstr (source e)) (SeshetBot.users b) = Some u ->
  a ∈ SeshetUser.channels u ->
  SeshetBot.store b !! a = Some c ->
  SeshetUser.nick u ∈ SeshetChannel.users c ->
  let b' := exec (on_part strftime expanduser dirname e) b in
  outcome (on_part strftime expanduser dirname e) b = Ok tt
  /\ SeshetBot.users b'
     = dset (IRCstr (source e))
            (SeshetUser.set_channels
               (list_remove a (SeshetUser.channels u)) u)
            (SeshetBot.users b)
  /\ dkeys (SeshetBot.users b') = dkeys (SeshetBot.users b)
  /\ SeshetBot.store b'
     = <[a := SeshetChannel.set_users
                (fun s => s ∖ {[SeshetUser.nick u]}) c]> (SeshetBot.store b)
  /\ SeshetBot.channels b' = SeshetBot.channels b.
Proof.
  intros Hd Hnb Ha Hu Hin Hc Hn b'. subst b'. unfold exec, outcome, on_part.
  erewrite bind_run by (by apply (self_log_db _ _ _ _ d)).
  erewrite (leave_run _ e a u c); try eassumption.
  cbn [fst snd SeshetBot.users SeshetBot.store SeshetBot.channels
       SeshetBot.set_users SeshetBot.set_store SeshetBot.set_db
       SeshetBot.set_now].
  rewrite dkeys_dset. unfold dmem. rewrite Hu. auto.
Qed.

(** X18: with a database, a PART for a channel that is not in the roster,
    or of a nick that has no user object, raises [KeyError] and leaves
    the roster as it is; the event is in the event log all the same. *)
Theorem on_part_unknown_is_logged (b : Bot) (d : DB) (e : Event) :
  SeshetBot.db b = Some d ->
  dget (IRCstr (target e)) (SeshetBot.channels b) = None
  \/ dget (IRCstr (source e)) (SeshetBot.users b) = None ->
  let b' := exec (on_part strftime expanduser dirname e) b in
  outcome (on_part strftime expanduser dirname e) b = Raise KeyError
  /\ roster b' = roster b
  /\ SeshetBot.db b'
     = Some (mkDB (event_log d
                   ++ [mkRow "part" (SeshetBot.now b) (source e) (target e)
                             (PyStr.join " " (tail (params e)))
                             (hostmask_of e) ""])
                  (modules d)).
Proof.
  intros Hd Hun b'. subst b'. unfold exec, outcome, on_part.
  erewrite bind_run by (by apply (self_log_db _ _ _ _ d)).
  rewrite leave_unknown by exact Hun. auto.
Qed.

(** X19: with a database, a KICK takes the source of the event -- the
    one who kicks -- out of the channel: the channel leaves the kicker's
    list and the kicker's nick leaves the channel's set.  The kicked
    nick, the first parameter, is only written to the log row: its user
    object and its membership of the channel are as before. *)
Theorem on_kick_unlinks_the_kicker
    (b : Bot) (d : DB) (e : Event) (kicked : string) (a : nat)
    (u : SeshetUser.t) (c : SeshetChannel.t) :
  SeshetBot.db b = Some d ->
  head (params e) = Some kicked ->
  IRCstr (source e) <> IRCstr (SeshetBot.nickname b) ->
  IRCstr kicked <> IRCstr (source e) ->
  dget (IRCstr (target e)) (SeshetBot.channels b) = Some a ->
  dget (IRCstr (source e)) (SeshetBot.users b) = Some u ->
  SeshetUser.nick u = IRCstr (source e) ->
  a ∈ SeshetUser.channels u ->
  SeshetBot.store b !! a = Some c ->
  IRCstr (source e) ∈ SeshetChannel.users c ->
  let b' := exec (on_kick strftime expanduser dirname e) b in
  outcome (on_kick strftime expanduser dirname e) b = Ok tt
  /\ dget (IRCstr (source e)) (SeshetBot.users b')
     = Some (SeshetUser.set_channels
               (list_remove a (SeshetUser.channels u)) u)
  /\ dget (IRCstr kicked) (SeshetBot.users b')
     = dget (IRCstr kicked) (SeshetBot.users b)
  /\ (exists c',
        SeshetBot.store b' !! a = Some c'
        /\ (IRCstr (source e) ∉ SeshetChannel.users c')
        /\ (IRCstr kicked ∈ SeshetChannel.users c'
            <-> IRCstr kicked ∈ SeshetChannel.users c))
  /\ (exists rows row,
        SeshetBot.db b' = Some (mkDB (rows ++ [row]) (modules d))
        /\ event_type row = "kick" /\ row_params row = kicked).
Proof.
  intros Hd Hp Hnb Hne Ha Hu Hnick Hin Hc Hn b'. subst b'.
  unfold exec, outcome, on_kick. rewrite Hp.
  erewrite bind_run by reflexivity.
  erewrite bind_run by (by apply (self_log_db _ _ _ _ d)).
  erewrite (leave_run _ e a u c); try eassumption; [|by rewrite Hnick].
  cbn [fst snd SeshetBot.users SeshetBot.store SeshetBot.channels
       SeshetBot.db SeshetBot.set_users SeshetBot.set_store
       SeshetBot.set_db SeshetBot.set_now].
  split; [reflexivity|]. split; [apply dget_dset_eq|].
  split; [apply dget_dset_ne; congruence|].
  split.
  - eexists. split.
    + apply list_lookup_insert_eq. by eapply lookup_lt_Some.
    + cbn. rewrite Hnick. rewrite !elem_of_difference, !elem_of_singleton.
      split; [tauto|]. split; [tauto|]. intros H. split; [exact H|].
      exact Hne.
  - eexists _, _. split; [reflexivity|]. split; reflexivity.
Qed.
End Leaving.

Lemma on_part_unlinks_and_keeps_user_witness :
  let e := part_event "A" "#c" in
  let b' := exec (on_part strftime0 expanduser0 dirname0 e) roster_a in
  outcome (on_part strftime0 expanduser0 dirname0 e) roster_a = Ok tt
  /\ SeshetBot.users b'
     = dset (IRCstr (source e))
            (SeshetUser.set_channels
               (list_remove 0 (SeshetUser.channels user_a)) user_a)
            (SeshetBot.users roster_a)
  /\ dkeys (SeshetBot.users b') = dkeys (SeshetBot.users roster_a)
  /\ SeshetBot.store b'
     = <[0 := SeshetChannel.set_users
                (fun s => s ∖ {[SeshetUser.nick user_a]}) chan_a]>
         (SeshetBot.store roster_a)
  /\ SeshetBot.channels b' = SeshetBot.channels roster_a.
Proof.
  intros e.
  apply (on_part_unlinks_and_keeps_user strftime0 expanduser0 dirname0
           roster_a (mkDB [mkRow "join" 0 "A" "#c" "" "A@host" ""] [])
           e 0 user_a chan_a).
  - vm_compute. reflexivity.
  - vm_compute. discriminate.
  - vm_compute. reflexivity.
  - vm_compute. reflexivity.
  - cbn. apply list_elem_of_singleton. reflexivity.
  - vm_compute. reflexivity.
  - cbn. set_solver.
Defined.

Lemma on_part_unknown_is_logged_witness :
  let e := part_event "A" "#nowhere" in
  let b' := exec (on_part strftime0 expanduser0 dirname0 e) db_bot in
  outcome (on_part strftime0 expanduser0 dirname0 e) db_bot = Raise KeyError
  /\ roster b' = roster db_bot
  /\ SeshetBot.db b'
     = Some (mkDB (event_log (mkDB [] [])
                   ++ [mkRow "part" (SeshetBot.now db_bot) (source e)
                             (target e) (PyStr.join " " (tail (params e)))
                             (hostmask_of e) ""])
                  (modules (mkDB [] []))).
Proof.
  intros e.
  apply (on_part_unknown_is_logged strftime0 expanduser0 dirname0 db_bot
           (mkDB [] []) e).
  - reflexivity.
  - left. reflexivity.
Defined.

Lemma on_kick_unlinks_the_kicker_witness :
  let e := kick_event "Op" "#c" "A" in
  let b' := exec (on_kick strftime0 expanduser0 dirname0 e) roster_op in
  outcome (on_kick strftime0 expanduser0 dirname0 e) roster_op = Ok tt
  /\ dget (IRCstr (source e)) (SeshetBot.users b')
     = Some (SeshetUser.set_channels
               (list_remove 0 (SeshetUser.channels user_op)) user_op)
  /\ dget (IRCstr "A") (SeshetBot.users b')
     = dget (IRCstr "A") (SeshetBot.users roster_op)
  /\ (exists c',
        SeshetBot.store b' !! 0 = Some c'
        /\ (IRCstr (source e) ∉ SeshetChannel.users c')
        /\ (IRCstr "A" ∈ SeshetChannel.users c'
            <-> IRCstr "A" ∈ SeshetChannel.users chan_op))
  /\ (exists rows row,
        SeshetBot.db b'
        = Some (mkDB (rows ++ [row])
                     (modules (mkDB [mkRow "join" 0 "A" "#c" "" "A@host" "";
                                     mkRow "join" 1 "Op" "#c" "" "Op@host" ""]
                                    [])))
        /\ event_type row = "kick" /\ row_params row = "A").
Proof.
  intros e.
  apply (on_kick_unlinks_the_kicker strftime0 expanduser0 dirname0
           roster_op
           (mkDB [mkRow "join" 0 "A" "#c" "" "A@host" "";
                  mkRow "join" 1 "Op" "#c" "" "Op@host" ""] [])
           e "A" 0 user_op chan_op).
  - vm_compute. reflexivity.
  - reflexivity.
  - vm_compute. discriminate.
  - vm_compute. discriminate.
  - vm_compute. reflexivity.
  - vm_compute. reflexivity.
  - reflexivity.
  - cbn. apply list_elem_of_singleton. reflexivity.
  - vm_compute. reflexivity.
  - cbn. set_solver.
Defined.

(** ** QUIT *)

Lemma ddel_dset {V} (d : dict V) k v : ddel k (dset k v d) = ddel k d.
Proof.
  induction d as [|[k' v'] r IH]; cbn [dset ddel].
  - rewrite String.eqb_refl. reflexivity.
  - destruct (String.eqb k' k) eqn:Hk; cbn [ddel]; rewrite Hk; [reflexivity|].
    by rewrite IH.
Qed.

Lemma quit_run (u : SeshetUser.t) (st : Store) :
  NoDup (SeshetUser.channels u) ->
  (forall a, a ∈ SeshetUser.channels u ->
     exists c, st !! a = Some c
               /\ SeshetUser.nick u ∈ SeshetChannel.users c) ->
  exists st',
    quit (u, st) = (Ok tt, (SeshetUser.set_channels [] u, st'))
    /\ forall a,
         st' !! a
         = if decide (a ∈ SeshetUser.channels u)
           then SeshetChannel.set_users (fun s => s ∖ {[SeshetUser.nick u]})
                  <$> st !! a
           else st !! a.
Proof.
  intros Hnd Hall.
  destruct (quit_loop u (SeshetUser.nick u) (SeshetUser.channels u) st
              Hnd Hall) as (st' & Hrun & Hlook).
  exists st'. split; [|exact Hlook].
  unfold quit. unfold bind at 1, self, gets. cbn [fst snd].
  erewrite bind_run by exact Hrun. reflexivity.
Qed.

Section Quit.
Variable strftime : string -> Time -> string.
Variable expanduser : string -> string.
Variable dirname : string -> string.

Lemma quit_log_loop (e : Event) (l : list addr) (b : Bot) (d : DB) :
  SeshetBot.db b = Some d ->
  (forall a, a ∈ l -> is_Some (SeshetBot.store b !! a)) ->
  exists rows b',
    for_each l
      (fun a =>
         chan <- in_bot_store (deref a) ;;
         if bool_decide (IRCstr (source e) ∈ SeshetChannel.users chan)
         then self_log strftime expanduser dirname "quit" (source e)
                       (PyStr.join " " (params e))
                       (SeshetChannel.name chan) (hostmask_of e) ""
         else ret tt) b
    = (Ok tt, b')
    /\ roster b' = roster b
    /\ SeshetBot.db b' = Some (mkDB (event_log d ++ rows) (modules d))
    /\ map row_target rows
       = channels_of (IRCstr (source e)) (SeshetBot.store b) l
    /\ Forall (fun r => event_type r = "quit") rows.
Proof.
  revert b d. induction l as [|a r IH]; intros b d Hd Hst.
  - exists [], b. cbn [for_each]. rewrite app_nil_r.
    repeat split; [by destruct d | constructor].
  - destruct (Hst a) as [c Hc]; [apply elem_of_cons; by left|].
    assert (Hr : forall b1, SeshetBot.store b1 = SeshetBot.store b ->
              forall a0, a0 ∈ r -> is_Some (SeshetBot.store b1 !! a0)).
    { intros b1 -> a0 H0. apply Hst. apply elem_of_cons. by right. }
    cbn [for_each]. unfold channels_of. cbn [omap list_omap].
    fold (channels_of (IRCstr (source e)) (SeshetBot.store b) r).
    rewrite Hc.
    destruct (bool_decide (IRCstr (source e) ∈ SeshetChannel.users c))
      eqn:Hmem.
    + set (row := mkRow "quit" (SeshetBot.now b) (source e)
                        (SeshetChannel.name c) (PyStr.join " " (params e))
                        (hostmask_of e) "").
      set (d1 := mkDB (event_log d ++ [row]) (modules d)).
      set (b1 := SeshetBot.set_db (Some d1)
                   (SeshetBot.set_now (S (SeshetBot.now b)) b)).
      destruct (IH b1 d1 eq_refl (Hr b1 eq_refl))
        as (rows & b' & Hrun & Hros & Hdb & Htg & Hty).
      exists (row :: rows), b'. split.
      { erewrite bind_run; [exact Hrun|].
        erewrite bind_run by (by apply in_bot_store_deref).
        rewrite Hmem. by apply self_log_db. }
      split; [exact Hros|]. split.
      { rewrite Hdb. unfold d1. cbn [event_log modules].
        by rewrite <- app_assoc. }
      split; [cbn [map]; by rewrite Htg|].
      by constructor.
    + destruct (IH b d Hd (Hr b eq_refl))
        as (rows & b' & Hrun & Hros & Hdb & Htg & Hty).
      exists rows, b'. split; [|auto].
      erewrite bind_run; [exact Hrun|].
      erewrite bind_run by (by apply in_bot_store_deref).
      rewrite Hmem. reflexivity.
Qed.

(** X20: with a database, in a consistent and well-formed roster, the
    QUIT of a known nick returns normally.  The user object is deleted
    from the user dict, the nick is in the set of no channel object any
    more, channel objects that the user did not list are untouched, and
    the event log has a new [quit] row for each channel of the roster
    that held the nick, in the order of the channel dict, with the
    channel's name as target. *)
Theorem on_quit_forgets_user
    (b : Bot) (d : DB) (e : Event) (u : SeshetUser.t) :
  consistent b ->
  channels_wf b ->
  SeshetBot.db b = Some d ->
  dget (IRCstr (source e)) (SeshetBot.users b) = Some u ->
  let b' := exec (on_quit strftime expanduser dirname e) b in
  outcome (on_quit strftime expanduser dirname e) b = Ok tt
  /\ SeshetBot.users b' = ddel (IRCstr (source e)) (SeshetBot.users b)
  /\ dget (IRCstr (source e)) (SeshetBot.users b') = None
  /\ (forall a c', SeshetBot.store b' !! a = Some c' ->
        IRCstr (source e) ∉ SeshetChannel.users c')
  /\ (forall a, a ∉ SeshetUser.channels u ->
        SeshetBot.store b' !! a = SeshetBot.store b !! a)
  /\ SeshetBot.channels b' = SeshetBot.channels b
  /\ exists rows,
       SeshetBot.db b' = Some (mkDB (event_log d ++ rows) (modules d))
       /\ map row_target rows
          = channels_of (IRCstr (source e)) (SeshetBot.store b)
                        (dvalues (SeshetBot.channels b))
       /\ Forall (fun r => event_type r = "quit") rows.
Proof.
  intros Hb [Hnd Hwf] Hd Hu b'.
  set (nick := IRCstr (source e)) in *.
  destruct (quit_log_loop e (dvalues (SeshetBot.channels b)) b d Hd)
    as (rows & b1 & Hloop & Hros & Hdb & Htg & Hty).
  { intros a Ha. apply list_elem_of_fmap in Ha as ([k a'] & -> & Hin).
    destruct (Hwf k a') as (c & Hc & _); [by apply elem_of_dget|].
    cbn. by rewrite Hc. }
  unfold roster in Hros. injection Hros as Hch1 Hus1 Hst1.
  pose proof (cons_nick b Hb _ _ Hu) as Hnick.
  destruct (quit_run u (SeshetBot.store b1)) as (st' & Hquit & Hlook).
  { by eapply cons_nodup. }
  { intros a Ha. rewrite Hst1, Hnick. by eapply cons_member. }
  assert (Hrun : on_quit strftime expanduser dirname e b
            = (Ok tt,
               SeshetBot.set_users (ddel nick)
                 (SeshetBot.set_store st'
                    (SeshetBot.set_users
                       (dset nick (SeshetUser.set_channels [] u)) b1)))).
  { unfold on_quit, this. unfold bind at 1. cbn [gets].
    fold nick. erewrite bind_run by exact Hloop.
    erewrite bind_run; [reflexivity|].
    eapply call_user_run; [by rewrite Hus1 | exact Hquit]. }
  subst b'. unfold exec, outcome. rewrite Hrun.
  cbn [fst snd SeshetBot.users SeshetBot.store SeshetBot.channels
       SeshetBot.db SeshetBot.set_users SeshetBot.set_store].
  rewrite ddel_dset, Hus1.
  split; [reflexivity|]. split; [reflexivity|].
  split; [apply dget_ddel_eq; by eapply cons_keys|].
  split.
  { intros a c'. rewrite Hlook, Hst1, Hnick. case_decide as Hin.
    - destruct (SeshetBot.store b !! a) as [c|]; [|discriminate].
      cbn. intros [= <-]. cbn.
      rewrite elem_of_difference, elem_of_singleton. tauto.
    - intros Hc' Hn.
      destruct (cons_listed b Hb a c' nick Hc' Hn) as (u0 & Hu0 & Ha0).
      assert (u0 = u) by congruence. subst u0. contradiction. }
  split.
  { intros a Ha. rewrite Hlook, Hst1. by rewrite decide_False. }
  split; [exact Hch1|].
  exists rows. auto.
Qed.
End Quit.

Lemma quit_roster_consistent : consistent quit_roster.
Proof.
  unfold quit_roster, on_join0.
  assert (H : keeps keeps_consistent
                (on_join strftime0 expanduser0 dirname0 (join_event "A" "#c") ;;
                 on_join strftime0 expanduser0 dirname0 (join_event "A" "#d") ;;
                 on_join strftime0 expanduser0 dirname0 (join_event "B" "#c"))).
  { repeat (apply keeps_bind; [apply _ | apply on_join_consistent | intros _]).
    apply on_join_consistent. }
  apply H. exact empty_channels_consistent.
Qed.

Lemma quit_roster_wf : channels_wf quit_roster.
Proof.
  assert (Hq : quit_roster
               = run_any strftime0 expanduser0 dirname0
                   [NAMES (names_reply "#c" []); NAMES (names_reply "#d" []);
                    Roster (JOIN (join_event "A" "#c"));
                    Roster (JOIN (join_event "A" "#d"));
                    Roster (JOIN (join_event "B" "#c"))] db_bot)
    by (vm_compute; reflexivity).
  rewrite Hq. apply run_any_wf, init_wf.
Qed.

Lemma on_quit_forgets_user_witness :
  let e := mkEvent "QUIT" "A" "" "" "a" "host" ["bye"] "" [] in
  let u := SeshetUser.mk "a" "A" "host" [0; 1] in
  let d := mkDB [mkRow "join" 0 "A" "#c" "" "A@host" "";
                 mkRow "join" 1 "A" "#d" "" "A@host" "";
                 mkRow "join" 2 "B" "#c" "" "B@host" ""] [] in
  let b' := exec (on_quit strftime0 expanduser0 dirname0 e) quit_roster in
  outcome (on_quit strftime0 expanduser0 dirname0 e) quit_roster = Ok tt
  /\ SeshetBot.users b'
     = ddel (IRCstr (source e)) (SeshetBot.users quit_roster)
  /\ dget (IRCstr (source e)) (SeshetBot.users b') = None
  /\ (forall a c', SeshetBot.store b' !! a = Some c' ->
        IRCstr (source e) ∉ SeshetChannel.users c')
  /\ (forall a, a ∉ SeshetUser.channels u ->
        SeshetBot.store b' !! a = SeshetBot.store quit_roster !! a)
  /\ SeshetBot.channels b' = SeshetBot.channels quit_roster
  /\ exists rows,
       SeshetBot.db b' = Some (mkDB (event_log d ++ rows) (modules d))
       /\ map row_target rows
          = channels_of (IRCstr (source e)) (SeshetBot.store quit_roster)
                        (dvalues (SeshetBot.channels quit_roster))
       /\ Forall (fun r => event_type r = "quit") rows.
Proof.
  intros e u d.
  apply (on_quit_forgets_user strftime0 expanduser0 dirname0 quit_roster d e u).
  - exact quit_roster_consistent.
  - exact quit_roster_wf.
  - vm_compute. reflexivity.
  - vm_compute. reflexivity.
Defined.

Example quit_rows :
  map row_target
      (match SeshetBot.db
               (exec (on_quit0 (mkEvent "QUIT" "A" "" "" "a" "host" ["bye"]
                                        "" [])) quit_roster) with
       | Some d => drop 3 (event_log d)
       | None => []
       end)
  = ["#c"; "#d"].
Proof. vm_compute. reflexivity. Qed.

(** ** Connecting *)

Lemma connect_loop_run (args : list PyVal) (kwargs attrs : dict PyVal) :
  connect_loop 0 connect_keys args kwargs attrs []
  = [("host", connect_value 0 "host" args kwargs attrs);
     ("port", connect_value 1 "port" args kwargs attrs);
     ("channel", connect_value 2 "channel" args kwargs attrs);
     ("use_ssl", connect_value 3 "use_ssl" args kwargs attrs);
     ("password", connect_value 4 "password" args kwargs attrs)].
Proof. reflexivity. Qed.

(** X21: [connect] either raises [TypeError], exactly when the value found
    for [host] is [None], or calls the client's [connect] with exactly the
    five keywords [host], [port], [channel], [use_ssl] and [password], in
    this order, of which [host] and [use_ssl] are not [None]: every other
    keyword and every positional argument after the fifth is dropped. *)
Theorem connect_passes_five_keywords
    (args : list PyVal) (kwargs attrs : dict PyVal) :
  match connect args kwargs attrs with
  | SimpleClient_connect defaults =>
      dkeys defaults = connect_keys
      /\ connect_value 0 "host" args kwargs attrs <> VNone
      /\ dget "host" defaults <> Some VNone
      /\ dget "use_ssl" defaults <> Some VNone
  | TypeError _ => connect_value 0 "host" args kwargs attrs = VNone
  | DefaultsKeyError => False
  end.
Proof.
  unfold connect. rewrite connect_loop_run.
  cbn [dget String.eqb Ascii.eqb Bool.eqb].
  destruct (connect_value 3 "use_ssl" args kwargs attrs) eqn:Hssl;
    cbn [dset dget String.eqb Ascii.eqb Bool.eqb];
    destruct (connect_value 0 "host" args kwargs attrs) eqn:Hhost;
    cbn [dkeys map fst dget String.eqb Ascii.eqb Bool.eqb];
    repeat split; try reflexivity; try discriminate; congruence.
Qed.



(** [connect(host=None)] raises [TypeError] although the bot has a default
    host; without the keyword the default is used. *)
Example connect_host_None :
  connect [] [("host", VNone)] [("default_host", VStr "irc.example.org")]
  = TypeError "missing 1 required positional argument: 'host'"
  /\ connect [] [] [("default_host", VStr "irc.example.org")]
     = SimpleClient_connect
         [("host", VStr "irc.example.org"); ("port", VNone);
          ("channel", VNone); ("use_ssl", VBool false); ("password", VNone)].
Proof. split; reflexivity. Qed.

(** ** File logging without a locale *)

Section NoLocale.
Variable strftime : string -> Time -> string.
Variable expanduser : string -> string.
Variable dirname : string -> string.

Lemma log_to_file_no_locale (b : Bot) (k : string)
    (etype source msg target hostmask params : string) :
  k ∈ locale_keys ->
  dget k (SeshetBot.locale b) = None ->
  _log_to_file strftime expanduser dirname etype source msg target
               hostmask params b
  = (Raise KeyError, SeshetBot.set_now (S (SeshetBot.now b)) b).
Proof.
  intros Hk Hnone. unfold _log_to_file, bind, utcnow, this, gets.
  cbn [SeshetBot.locale SeshetBot.set_now].
  unfold locale_keys in Hk. rewrite !elem_of_cons, elem_of_nil in Hk.
  destruct (dget "date_fmt" (SeshetBot.locale b)) eqn:H1;
    cbn [unwrap ret raise]; [|reflexivity].
  destruct (dget "time_fmt" (SeshetBot.locale b)) eqn:H2;
    cbn [unwrap ret raise]; [|reflexivity].
  destruct (dget "short_datetime_fmt" (SeshetBot.locale b)) eqn:H3;
    cbn [unwrap ret raise]; [|reflexivity].
  destruct (dget "long_datetime_fmt" (SeshetBot.locale b)) eqn:H4;
    cbn [unwrap ret raise]; [|reflexivity].
  destruct Hk as [->|[->|[->|[->|[]]]]]; congruence.
Qed.

Lemma self_log_no_locale (b : Bot) (k : string)
    (etype source msg target hostmask params : string) :
  SeshetBot.db b = None ->
  k ∈ locale_keys ->
  dget k (SeshetBot.locale b) = None ->
  self_log strftime expanduser dirname etype source msg target hostmask
           params b
  = (Raise KeyError, SeshetBot.set_now (S (SeshetBot.now b)) b).
Proof.
  intros Hd Hk Hnone. unfold self_log, this. unfold bind at 1.
  cbn [gets]. rewrite Hd. by apply (log_to_file_no_locale b k).
Qed.

(** X23: a bot without database logs to files, and for that reads four
    formats from its locale before it looks at anything else.  When one
    of them is missing -- a new bot has an empty locale -- the handlers
    of messages, joins, parts, actions and mode changes raise [KeyError]
    at their first statement, having only read the clock: the message is
    not cached, the user is not put into the roster, no file is written
    and no module is run. *)
Theorem missing_locale_stops_handlers (b : Bot) (e : Event) (k : string) :
  SeshetBot.db b = None ->
  k ∈ locale_keys ->
  dget k (SeshetBot.locale b) = None ->
  let stopped := (Raise KeyError,
                  SeshetBot.set_now (S (SeshetBot.now b)) b) in
  on_message strftime expanduser dirname e b = stopped
  /\ on_join strftime expanduser dirname e b = stopped
  /\ on_part strftime expanduser dirname e b = stopped
  /\ on_ctcp_action strftime expanduser dirname e b = stopped
  /\ on_mode strftime expanduser dirname e b = stopped.
Proof.
  intros Hd Hk Hnone stopped. subst stopped.
  unfold on_message, on_join, on_part, on_ctcp_action, on_mode.
  repeat apply conj;
    first [ by apply (self_log_no_locale b k)
          | erewrite bind_raise;
            [reflexivity | by apply (self_log_no_locale b k)] ].
Qed.
End NoLocale.

Lemma missing_locale_stops_handlers_witness :
  let b := SeshetBot.init "Bot" "bot" "Bot" "<SeshetBot>" None 0 [] in
  let e := privmsg "A" "Bot" "hello" in
  let stopped := (Raise KeyError,
                  SeshetBot.set_now (S (SeshetBot.now b)) b) in
  on_message strftime0 expanduser0 dirname0 e b = stopped
  /\ on_join strftime0 expanduser0 dirname0 e b = stopped
  /\ on_part strftime0 expanduser0 dirname0 e b = stopped
  /\ on_ctcp_action strftime0 expanduser0 dirname0 e b = stopped
  /\ on_mode strftime0 expanduser0 dirname0 e b = stopped.
Proof.
  intros b e.
  apply (missing_locale_stops_handlers strftime0 expanduser0 dirname0 b e
           "date_fmt").
  - reflexivity.
  - apply elem_of_cons. by left.
  - reflexivity.
Defined.

(** ** Nick changes in a roster without channels *)

(** X24: while the bot has no channel in its roster, the nick change of a
    known user who lists no channel returns normally and moves the user
    object to the key of the new nick, with the new nick in it; no other
    entry changes.  The old key is deleted last: when the new nick is the
    same identity as the old one -- a change of letter case -- the user
    object is gone from the roster. *)
Theorem on_nick_change_rekeys (b : Bot) (e : Event) (u : SeshetUser.t) :
  SeshetBot.channels b = [] ->
  NoDup (dkeys (SeshetBot.users b)) ->
  dget (IRCstr (source e)) (SeshetBot.users b) = Some u ->
  SeshetUser.channels u = [] ->
  let b' := exec (on_nick_change e) b in
  outcome (on_nick_change e) b = Ok tt
  /\ dget (IRCstr (source e)) (SeshetBot.users b') = None
  /\ (IRCstr (target e) <> IRCstr (source e) ->
      dget (IRCstr (target e)) (SeshetBot.users b')
      = Some (SeshetUser.set_nick (IRCstr (target e)) u))
  /\ (forall k, k <> IRCstr (source e) -> k <> IRCstr (target e) ->
        dget k (SeshetBot.users b') = dget k (SeshetBot.users b))
  /\ SeshetBot.store b' = SeshetBot.store b.
Proof.
  intros Hch Hnd Hu Hu0 b'.
  set (old := IRCstr (source e)) in *. set (new := IRCstr (target e)) in *.
  set (u1 := SeshetUser.set_nick new u).
  set (us := dset new u1 (dset old u1 (SeshetBot.users b))).
  assert (Hmem : dmem old us = true).
  { unfold dmem, us. rewrite dget_dset. case_decide; [reflexivity|].
    rewrite dget_dset_eq. reflexivity. }
  assert (Hrun : on_nick_change e b
                 = (Ok tt, SeshetBot.set_users (fun _ => ddel old us) b)).
  { unfold on_nick_change, this. unfold bind at 1. cbn [gets].
    rewrite Hch. cbn [dvalues map for_each]. unfold bind at 1. cbn [ret].
    fold old. fold new.
    erewrite bind_run; cycle 1.
    { eapply call_user_run; [exact Hu|].
      unfold change_nick, bind at 1, self, gets. cbn [fst snd].
      unfold bind at 1, set_self, modify. cbn [fst snd].
      rewrite Hu0. cbn [for_each ret]. reflexivity. }
    unfold bind at 1. cbn [gets SeshetBot.users SeshetBot.set_users
                            SeshetBot.set_store].
    rewrite dget_dset_eq. unfold bind at 1. cbn [unwrap ret].
    unfold bind at 1. cbn [modify]. unfold bind at 1. cbn [gets].
    cbn [SeshetBot.users SeshetBot.set_users SeshetBot.set_store].
    assert (Hidem : IRCstr new = new) by apply IRCstr_idem.
    rewrite Hidem. fold u1. fold us.
    rewrite Hmem. unfold modify. destruct b; reflexivity. }
  assert (Hnd' : NoDup (dkeys us)) by (by apply NoDup_dset, NoDup_dset).
  subst b'. unfold exec, outcome. rewrite Hrun.
  cbn [fst snd SeshetBot.users SeshetBot.store SeshetBot.set_users].
  split; [reflexivity|]. split; [by apply dget_ddel_eq|].
  split; [|split; [|reflexivity]].
  - intros Hne. rewrite dget_ddel_ne by congruence.
    unfold us. apply dget_dset_eq.
  - intros k Hk1 Hk2. rewrite dget_ddel_ne by congruence.
    unfold us. rewrite !dget_dset_ne by congruence. reflexivity.
Qed.

Lemma on_nick_change_rekeys_witness :
  let b := exec (on_join0 (join_event "A" "#c")) db_bot in
  let e := nick_event "A" "Al" in
  let u := SeshetUser.mk "a" "A" "host" [] in
  let b' := exec (on_nick_change e) b in
  outcome (on_nick_change e) b = Ok tt
  /\ dget (IRCstr (source e)) (SeshetBot.users b') = None
  /\ (IRCstr (target e) <> IRCstr (source e) ->
      dget (IRCstr (target e)) (SeshetBot.users b')
      = Some (SeshetUser.set_nick (IRCstr (target e)) u))
  /\ (forall k, k <> IRCstr (source e) -> k <> IRCstr (target e) ->
        dget k (SeshetBot.users b') = dget k (SeshetBot.users b))
  /\ SeshetBot.store b' = SeshetBot.store b.
Proof.
  intros b e u.
  apply (on_nick_change_rekeys b e u).
  - reflexivity.
  - vm_compute. apply NoDup_singleton.
  - vm_compute. reflexivity.
  - reflexivity.
Defined.

(** ** The pruning loop of the bot's own PART and KICK *)

Lemma elem_of_dkeys {V} (d : dict V) k : k ∈ dkeys d <-> is_Some (dget k d).
Proof.
  induction d as [|[k' v'] r IH]; cbn [dget dkeys map fst].
  - split; [intros H; by apply elem_of_nil in H | intros [x Hx]; discriminate].
  - rewrite elem_of_cons. destruct (String.eqb_spec k' k) as [->|Hne].
    + split; [eauto | by left].
    + fold (dkeys r). rewrite IH. split; [intros [?|?]; [congruence|done]|].
      by right.
Qed.

Lemma prune_step_user (u : SeshetUser.t) (st : Store) (a : addr) :
  (u0 <- self ;;
   if list_mem a (SeshetUser.channels u0)
   then channels_remove a else ret tt) (u, st)
  = (Ok tt, (without a u, st)).
Proof.
  unfold without. run_ctx.
  destruct (list_mem a (SeshetUser.channels u)) eqn:H;
    [rewrite H|]; reflexivity.
Qed.

Lemma without_nick (a : addr) (u : SeshetUser.t) :
  SeshetUser.nick (without a u) = SeshetUser.nick u.
Proof. unfold without. by destruct (list_mem a _). Qed.

Lemma prune_run (a : addr) (keys : list Identity) : forall b : Bot,
  NoDup keys ->
  NoDup (dkeys (SeshetBot.users b)) ->
  (forall k, k ∈ keys ->
     exists u, dget k (SeshetBot.users b) = Some u /\ SeshetUser.nick u = k) ->
  exists r b',
    prune keys a b = (r, b')
    /\ SeshetBot.store b' = SeshetBot.store b
    /\ SeshetBot.channels b' = SeshetBot.channels b
    /\ ((r = Ok tt
         /\ dkeys (SeshetBot.users b') = dkeys (SeshetBot.users b)
         /\ (forall k u, k ∈ keys ->
               dget k (SeshetBot.users b) = Some u ->
               SeshetUser.channels (without a u) <> []
               /\ dget k (SeshetBot.users b') = Some (without a u))
         /\ (forall k, k ∉ keys ->
               dget k (SeshetBot.users b') = dget k (SeshetBot.users b)))
        \/ (r = Raise RuntimeError
            /\ exists l1 k l2 u,
                 keys = l1 ++ k :: l2
                 /\ dget k (SeshetBot.users b) = Some u
                 /\ SeshetUser.channels (without a u) = []
                 /\ dget k (SeshetBot.users b') = None
                 /\ (forall k' u', k' ∈ l1 ->
                       dget k' (SeshetBot.users b) = Some u' ->
                       SeshetUser.channels (without a u') <> []
                       /\ dget k' (SeshetBot.users b')
                          = Some (without a u'))
                 /\ (forall k', k' ∉ l1 -> k' <> k ->
                       dget k' (SeshetBot.users b')
                       = dget k' (SeshetBot.users b)))).
Proof.
  induction keys as [|k rest IH]; intros b Hkeys Hnd Hall.
  - exists (Ok tt), b. cbn [prune]. split; [reflexivity|].
    split; [reflexivity|]. split; [reflexivity|]. left.
    split; [reflexivity|]. split; [reflexivity|].
    split; [intros k u H; by apply elem_of_nil in H | reflexivity].
  - apply NoDup_cons in Hkeys as [Hk Hrest].
    destruct (Hall k) as (u & Hu & Hnick); [apply elem_of_cons; by left|].
    assert (Hnick' : SeshetUser.nick (without a u) = k)
      by (by rewrite without_nick).
    set (b1 := SeshetBot.set_store (SeshetBot.store b)
                 (SeshetBot.set_users (dset k (without a u)) b)).
    assert (Hstep : forall X (cont : M Bot X),
              (call_user k
                 (u0 <- self ;;
                  if list_mem a (SeshetUser.channels u0)
                  then channels_remove a else ret tt) ;;
               cont) b = cont b1).
    { intros X cont. erewrite bind_run; [reflexivity|].
      eapply call_user_run; [exact Hu | apply prune_step_user]. }
    assert (Hus1 : SeshetBot.users b1
                   = dset k (without a u) (SeshetBot.users b))
      by reflexivity.
    assert (Hkeys1 : dkeys (SeshetBot.users b1) = dkeys (SeshetBot.users b)).
    { rewrite Hus1, dkeys_dset. unfold dmem. by rewrite Hu. }
    assert (Hget1 : dget k (SeshetBot.users b1) = Some (without a u))
      by (rewrite Hus1; apply dget_dset_eq).
    assert (Hother : forall k', k' <> k ->
              dget k' (SeshetBot.users b1) = dget k' (SeshetBot.users b)).
    { intros k' Hne. rewrite Hus1. apply dget_dset_ne. congruence. }
    cbn [prune]. rewrite Hstep. unfold this. unfold bind at 1. cbn [gets].
    rewrite Hget1. unfold bind at 1. cbn [unwrap ret].
    destruct (length (SeshetUser.channels (without a u)) =? 0) eqn:Hlen.
    + rewrite Hnick'. unfold dmem. rewrite Hget1.
      exists (Raise RuntimeError),
             (SeshetBot.set_users (ddel k) b1).
      split; [reflexivity|]. split; [reflexivity|]. split; [reflexivity|].
      right. split; [reflexivity|].
      exists [], k, rest, u.
      split; [reflexivity|]. split; [exact Hu|].
      split; [apply Nat.eqb_eq in Hlen; by apply nil_length_inv|].
      cbn [SeshetBot.users SeshetBot.set_users].
      split; [apply dget_ddel_eq; by rewrite Hkeys1|].
      split; [intros k' u' H; by apply elem_of_nil in H|].
      intros k' _ Hne. rewrite dget_ddel_ne by congruence. by apply Hother.
    + assert (Hne0 : SeshetUser.channels (without a u) <> []).
      { intros Hnil. rewrite Hnil in Hlen. discriminate. }
      destruct (IH b1 Hrest) as (r & b' & Hrun & Hst & Hch & Hcases).
      { by rewrite Hkeys1. }
      { intros k' Hk'. rewrite Hother by (intros ->; contradiction).
        apply Hall. apply elem_of_cons. by right. }
      exists r, b'. split; [exact Hrun|]. split; [exact Hst|].
      split; [exact Hch|].
      destruct Hcases as [(-> & Hdk & Hin & Hout)
                         |(-> & l1 & k0 & l2 & u0 & -> & Hu0 & He0 & Hk0
                           & Hin & Hout)].
      * left. split; [reflexivity|]. split; [congruence|]. split.
        -- intros k0 u0 Hk0 H0. apply elem_of_cons in Hk0 as [->|Hk0].
           ++ assert (u0 = u) by congruence. subst u0.
              split; [exact Hne0|]. rewrite Hout by exact Hk. exact Hget1.
           ++ apply Hin; [exact Hk0|].
              rewrite Hother by (intros ->; contradiction). exact H0.
        -- intros k0 Hk0. apply not_elem_of_cons in Hk0 as [Hne Hk0].
           rewrite Hout by exact Hk0. by apply Hother.
      * assert (Hkl : (k ∉ l1) /\ k <> k0).
        { rewrite elem_of_app, elem_of_cons in Hk. split; [tauto|].
          intros ->. tauto. }
        right. split; [reflexivity|].
        exists (k :: l1), k0, l2, u0.
        split; [reflexivity|].
        split; [rewrite <- Hother by (intros ->; tauto); exact Hu0|].
        split; [exact He0|]. split; [exact Hk0|]. split.
        -- intros k' u' Hk' H'. apply elem_of_cons in Hk' as [->|Hk'].
           ++ assert (u' = u) by congruence. subst u'.
              split; [exact Hne0|].
              rewrite Hout by tauto. exact Hget1.
           ++ apply Hin; [exact Hk'|].
              rewrite Hother; [exact H'|].
              intros ->. apply Hk. apply elem_of_app. by left.
        -- intros k' Hk' Hne'. apply not_elem_of_cons in Hk' as [Hne1 Hk'].
           rewrite Hout by assumption. by apply Hother.
Qed.

(** X25: the loop that the bot's own PART and KICK run over the users, in
    a roster that holds each user object under its nick.  It returns
    normally only when no user is left without channels once the channel is
    out of the lists: then nobody is deleted and every user has lost the
    channel from its list.  Otherwise it stops at the first user, in the
    order of the dict, whose list is empty once the channel is out of it:
    that user is deleted, the users before it have lost the channel from
    their lists, the users after it are as they were -- they still list the
    channel -- and [RuntimeError] is raised.  Channel objects are never
    touched. *)
Theorem prune_deletes_at_most_one (b : Bot) (a : addr) :
  NoDup (dkeys (SeshetBot.users b)) ->
  (forall k u, dget k (SeshetBot.users b) = Some u -> SeshetUser.nick u = k) ->
  let b' := exec (prune (dkeys (SeshetBot.users b)) a) b in
  SeshetBot.store b' = SeshetBot.store b
  /\ ((outcome (prune (dkeys (SeshetBot.users b)) a) b = Ok tt
       /\ dkeys (SeshetBot.users b') = dkeys (SeshetBot.users b)
       /\ forall k u, dget k (SeshetBot.users b) = Some u ->
                      SeshetUser.channels (without a u) <> []
                      /\ dget k (SeshetBot.users b') = Some (without a u))
      \/ (outcome (prune (dkeys (SeshetBot.users b)) a) b = Raise RuntimeError
          /\ exists l1 k l2 u,
               dkeys (SeshetBot.users b) = l1 ++ k :: l2
               /\ dget k (SeshetBot.users b) = Some u
               /\ SeshetUser.channels (without a u) = []
               /\ dget k (SeshetBot.users b') = None
               /\ (forall k' u', k' ∈ l1 ->
                     dget k' (SeshetBot.users b) = Some u' ->
                     SeshetUser.channels (without a u') <> []
                     /\ dget k' (SeshetBot.users b') = Some (without a u'))
               /\ (forall k', k' ∈ l2 ->
                     dget k' (SeshetBot.users b')
                     = dget k' (SeshetBot.users b))
               /\ (forall k', k' ∉ dkeys (SeshetBot.users b) ->
                     dget k' (SeshetBot.users b') = None))).
Proof.
  intros Hnd Hnick b'.
  destruct (prune_run a (dkeys (SeshetBot.users b)) b Hnd Hnd)
    as (r & b1 & Hrun & Hst & _ & Hcases).
  { intros k Hk. apply elem_of_dkeys in Hk as [u Hu]. eauto. }
  subst b'. unfold exec, outcome. rewrite Hrun. cbn [fst snd].
  split; [exact Hst|].
  destruct Hcases as [(-> & Hdk & Hin & _)
                     |(-> & l1 & k & l2 & u & Hkeys & Hu & He & Hk & Hin
                       & Hout)].
  - left. split; [reflexivity|]. split; [exact Hdk|].
    intros k u Hu. apply Hin; [|exact Hu]. apply elem_of_dkeys. eauto.
  - right. split; [reflexivity|]. exists l1, k, l2, u.
    split; [exact Hkeys|]. split; [exact Hu|]. split; [exact He|].
    split; [exact Hk|]. split; [exact Hin|].
    rewrite Hkeys in Hnd.
    apply NoDup_app in Hnd as (Hnd1 & Hdisj & Hnd2).
    apply NoDup_cons in Hnd2 as [Hk2 Hnd2].
    split.
    + intros k' Hk'. apply Hout.
      * intros H1. apply (Hdisj k' H1). apply elem_of_cons. by right.
      * intros ->. contradiction.
    + intros k' Hk'.
      assert (Hno : dget k' (SeshetBot.users b) = None).
      { destruct (dget k' (SeshetBot.users b)) eqn:H; [|reflexivity].
        exfalso. apply Hk'. apply elem_of_dkeys. eauto. }
      rewrite Hout; [exact Hno | |].
      * intros H1. apply Hk'. rewrite Hkeys. apply elem_of_app. by left.
      * intros ->. apply Hk'. rewrite Hkeys. apply elem_of_app. right.
        apply elem_of_cons. by left.
Qed.

Lemma prune_deletes_at_most_one_witness :
  let b0 := exec (call_user "bot" (part 0)) roster_self in
  let b' := exec (prune (dkeys (SeshetBot.users b0)) 0) b0 in
  SeshetBot.store b' = SeshetBot.store b0
  /\ ((outcome (prune (dkeys (SeshetBot.users b0)) 0) b0 = Ok tt
       /\ dkeys (SeshetBot.users b') = dkeys (SeshetBot.users b0)
       /\ forall k u, dget k (SeshetBot.users b0) = Some u ->
                      SeshetUser.channels (without 0 u) <> []
                      /\ dget k (SeshetBot.users b') = Some (without 0 u))
      \/ (outcome (prune (dkeys (SeshetBot.users b0)) 0) b0
          = Raise RuntimeError
          /\ exists l1 k l2 u,
               dkeys (SeshetBot.users b0) = l1 ++ k :: l2
               /\ dget k (SeshetBot.users b0) = Some u
               /\ SeshetUser.channels (without 0 u) = []
               /\ dget k (SeshetBot.users b') = None
               /\ (forall k' u', k' ∈ l1 ->
                     dget k' (SeshetBot.users b0) = Some u' ->
                     SeshetUser.channels (without 0 u') <> []
                     /\ dget k' (SeshetBot.users b') = Some (without 0 u'))
               /\ (forall k', k' ∈ l2 ->
                     dget k' (SeshetBot.users b')
                     = dget k' (SeshetBot.users b0))
               /\ (forall k', k' ∉ dkeys (SeshetBot.users b0) ->
                     dget k' (SeshetBot.users b') = None))).
Proof.
  intros b0.
  assert (Hus : SeshetBot.users b0
                = [("bot", SeshetUser.mk "bot" "bot" "host" []);
                   ("a", SeshetUser.mk "a" "A" "host" [0]);
                   ("b", SeshetUser.mk "b" "B" "host" [0])])
    by (vm_compute; reflexivity).
  apply (prune_deletes_at_most_one b0 0).
  - rewrite Hus. cbn.
    repeat constructor; rewrite ?elem_of_cons, ?elem_of_nil;
      intuition discriminate.
  - intros k u. rewrite Hus. cbn [dget].
    repeat match goal with
           | |- context [String.eqb ?s k] =>
               destruct (String.eqb_spec s k) as [Heq|?];
               [subst k; intros [= <-]; reflexivity|]
           end.
    intros H; discriminate H.
Defined.

(** The loop on that roster: the bot's own entry goes, [A] and [B] stay
    and still list the channel.  On a roster in which the first user keeps
    a channel, the loop takes the channel out of that user's list before it
    deletes the second. *)
Example prune_run_ex :
  let b0 := exec (call_user "bot" (part 0)) roster_self in
  outcome (prune (dkeys (SeshetBot.users b0)) 0) b0 = Raise RuntimeError
  /\ memberships (exec (prune (dkeys (SeshetBot.users b0)) 0) b0)
     = [("a", [0]); ("b", [0])]
  /\ outcome (prune (dkeys (SeshetBot.users quit_roster)) 0) quit_roster
     = Raise RuntimeError
  /\ memberships (exec (prune (dkeys (SeshetBot.users quit_roster)) 0)
                       quit_roster)
     = [("a", [1])].
Proof. vm_compute. repeat split; reflexivity. Qed.

(** ** Messages *)

(** A raw string finds nothing where its identity is no key. *)
Lemma dget_raw_unknown {V} (s : string) (d : dict V) :
  dget (IRCstr s) d = None -> dget_raw s d = None.
Proof.
  intros H. unfold dget_raw, canonical.
  destruct (String.eqb_spec (IRCstr s) s) as [Heq|]; [|reflexivity].
  by rewrite <- Heq.
Qed.

Section UnknownChannel.
Variable strftime : string -> Time -> string.
Variable expanduser : string -> string.
Variable dirname : string -> string.

(** X26: with a database, a message to a channel that is not in the
    roster -- no names reply has come for it -- is written to the event
    log and then stops module dispatch with [KeyError] at the lookup of
    the channel's users: the roster is as before and no handler is
    called, whatever the modules are. *)
Theorem on_message_unknown_channel (b : Bot) (d : DB) (e : Event) :
  SeshetBot.db b = Some d ->
  PyStr.mem (command e) message_commands = true ->
  PyStr.startswith (target e) "#" = true ->
  dget (IRCstr (target e)) (SeshetBot.channels b) = None ->
  let b' := exec (on_message strftime expanduser dirname e) b in
  outcome (on_message strftime expanduser dirname e) b = Raise KeyError
  /\ roster b' = roster b
  /\ SeshetBot.calls b' = SeshetBot.calls b
  /\ SeshetBot.db b'
     = Some (mkDB (event_log d
                   ++ [mkRow "privmsg" (SeshetBot.now b) (source e)
                             (target e) (message e) "" ""])
                  (modules d)).
Proof.
  intros Hd Hcmd Hchan Hnone b'.
  assert (Hrun : on_message strftime expanduser dirname e b
            = (Raise KeyError,
               SeshetBot.set_db
                 (Some (mkDB (event_log d
                              ++ [mkRow "privmsg" (SeshetBot.now b)
                                        (source e) (target e) (message e)
                                        "" ""])
                             (modules d)))
                 (SeshetBot.set_now (S (SeshetBot.now b)) b))).
  { unfold on_message.
    erewrite bind_run by (by apply (self_log_db _ _ _ _ d)).
    unfold this. unfold bind at 1. cbn [gets].
    cbn [SeshetBot.channels SeshetBot.set_db SeshetBot.set_now].
    apply dget_raw_unknown in Hnone.
    unfold dmem_raw. rewrite Hnone.
    erewrite bind_run by reflexivity.
    erewrite bind_raise; [reflexivity|].
    unfold self_run_modules, this. unfold bind at 1. cbn [gets].
    cbn [SeshetBot.db SeshetBot.set_db].
    unfold run_modules, this. unfold bind at 1. cbn [gets].
    cbn [SeshetBot.db SeshetBot.set_db]. unfold bind at 1.
    cbn [unwrap ret]. unfold message_commands in Hcmd. rewrite Hcmd.
    rewrite Hchan. cbn [SeshetBot.channels SeshetBot.set_db
                        SeshetBot.set_now].
    rewrite Hnone. reflexivity. }
  subst b'. unfold exec, outcome. rewrite Hrun. auto.
Qed.
End UnknownChannel.

Lemma on_message_unknown_channel_witness :
  let e := privmsg "A" "#nowhere" "hi" in
  let b' := exec (on_message strftime0 expanduser0 dirname0 e) eager_bot in
  outcome (on_message strftime0 expanduser0 dirname0 e) eager_bot
  = Raise KeyError
  /\ roster b' = roster eager_bot
  /\ SeshetBot.calls b' = SeshetBot.calls eager_bot
  /\ SeshetBot.db b'
     = Some (mkDB (event_log (mkDB [] [eager_mod])
                   ++ [mkRow "privmsg" (SeshetBot.now eager_bot) (source e)
                             (target e) (message e) "" ""])
                  (modules (mkDB [] [eager_mod]))).
Proof.
  intros e.
  apply (on_message_unknown_channel strftime0 expanduser0 dirname0 eager_bot
           (mkDB [] [eager_mod]) e).
  - reflexivity.
  - reflexivity.
  - reflexivity.
  - reflexivity.
Defined.

(** ** Messages sent to the bot itself *)

Section Direct.
Variables (nickname m_low bot_n bot_u bot_r : string).
Variable chan_nicks : option (gset Identity).

Lemma select_one_direct s m :
  target (sel_event s) = nickname ->
  sel_event (select_one nickname m_low bot_n bot_u bot_r chan_nicks s m)
  = sel_event s
  /\ for_us (select_one nickname m_low bot_n bot_u bot_r chan_nicks s m)
     = for_us s
  /\ (PyStr.mem nickname (enicks m) = true ->
      m ∈ fin_mods (select_one nickname m_low bot_n bot_u bot_r
                               chan_nicks s m)).
Proof.
  intros Ht.
  assert (Heq : PyStr.eqb (target (sel_event s)) nickname = true)
    by (unfold PyStr.eqb; by apply bool_decide_eq_true_2).
  unfold select_one, addressed, append_mod.
  cbn [sel_event for_us fin_mods]. rewrite Heq. cbn [orb].
  repeat split;
    repeat match goal with
           | |- context [if ?c then _ else _] => destruct c eqn:?
           | |- context [match ?o with Some _ => _ | None => _ end] =>
               destruct o eqn:?
           end;
    cbn [sel_event for_us fin_mods]; try reflexivity; try discriminate;
    intros; rewrite ?elem_of_app, ?list_elem_of_singleton; auto;
    congruence.
Qed.

Lemma fold_direct ms s :
  target (sel_event s) = nickname ->
  sel_event (fold_left (select_one nickname m_low bot_n bot_u bot_r
                                   chan_nicks) ms s)
  = sel_event s
  /\ for_us (fold_left (select_one nickname m_low bot_n bot_u bot_r
                                   chan_nicks) ms s)
     = for_us s
  /\ (forall m, m ∈ ms -> PyStr.mem nickname (enicks m) = true ->
        m ∈ fin_mods (fold_left (select_one nickname m_low bot_n bot_u
                                            bot_r chan_nicks) ms s)).
Proof.
  revert s. induction ms as [|m ms IH]; intros s Ht; cbn [fold_left].
  - repeat split. intros m Hm. by apply elem_of_nil in Hm.
  - destruct (select_one_direct s m Ht) as (Hev & Hf & Hin).
    destruct (IH (select_one nickname m_low bot_n bot_u bot_r chan_nicks
                             s m)) as (Hev' & Hf' & Hin').
    { by rewrite Hev. }
    repeat split; [congruence | congruence |].
    intros m' Hm' He. apply elem_of_cons in Hm' as [->|Hm'].
    + apply fold_keeps_member. auto.
    + auto.
Qed.
End Direct.

(** X27: a message whose target is the bot's nickname is never rewritten
    by the selection loop, also when it begins with the bot's name: the
    event comes out as it went in, it is not marked as addressed, and every
    module that has the nickname among its [enicks] is selected. *)
Theorem direct_message_not_rewritten
    (b : Bot) (e : Event) (chan_nicks : option (gset Identity))
    (init_mods : list ModuleRule) :
  target e = SeshetBot.nickname b ->
  let s := select b e chan_nicks init_mods in
  sel_event s = e
  /\ for_us s = false
  /\ (forall m, m ∈ init_mods ->
        PyStr.mem (SeshetBot.nickname b) (enicks m) = true ->
        m ∈ fin_mods s).
Proof.
  intros Ht s. subst s. unfold select.
  apply (fold_direct (SeshetBot.nickname b) _ _ _ _ chan_nicks init_mods
                     (mkSel e false [])).
  exact Ht.
Qed.

Lemma direct_message_not_rewritten_witness :
  let e := privmsg "Al" "Seshet" "Seshet: hello" in
  let s := select seshet_bot e None [hello_mod "m1"; hello_mod "m2"] in
  sel_event s = e
  /\ for_us s = false
  /\ (forall m, m ∈ [hello_mod "m1"; hello_mod "m2"] ->
        PyStr.mem (SeshetBot.nickname seshet_bot) (enicks m) = true ->
        m ∈ fin_mods s).
Proof.
  intros e.
  apply (direct_message_not_rewritten seshet_bot e None
           [hello_mod "m1"; hello_mod "m2"]).
  reflexivity.
Defined.

(** ** Which handlers are called *)

#[export] Instance calls_grow_preorder P : PreOrder (calls_grow P).
Proof.
  split.
  - intros b. exists []. by rewrite app_nil_r.
  - intros a b c (n1 & H1 & F1) (n2 & H2 & F2). exists (n1 ++ n2).
    split; [by rewrite H2, H1, app_assoc | by apply Forall_app].
Qed.

Lemma same_calls_grow {A} P (c : M Bot A) :
  keeps (same SeshetBot.calls) c -> keeps (calls_grow P) c.
Proof.
  intros H b. exists []. rewrite app_nil_r. split; [apply H | constructor].
Qed.

Lemma scan_commands_sound prefix argv cmds e :
  keeps (calls_grow (fun call => exists cmd, (cmd, fst call) ∈ cmds))
        (scan_commands prefix argv cmds e).
Proof.
  induction cmds as [|[cmd h] r IH]; cbn [scan_commands].
  - apply keeps_ret. apply _.
  - apply keeps_bind; [apply _ | apply keeps_unwrap; apply _ | intros argv0].
    destruct (PyStr.eqb _ argv0).
    + intros b. exists [(h, e)]. split; [reflexivity|].
      repeat constructor. exists cmd. cbn. apply elem_of_cons. by left.
    + intros b. destruct (IH b) as (new & Hnew & Hall).
      exists new. split; [exact Hnew|].
      eapply List.Forall_impl; [|exact Hall].
      intros call [c Hc]. exists c. apply elem_of_cons. by right.
Qed.

Lemma run_module_sound (d : DB) cmd_name argv e m :
  m ∈ modules d -> enabled m = true ->
  PyStr.mem cmd_name (event_types m) = true ->
  keeps (calls_grow (called_for d cmd_name)) (run_module argv e m).
Proof.
  intros Hin Hen Hty b. unfold exec, run_module, bind.
  destruct (commands m) as [cmds|] eqn:Hcmds; cbn [unwrap ret raise snd];
    [|reflexivity].
  destruct (scan_commands_sound (cmd_prefix m) argv cmds e b)
    as (new & Hnew & Hall).
  exists new. split; [exact Hnew|].
  eapply List.Forall_impl; [|exact Hall].
  intros call [cmd Hc]. exists m, cmds, cmd. auto.
Qed.

Lemma for_each_modules_sound (d : DB) cmd_name argv e (l : list ModuleRule) :
  Forall (fun m => m ∈ modules d /\ enabled m = true
                   /\ PyStr.mem cmd_name (event_types m) = true) l ->
  keeps (calls_grow (called_for d cmd_name))
        (for_each l (run_module argv e)).
Proof.
  induction 1 as [|m l (Hin & Hen & Hty) _ IH]; cbn [for_each].
  - apply keeps_ret. apply _.
  - apply keeps_bind; [apply _ | by apply run_module_sound | intros _].
    exact IH.
Qed.

Lemma select_one_sound nickname m_low bot_n bot_u bot_r chan_nicks s m m' :
  m' ∈ fin_mods (select_one nickname m_low bot_n bot_u bot_r chan_nicks s m) ->
  m' ∈ fin_mods s \/ m' = m.
Proof.
  unfold select_one, addressed, append_mod;
    repeat match goal with
           | |- context [if ?c then _ else _] => destruct c
           | |- context [match ?o with Some _ => _ | None => _ end] =>
               destruct o
           end;
    cbn [sel_event for_us fin_mods];
    rewrite ?elem_of_app, ?list_elem_of_singleton; tauto.
Qed.

Lemma select_sound (b : Bot) e chan_nicks init_mods m :
  m ∈ fin_mods (select b e chan_nicks init_mods) -> m ∈ init_mods.
Proof.
  unfold select.
  enough (H : forall s,
             m ∈ fin_mods
                   (fold_left
                      (select_one (SeshetBot.nickname b)
                         (PyStr.lower (message e))
                         (PyStr.lower (SeshetBot.nickname b))
                         (PyStr.lower (SeshetBot.user b))
                         (PyStr.lower (SeshetBot.real_name b)) chan_nicks)
                      init_mods s) ->
             m ∈ fin_mods s \/ m ∈ init_mods).
  { intros Hm. destruct (H _ Hm) as [H0|H0]; [|exact H0].
    by apply elem_of_nil in H0. }
  induction init_mods as [|m0 ms IH]; intros s; cbn [fold_left]; [auto|].
  intros Hm. destruct (IH _ Hm) as [H0|H0].
  - apply select_one_sound in H0 as [H0| ->]; [by left|].
    right. apply elem_of_cons. by left.
  - right. apply elem_of_cons. by right.
Qed.

(** X28: whatever the event, module dispatch only adds to the recorded
    handler calls, and every handler it calls belongs to a command of a
    module of the table that is enabled and lists the event's command among
    its event types: a disabled module is never run, nor one that listens
    to other commands. *)
Theorem dispatch_runs_enabled_listeners (b : Bot) (d : DB) (e : Event) :
  SeshetBot.db b = Some d ->
  exists new,
    SeshetBot.calls (exec (self_run_modules e) b) = SeshetBot.calls b ++ new
    /\ Forall (called_for d (command e)) new.
Proof.
  intros Hd.
  change (calls_grow (called_for d (command e)) b
                     (exec (self_run_modules e) b)).
  unfold exec, self_run_modules, this. unfold bind at 1. cbn [gets].
  rewrite Hd. unfold run_modules, this. unfold bind at 1. cbn [gets].
  rewrite Hd. unfold bind at 1. cbn [unwrap ret].
  destruct (PyStr.mem (command e) ["PRIVMSG"; "CTCP_ACTION"; "NOTICE"]);
    [|reflexivity].
  match goal with
  | |- calls_grow ?P b (snd (?c b)) =>
      enough (H : keeps (calls_grow P) c) by apply H
  end.
  apply keeps_bind; [apply _ | |intros chan_nicks].
  - apply same_calls_grow. frame_auto.
  - apply keeps_bind; [apply _ | | intros; apply keeps_ret; apply _].
    apply for_each_modules_sound.
    apply List.Forall_forall. intros m Hm.
    apply list_elem_of_In in Hm.
    apply select_sound in Hm. unfold query_modules in Hm.
    apply list_elem_of_filter in Hm as [Hf Hm].
    apply andb_prop_elim in Hf as [Hty Hen].
    split; [exact Hm|]. split; [by apply Is_true_true | by apply Is_true_true].
Qed.

Lemma dispatch_runs_enabled_listeners_witness :
  exists new,
    SeshetBot.calls (exec (self_run_modules (privmsg "A" "#c" "hi")) mixed_bot)
    = SeshetBot.calls mixed_bot ++ new
    /\ Forall (called_for
                 (mkDB []
                    [mkModule "off" "" ["PRIVMSG"] false [] [] [] []
                              ["#c"] [] (Some [("hi", "off.hi")]);
                     mkModule "joins" "" ["JOIN"] true [] [] [] []
                              ["#c"] [] (Some [("hi", "joins.hi")]);
                     eager_mod])
                 (command (privmsg "A" "#c" "hi"))) new.
Proof.
  apply (dispatch_runs_enabled_listeners mixed_bot _ (privmsg "A" "#c" "hi")).
  reflexivity.
Defined.

Example mixed_run :
  SeshetBot.calls (exec (self_run_modules (privmsg "A" "#c" "hi")) mixed_bot)
  = [("eager.run", privmsg "A" "#c" "hi")].
Proof. vm_compute. reflexivity. Qed.

(** ** A names reply for a channel with members *)

Section Orphans.
Variable strftime : string -> Time -> string.
Variable expanduser : string -> string.
Variable dirname : string -> string.

(** X29: a names reply puts a new channel object under the name, and the
    users keep the objects they listed.  The next PART of a known user
    from that channel therefore returns normally and takes nobody out:
    the user object is as before the reply, with the old object still in
    its list, and the channel under the name is the object made from the
    reply, with every nick of the reply in its set. *)
Theorem names_reply_orphans_members
    (b : Bot) (d : DB) (names e : Event) (u : SeshetUser.t) :
  SeshetBot.db b = Some d ->
  IRCstr (channel names) = IRCstr (target e) ->
  IRCstr (source e) <> IRCstr (SeshetBot.nickname b) ->
  dget (IRCstr (source e)) (SeshetBot.users b) = Some u ->
  (forall a, a ∈ SeshetUser.channels u -> a < length (SeshetBot.store b)) ->
  let b1 := exec (_add_channel_names names) b in
  let b2 := exec (on_part strftime expanduser dirname e) b1 in
  outcome (on_part strftime expanduser dirname e) b1 = Ok tt
  /\ SeshetBot.users b2 = SeshetBot.users b
  /\ SeshetBot.store b2 = SeshetBot.store b1
  /\ channel_at (target e) b2
     = Some (SeshetChannel.init (IRCstr (channel names))
               (list_to_set (map IRCstr (name_list names))) 100).
Proof.
  intros Hd Hname Hnb Hu Hlive b1 b2.
  set (new := length (SeshetBot.store b)).
  set (c := SeshetChannel.init (IRCstr (channel names))
              (list_to_set (map IRCstr (name_list names))) 100).
  assert (Hb1 : b1 = SeshetBot.set_channels
                       (dset (IRCstr (channel names)) new)
                       (SeshetBot.set_store (SeshetBot.store b ++ [c]) b))
    by (unfold b1, exec; rewrite add_channel_names_run; reflexivity).
  clearbody b1.
  assert (Hd1 : SeshetBot.db b1 = Some d) by (rewrite Hb1; exact Hd).
  assert (Hmem : list_mem new (SeshetUser.channels u) = false).
  { destruct (list_mem new (SeshetUser.channels u)) eqn:H; [|reflexivity].
    apply list_mem_elem_of, Hlive in H. unfold new in H. lia. }
  set (b1' := SeshetBot.set_db
                (Some (mkDB (event_log d
                             ++ [mkRow "part" (SeshetBot.now b1) (source e)
                                       (target e)
                                       (PyStr.join " " (tail (params e)))
                                       (hostmask_of e) ""])
                            (modules d)))
                (SeshetBot.set_now (S (SeshetBot.now b1)) b1)).
  assert (Hrun : on_part strftime expanduser dirname e b1
                 = (Ok tt,
                    SeshetBot.set_store (SeshetBot.store b1')
                      (SeshetBot.set_users
                         (dset (IRCstr (source e)) u) b1'))).
  { unfold on_part.
    erewrite bind_run by (by apply (self_log_db _ _ _ _ d)).
    fold b1'. unfold leave, this. unfold bind at 1. cbn [gets].
    assert (Hch : dget (IRCstr (target e)) (SeshetBot.channels b1')
                  = Some new).
    { unfold b1'. rewrite Hb1. cbn. rewrite <- Hname. apply dget_dset_eq. }
    assert (Hus : dget (IRCstr (source e)) (SeshetBot.users b1') = Some u)
      by (unfold b1'; rewrite Hb1; exact Hu).
    rewrite Hch, Hus. unfold bind at 1. cbn [unwrap ret].
    unfold bind at 1. cbn [unwrap ret].
    erewrite bind_run; cycle 1.
    { eapply call_user_run; [exact Hus|]. by apply part_run_unlisted. }
    assert (Hnick : SeshetBot.nickname b1' = SeshetBot.nickname b)
      by (unfold b1'; rewrite Hb1; reflexivity).
    rewrite Hnick. apply String.eqb_neq in Hnb. rewrite Hnb. reflexivity. }
  subst b2. unfold exec, outcome. rewrite Hrun.
  cbn [fst snd SeshetBot.users SeshetBot.store SeshetBot.set_users
       SeshetBot.set_store].
  split; [reflexivity|]. split.
  { unfold b1'. rewrite Hb1. cbn. by apply dset_id. }
  split; [reflexivity|].
  unfold channel_at, b1'. rewrite Hb1. cbn. rewrite <- Hname, dget_dset_eq.
  rewrite lookup_app_r by (unfold new; lia).
  unfold new. rewrite Nat.sub_diag. reflexivity.
Qed.
End Orphans.

Lemma names_reply_orphans_members_witness :
  let names := names_reply "#c" ["A"; "Bot"] in
  let e := part_event "A" "#c" in
  let b1 := exec (_add_channel_names names) roster_a in
  let b2 := exec (on_part strftime0 expanduser0 dirname0 e) b1 in
  outcome (on_part strftime0 expanduser0 dirname0 e) b1 = Ok tt
  /\ SeshetBot.users b2 = SeshetBot.users roster_a
  /\ SeshetBot.store b2 = SeshetBot.store b1
  /\ channel_at (target e) b2
     = Some (SeshetChannel.init (IRCstr (channel names))
               (list_to_set (map IRCstr (name_list names))) 100).
Proof.
  intros names e.
  apply (names_reply_orphans_members strftime0 expanduser0 dirname0 roster_a
           (mkDB [mkRow "join" 0 "A" "#c" "" "A@host" ""] []) names e user_a).
  - vm_compute. reflexivity.
  - reflexivity.
  - vm_compute. discriminate.
  - vm_compute. reflexivity.
  - intros a Ha. cbn in Ha. apply list_elem_of_singleton in Ha as ->.
    vm_compute. lia.
Defined.

(** After the reply and the PART, [A] still lists the old object and is in
    the set of the new one. *)
Example orphan_run :
  let b2 := exec (_add_channel_names (names_reply "#c" ["A"; "Bot"]) ;;
                  on_part0 (part_event "A" "#c")) roster_a in
  memberships b2 = [("a", [0])]
  /\ members "#c" b2 = Some ["a"; "bot"]
  /\ dget "#c" (SeshetBot.channels b2) = Some 1.
Proof. vm_compute. repeat split; reflexivity. Qed.

(** ** Blank messages *)

(** X30: a message without any word -- empty or white space only -- sent
    to the bot itself, with a database: when the first selected module
    that has commands at all is reached, the comparison with the first
    word raises [IndexError]; no handler is called, and the modules after
    it are not run. *)
Theorem blank_message_raises_index_error
    (b : Bot) (d : DB) (e : Event) (pre post : list ModuleRule)
    (m : ModuleRule) (cmd : string * Handler) (cmds : dict Handler) :
  SeshetBot.db b = Some d ->
  PyStr.mem (command e) message_commands = true ->
  PyStr.startswith (target e) "#" = false ->
  PyStr.split (PyStr.lower (message e)) = [] ->
  fin_mods (select b e None (query_modules d e)) = pre ++ m :: post ->
  Forall (fun m' => commands m' = Some []) pre ->
  commands m = Some (cmd :: cmds) ->
  self_run_modules e b = (Raise IndexError, b).
Proof.
  intros Hd Hcmd Hq Hsplit Hfin Hpre Hm.
  unfold self_run_modules, this. unfold bind at 1. cbn [gets]. rewrite Hd.
  unfold run_modules, this. unfold bind at 1. cbn [gets]. rewrite Hd.
  unfold bind at 1. cbn [unwrap ret].
  unfold message_commands in Hcmd. rewrite Hcmd, Hq.
  unfold bind at 1. cbn [ret]. rewrite Hfin, Hsplit.
  unfold bind at 1.
  enough (H : for_each (pre ++ m :: post)
                (run_module [] (sel_event (select b e None
                                                  (query_modules d e)))) b
              = (Raise IndexError, b)) by (rewrite H; reflexivity).
  clear Hfin. induction Hpre as [|m0 pre Hm0 _ IH]; cbn [app for_each].
  - unfold bind at 1. unfold run_module at 1, bind at 1. rewrite Hm.
    cbn [unwrap ret]. destruct cmd as [c h]. reflexivity.
  - unfold bind at 1. unfold run_module at 1, bind at 1. rewrite Hm0.
    cbn [unwrap ret scan_commands]. exact IH.
Qed.

Lemma blank_message_raises_index_error_witness :
  self_run_modules (privmsg "Al" "Seshet" "   ") seshet_bot
  = (Raise IndexError, seshet_bot).
Proof.
  apply (blank_message_raises_index_error seshet_bot
           (mkDB [] [hello_mod "m1"; hello_mod "m2"])
           (privmsg "Al" "Seshet" "   ") [] [hello_mod "m2"]
           (hello_mod "m1") ("hello", "m1.hello") []).
  - reflexivity.
  - reflexivity.
  - reflexivity.
  - reflexivity.
  - vm_compute. reflexivity.
  - constructor.
  - reflexivity.
Defined.

(** * Messages outside the channels of the roster *)

Section UnknownTarget.
Variable strftime : string -> Time -> string.
Variable expanduser : string -> string.
Variable dirname : string -> string.

(** Without a channel to write to, the handler is the log call followed by
    module dispatch. *)
Lemma on_message_unknown_run (b : Bot) (e : Event) :
  dmem_raw (target e) (SeshetBot.channels b) = false ->
  on_message strftime expanduser dirname e b
  = (self_log strftime expanduser dirname "privmsg" (source e)
              (message e) (target e) "" "" ;;
     self_run_modules e ;;
     ret tt) b.
Proof.
  intros Hmem. unfold on_message, bind.
  pose proof (self_log_keeps_roster strftime expanduser dirname
                "privmsg" (source e) (message e) (target e) "" "" b)
    as Hk.
  unfold same, roster, exec in Hk.
  destruct (self_log _ _ _ _ _ _ _ _ _ b) as [[[]|x] b1]; [|reflexivity].
  cbn [snd] in Hk. injection Hk as Hc _ _.
  unfold this, gets. rewrite Hc, Hmem. reflexivity.
Qed.

(** The modules that were selected, run on a message with a first word:
    when each of them can be imported the loop returns, and each calls the
    handler of its first command that matches the word. *)
Lemma for_each_modules_run token rest e (l : list ModuleRule) : forall b : Bot,
  Forall (fun m => commands m <> None) l ->
  exists new b',
    for_each l (run_module (token :: rest) e) b = (Ok tt, b')
    /\ SeshetBot.calls b' = SeshetBot.calls b ++ new
    /\ SeshetBot.db b' = SeshetBot.db b
    /\ forall m cmds h,
         m ∈ l -> commands m = Some cmds ->
         first_match (cmd_prefix m) token cmds = Some h -> (h, e) ∈ new.
Proof.
  induction l as [|m l IH]; intros b Hall; cbn [for_each].
  - exists [], b. rewrite app_nil_r. repeat split.
    intros m cmds h Hm. by apply elem_of_nil in Hm.
  - apply Forall_cons in Hall as [Hm Hall].
    destruct (commands m) as [cmds|] eqn:Hcmds; [|congruence].
    set (b1 := match first_match (cmd_prefix m) token cmds with
               | Some h => SeshetBot.set_calls (SeshetBot.calls b ++ [(h, e)]) b
               | None => b
               end).
    assert (Hstep : run_module (token :: rest) e m b = (Ok tt, b1)).
    { unfold run_module. rewrite Hcmds. unfold bind at 1. cbn [unwrap ret].
      apply scan_commands_first_match. }
    destruct (IH b1 Hall) as (new' & b' & Hrun & Hcalls & Hdb & Hin).
    exists (match first_match (cmd_prefix m) token cmds with
            | Some h => [(h, e)]
            | None => []
            end ++ new'), b'.
    split; [by erewrite bind_run by exact Hstep|].
    split.
    { rewrite Hcalls. unfold b1.
      destruct (first_match (cmd_prefix m) token cmds); cbn;
        by rewrite <- ?app_assoc. }
    split.
    { rewrite Hdb. unfold b1.
      by destruct (first_match (cmd_prefix m) token cmds). }
    intros m0 cmds0 h0 Hm0 Hc0 Hf0.
    apply elem_of_cons in Hm0 as [->|Hm0].
    + assert (cmds0 = cmds) by congruence. subst cmds0. rewrite Hf0.
      apply elem_of_app. left. apply elem_of_cons. by left.
    + apply elem_of_app. right. by eapply Hin.
Qed.

(** Dispatch of a message sent to the bot itself. *)
Lemma run_modules_direct (b : Bot) (d : DB) (e : Event) (m : ModuleRule)
    (cmds : dict Handler) (token : string) (rest : list string)
    (h : Handler) :
  SeshetBot.db b = Some d ->
  PyStr.mem (command e) message_commands = true ->
  target e = SeshetBot.nickname b ->
  PyStr.startswith (target e) "#" = false ->
  PyStr.split (PyStr.lower (message e)) = token :: rest ->
  Forall (fun m' => commands m' <> None) (modules d) ->
  m ∈ modules d -> enabled m = true ->
  PyStr.mem (command e) (event_types m) = true ->
  PyStr.mem (SeshetBot.nickname b) (enicks m) = true ->
  commands m = Some cmds ->
  first_match (cmd_prefix m) token cmds = Some h ->
  exists new b',
    run_modules e b = (Ok e, b')
    /\ SeshetBot.calls b' = SeshetBot.calls b ++ new
    /\ SeshetBot.db b' = SeshetBot.db b
    /\ (h, e) ∈ new.
Proof.
  intros Hd Hcmd Htarget Hq Hsplit Himp Hm Hen Hty Hnick Hcmds Hfirst.
  destruct (fold_direct (SeshetBot.nickname b) (PyStr.lower (message e))
              (PyStr.lower (SeshetBot.nickname b))
              (PyStr.lower (SeshetBot.user b))
              (PyStr.lower (SeshetBot.real_name b)) None
              (query_modules d e) (mkSel e false []) Htarget)
    as (Hev & _ & Hsel).
  fold (select b e None (query_modules d e)) in Hev, Hsel.
  cbn [sel_event] in Hev.
  assert (Hmq : m ∈ query_modules d e).
  { unfold query_modules. apply list_elem_of_filter. split; [|exact Hm].
    rewrite Hty, Hen. exact I. }
  destruct (for_each_modules_run token rest e
              (fin_mods (select b e None (query_modules d e))) b)
    as (new & b' & Hrun & Hcalls & Hdb & Hin).
  { apply Forall_forall. intros m' Hm'.
    apply select_sound in Hm'. unfold query_modules in Hm'.
    apply list_elem_of_filter in Hm' as [_ Hm'].
    rewrite Forall_forall in Himp. by apply Himp. }
  exists new, b'. split; [|split; [exact Hcalls|split; [exact Hdb|]]].
  - unfold run_modules, this. unfold bind at 1. cbn [gets]. rewrite Hd.
    unfold bind at 1. cbn [unwrap ret].
    unfold message_commands in Hcmd. rewrite Hcmd, Hq.
    unfold bind at 1. cbn [ret]. rewrite Hsplit, Hev.
    erewrite bind_run by exact Hrun. reflexivity.
  - apply (Hin m cmds h); [|exact Hcmds | exact Hfirst].
    by apply Hsel.
Qed.

(** C10: a message whose target, the raw string that the handler looks up,
    finds no channel in the channel dict -- a message sent to the bot
    itself, or to a name that is no channel of the roster or is not spelled
    as its key -- leaves every channel object, hence every [message_log],
    as it was.  The event is logged all the same and passed to module
    dispatch: the handler is the log call followed by dispatch.  With a
    database the event is one more row of the event log and dispatch runs
    from there; a message sent to the bot itself then calls the handler of
    each listening module of which a command is the first word.  Without a
    database the handler does what the file logger does, and a line that
    the logger can write is in the file. *)
Theorem C10_unknown_target_keeps_message_logs (b : Bot) (e : Event) :
  dmem_raw (target e) (SeshetBot.channels b) = false ->
  SeshetBot.store (exec (on_message strftime expanduser dirname e) b)
  = SeshetBot.store b
  /\ on_message strftime expanduser dirname e b
     = (self_log strftime expanduser dirname "privmsg" (source e)
                 (message e) (target e) "" "" ;;
        self_run_modules e ;;
        ret tt) b
  /\ (forall d,
         SeshetBot.db b = Some d ->
         let row := mkRow "privmsg" (SeshetBot.now b) (source e) (target e)
                          (message e) "" "" in
         let logged :=
           SeshetBot.set_db (Some (mkDB (event_log d ++ [row]) (modules d)))
                            (SeshetBot.set_now (S (SeshetBot.now b)) b) in
         on_message strftime expanduser dirname e b
         = (run_modules e ;; ret tt) logged
         /\ SeshetBot.db (exec (on_message strftime expanduser dirname e) b)
            = Some (mkDB (event_log d ++ [row]) (modules d)))
  /\ (forall d m cmds token rest h,
         SeshetBot.db b = Some d ->
         PyStr.mem (command e) message_commands = true ->
         target e = SeshetBot.nickname b ->
         PyStr.startswith (target e) "#" = false ->
         PyStr.split (PyStr.lower (message e)) = token :: rest ->
         Forall (fun m' => commands m' <> None) (modules d) ->
         m ∈ modules d -> enabled m = true ->
         PyStr.mem (command e) (event_types m) = true ->
         PyStr.mem (SeshetBot.nickname b) (enicks m) = true ->
         commands m = Some cmds ->
         first_match (cmd_prefix m) token cmds = Some h ->
         outcome (on_message strftime expanduser dirname e) b = Ok tt
         /\ exists new,
              SeshetBot.calls (exec (on_message strftime expanduser dirname e)
                                    b)
              = SeshetBot.calls b ++ new
              /\ (h, e) ∈ new)
  /\ (SeshetBot.db b = None ->
      on_message strftime expanduser dirname e b
      = _log_to_file strftime expanduser dirname "privmsg" (source e)
                     (message e) (target e) "" "" b)
  /\ (SeshetBot.db b = None ->
      forall date_fmt time_fmt short_fmt long_fmt fmt path line,
        dget "date_fmt" (SeshetBot.locale b) = Some date_fmt ->
        dget "time_fmt" (SeshetBot.locale b) = Some time_fmt ->
        dget "short_datetime_fmt" (SeshetBot.locale b) = Some short_fmt ->
        dget "long_datetime_fmt" (SeshetBot.locale b) = Some long_fmt ->
        dget "privmsg" (SeshetBot.log_formats b) = Some fmt ->
        let today := SeshetBot.now b in
        let target' :=
          if PyStr.eqb (target e) (SeshetBot.nickname b)
          then source e else target e in
        let locals :=
          [("self", SeshetBot.self_str b); ("etype", "privmsg");
           ("source", source e); ("msg", message e); ("target", target');
           ("hostmask", ""); ("params", "");
           ("today", str_datetime strftime today);
           ("date", strftime date_fmt today);
           ("time", strftime time_fmt today);
           ("datetime_s", strftime short_fmt today);
           ("datetime_l", strftime long_fmt today)] in
        format (SeshetBot.log_file b) locals = Some path ->
        dirname (expanduser path) <> "" ->
        format fmt (locals ++ [("file_path", expanduser path);
                               ("file_dir", dirname (expanduser path))])
        = Some line ->
        outcome (on_message strftime expanduser dirname e) b = Ok tt
        /\ SeshetBot.files (exec (on_message strftime expanduser dirname e) b)
           = SeshetBot.files b
             ++ [(expanduser path, String.append line newline)]).
Proof.
  intros Hmem.
  pose proof (on_message_unknown_run b e Hmem) as Heq.
  assert (Hdb : forall d,
             SeshetBot.db b = Some d ->
             on_message strftime expanduser dirname e b
             = (run_modules e ;; ret tt)
                 (SeshetBot.set_db
                    (Some (mkDB (event_log d
                                 ++ [mkRow "privmsg" (SeshetBot.now b)
                                           (source e) (target e) (message e)
                                           "" ""])
                                (modules d)))
                    (SeshetBot.set_now (S (SeshetBot.now b)) b))).
  { intros d Hd. rewrite Heq.
    erewrite bind_run by (by apply (self_log_db _ _ _ _ d)).
    unfold self_run_modules, this. unfold bind at 1 2. cbn [gets].
    reflexivity. }
  assert (Hfile : SeshetBot.db b = None ->
             on_message strftime expanduser dirname e b
             = _log_to_file strftime expanduser dirname "privmsg" (source e)
                            (message e) (target e) "" "" b).
  { intros Hd. rewrite Heq.
    pose proof (self_log_grows strftime expanduser dirname "privmsg"
                  (source e) (message e) (target e) "" "" b) as Hnone.
    unfold log_grows in Hnone. rewrite Hd in Hnone. unfold exec in Hnone.
    assert (Hsl : self_log strftime expanduser dirname "privmsg" (source e)
                           (message e) (target e) "" "" b
                  = _log_to_file strftime expanduser dirname "privmsg"
                                 (source e) (message e) (target e) "" "" b)
      by (unfold self_log, this, bind, gets; rewrite Hd; reflexivity).
    unfold bind at 1. rewrite Hsl in *.
    destruct (_log_to_file _ _ _ _ _ _ _ _ _ b) as [[[]|x] b1];
      cbn [snd] in Hnone; [|reflexivity].
    unfold self_run_modules, this, bind, gets. rewrite Hnone. reflexivity. }
  split; [|split; [exact Heq|split; [|split; [|split; [exact Hfile|]]]]].
  - unfold exec. rewrite Heq.
    assert (Hk : keeps (same roster)
              (self_log strftime expanduser dirname "privmsg" (source e)
                 (message e) (target e) "" "" ;;
               self_run_modules e ;; ret tt)).
    { keeps_auto. }
    specialize (Hk b). unfold same, roster, exec in Hk.
    injection Hk as _ _ Hs. exact Hs.
  - intros d Hd row logged. split; [by apply Hdb|].
    unfold exec. rewrite (Hdb d Hd). fold row. fold logged.
    assert (Hk : keeps (same SeshetBot.db) (run_modules e ;; ret tt)).
    { pose proof (self_run_modules_keeps_db e) as Hs.
      intros s. specialize (Hs s). unfold same, exec in *.
      unfold self_run_modules, this in Hs. unfold bind at 1 in Hs.
      cbn [gets] in Hs. unfold bind.
      destruct (SeshetBot.db s) eqn:Hds.
      - destruct (run_modules e s) as [[ev|x] s']; exact Hs.
      - unfold run_modules, this, bind, gets. rewrite Hds. exact Hds. }
    specialize (Hk logged). unfold same, exec in Hk. rewrite Hk.
    reflexivity.
  - intros d m cmds token rest h Hd Hcmd Htarget Hq Hsplit Himp Hm Hen Hty
           Hnick Hcmds Hfirst.
    unfold outcome, exec. rewrite (Hdb d Hd).
    match goal with
    | |- context [bind (run_modules e) _ ?s] => set (logged := s)
    end.
    destruct (run_modules_direct logged
                (mkDB (event_log d
                       ++ [mkRow "privmsg" (SeshetBot.now b) (source e)
                                 (target e) (message e) "" ""])
                      (modules d))
                e m cmds token rest h)
      as (new & b' & Hrun & Hcalls & _ & Hin); try assumption;
      try reflexivity.
    erewrite bind_run by exact Hrun. cbn [ret fst snd].
    split; [reflexivity|]. exists new. split; [exact Hcalls | exact Hin].
  - intros Hd date_fmt time_fmt short_fmt long_fmt fmt path line
           Hdf Htf Hsf Hlf Hfmt today target' locals Hpath Hdir Hline.
    unfold outcome, exec. rewrite (Hfile Hd).
    rewrite (log_to_file_writes strftime expanduser dirname b "privmsg"
               (source e) (message e) (target e) "" "" date_fmt time_fmt
               short_fmt long_fmt fmt path line Hdf Htf Hsf Hlf Hfmt);
      try assumption.
    + split; reflexivity.
    + cbn [andb]. unfold PyStr.mem.
      rewrite bool_decide_eq_true_2 by (apply elem_of_cons; by left).
      rewrite andb_true_r. exact Hpath.
    + unfold PyStr.mem.
      rewrite bool_decide_eq_true_2 by (apply elem_of_cons; by left).
      rewrite andb_true_r. exact Hline.
Qed.
End UnknownTarget.

Lemma C10_unknown_target_keeps_message_logs_witness :
  let e := privmsg "A" "Bot" "ping" in
  let d := mkDB [mkRow "privmsg" 0 "A" "#c" "hi" "" ""] [ping_mod] in
  let on_message1 := on_message strftime0 expanduser0 dirname0 in
  option_map SeshetChannel.message_log (channel_at "#c" chatty_ping)
  = Some [(1, "a", "hi")]
  /\ SeshetBot.store (exec (on_message1 e) chatty_ping)
     = SeshetBot.store chatty_ping
  /\ SeshetBot.db (exec (on_message1 e) chatty_ping)
     = Some (mkDB (event_log d
                   ++ [mkRow "privmsg" (SeshetBot.now chatty_ping) (source e)
                             (target e) (message e) "" ""])
                  (modules d))
  /\ (outcome (on_message1 e) chatty_ping = Ok tt
      /\ exists new,
           SeshetBot.calls (exec (on_message1 e) chatty_ping)
           = SeshetBot.calls chatty_ping ++ new
           /\ ("pinger.ping", e) ∈ new)
  /\ SeshetBot.store (exec (on_message1 (privmsg "A" "#C" "hello"))
                           chatty_ping)
     = SeshetBot.store chatty_ping
  /\ (outcome (on_message1 e) chatty_file = Ok tt
      /\ SeshetBot.files (exec (on_message1 e) chatty_file)
         = SeshetBot.files chatty_file
           ++ [("logs/A.log", String.append "<A> to A: ping" newline)]).
Proof.
  intros e d on_message1.
  destruct (C10_unknown_target_keeps_message_logs
              strftime0 expanduser0 dirname0 chatty_ping e eq_refl)
    as (Hstore & _ & Hdb & Hcall & _).
  destruct (C10_unknown_target_keeps_message_logs
              strftime0 expanduser0 dirname0 chatty_ping
              (privmsg "A" "#C" "hello") eq_refl)
    as (Hstore' & _).
  destruct (C10_unknown_target_keeps_message_logs
              strftime0 expanduser0 dirname0 chatty_file e eq_refl)
    as (_ & _ & _ & _ & _ & Hfile).
  split; [vm_compute; reflexivity|].
  split; [exact Hstore|].
  split; [exact (proj2 (Hdb d eq_refl))|].
  split.
  { apply (Hcall d ping_mod [("ping", "pinger.ping")] "ping" []
                 "pinger.ping");
      try reflexivity.
    - repeat constructor; discriminate.
    - apply elem_of_cons. by left. }
  split; [exact Hstore'|].
  apply (Hfile eq_refl "%d" "%H" "%s" "%l"
               [Lit "<"; Field "source"; Lit "> to "; Field "target";
                Lit ": "; Field "msg"]
               "logs/A.log" "<A> to A: ping");
    try reflexivity.
  vm_compute. discriminate.
Defined.

(** * The membership invariant and the bot's own PART *)


